(** * Minesweeper (src/main.py): a shallow embedding of the game engine

    The engine part of [MinesweeperGame] is embedded as pure functions over
    an explicit state: the grid of [FieldButton] objects is a list of rows,
    a button object is identified by the place it occupies in that grid,
    and everything a method reads from the outside world (the outcome of
    [random.shuffle], the clock, the text typed in the name dialog, the
    leaderboard files and what becomes of a write to them) is an explicit
    argument or a field of the state.
    Only the widget options the engine later reads back ([state], [text])
    are kept; colours, reliefs and fonts are left out. *)

From Stdlib Require Import ZArith List Lia Permutation Sorted.
From stdpp Require Import base option list numbers strings pretty sorting gmap.

Local Open Scope Z_scope.

(** ** Python lists *)

(** [range(a, b)]. *)
Definition range (a b : Z) : list Z := seqZ a (b - a).

(** Normalisation of a subscript [l[i]]: negative subscripts count from the
    end, anything else out of range raises [IndexError] ([None]). *)
Definition py_index {A} (l : list A) (i : Z) : option nat :=
  let n := Z.of_nat (length l) in
  if bool_decide (0 ≤ i < n) then Some (Z.to_nat i)
  else if bool_decide (- n ≤ i < 0) then Some (Z.to_nat (n + i))
  else None.

(** [l[:n]]. *)
Definition slice_prefix {A} (l : list A) (n : Z) : list A :=
  if bool_decide (0 ≤ n) then take (Z.to_nat n) l
  else take (length l - Z.to_nat (- n))%nat l.

(** [l.remove(x)]: drops the first occurrence, [ValueError] when absent. *)
Fixpoint list_remove (x : Z) (l : list Z) : option (list Z) :=
  match l with
  | [] => None
  | y :: l' => if bool_decide (y = x) then Some l'
               else cons y <$> list_remove x l'
  end.

(** A [for] loop whose body may raise: the state is threaded through the
    iterations in order and the first exception ends the loop. *)
Fixpoint for_each {A S} (xs : list A) (body : A → S → option S) (s : S)
  : option S :=
  match xs with
  | [] => Some s
  | x :: xs' => s' ← body x s; for_each xs' body s'
  end.

(** ** Cells *)

Inductive WidgetState := normal | disabled.

(** The values the [text] option of a cell takes: the empty string, the
    flag emoji, the mine marker ["*"] and a neighbour count. *)
Inductive Label := text_empty | text_flag | text_mine | text_number (n : Z).

#[global] Instance WidgetState_eq_dec : EqDecision WidgetState.
Proof. solve_decision. Defined.
#[global] Instance Label_eq_dec : EqDecision Label.
Proof. solve_decision. Defined.

Record FieldButton := {
  row : Z;
  col : Z;
  number : Z;
  is_mine : bool;
  adjacent_mines : Z;
  is_open : bool;
  state : WidgetState;
  text : Label
}.

(** [FieldButton(master, row=i, col=j)]: [number=0], not a mine, no
    neighbours counted, closed; a fresh [tk.Button] is [normal] with an
    empty text. *)
Definition new_button (i j : Z) : FieldButton :=
  {| row := i; col := j; number := 0; is_mine := false;
     adjacent_mines := 0; is_open := false;
     state := normal; text := text_empty |}.

Definition set_number (n : Z) (b : FieldButton) : FieldButton :=
  {| row := row b; col := col b; number := n; is_mine := is_mine b;
     adjacent_mines := adjacent_mines b; is_open := is_open b;
     state := state b; text := text b |}.

Definition set_is_mine (v : bool) (b : FieldButton) : FieldButton :=
  {| row := row b; col := col b; number := number b; is_mine := v;
     adjacent_mines := adjacent_mines b; is_open := is_open b;
     state := state b; text := text b |}.

Definition set_adjacent_mines (n : Z) (b : FieldButton) : FieldButton :=
  {| row := row b; col := col b; number := number b; is_mine := is_mine b;
     adjacent_mines := n; is_open := is_open b;
     state := state b; text := text b |}.

Definition set_is_open (v : bool) (b : FieldButton) : FieldButton :=
  {| row := row b; col := col b; number := number b; is_mine := is_mine b;
     adjacent_mines := adjacent_mines b; is_open := v;
     state := state b; text := text b |}.

(** [btn.config(state=s)] and [btn.config(text=t)]. *)
Definition config_state (s : WidgetState) (b : FieldButton) : FieldButton :=
  {| row := row b; col := col b; number := number b; is_mine := is_mine b;
     adjacent_mines := adjacent_mines b; is_open := is_open b;
     state := s; text := text b |}.

Definition config_text (t : Label) (b : FieldButton) : FieldButton :=
  {| row := row b; col := col b; number := number b; is_mine := is_mine b;
     adjacent_mines := adjacent_mines b; is_open := is_open b;
     state := state b; text := t |}.

(** ** The grid: a store of button objects

    [self.buttons] is a list of rows.  A button object lives at one place
    of the grid for the whole game, so a reference to it is that place. *)

Abbreviation Grid := (list (list FieldButton)).
Abbreviation Ref := (nat * nat)%type.

(** [self.buttons[i][j]] as a reference. *)
Definition button_ref (buttons : Grid) (i j : Z) : option Ref :=
  r ← py_index buttons i;
  rw ← buttons !! r;
  c ← py_index rw j;
  Some (r, c).

Definition deref (buttons : Grid) (p : Ref) : option FieldButton :=
  buttons !! p.1 ≫= (.!! p.2).

(** An attribute assignment or [config] call on the object at [p]. *)
Definition assign (f : FieldButton → FieldButton) (p : Ref) (buttons : Grid)
  : Grid :=
  alter (alter f p.2) p.1 buttons.

(** [self.buttons[i][j]] as a value. *)
Definition cell (buttons : Grid) (i j : Z) : option FieldButton :=
  button_ref buttons i j ≫= deref buttons.

(** [create_game_grid]: [(height + 2) × (width + 2)] fresh buttons. *)
Definition create_game_grid (height width : Z) : Grid :=
  (λ i, (λ j, new_button i j) <$> range 0 (width + 2))
    <$> range 0 (height + 2).

(** The numbering loop at the end of [create_menu]. *)
Definition number_cells (height width : Z) (buttons : Grid) : option Grid :=
  snd <$>
  for_each (range 1 (height + 1)) (λ i,
    for_each (range 1 (width + 1)) (λ j '(count, buttons),
      p ← button_ref buttons i j;
      Some (count + 1, assign (set_number count) p buttons)))
    (1, buttons).

(** The grid as [setup_ui] leaves it. *)
Definition setup_grid (height width : Z) : option Grid :=
  number_cells height width (create_game_grid height width).

(** ** Mine placement *)

(** [get_mines_places]; [shuffle] is the outcome of [random.shuffle]. *)
Definition get_mines_places (shuffle : list Z → list Z)
    (height width mines exclude_number : Z) : option (list Z) :=
  indexes ← list_remove exclude_number (range 1 (width * height + 1));
  Some (slice_prefix (shuffle indexes) mines).

Definition place_mines (shuffle : list Z → list Z)
    (height width mines num : Z) (buttons : Grid) : option Grid :=
  index_mines ← get_mines_places shuffle height width mines num;
  for_each (range 1 (height + 1)) (λ i,
    for_each (range 1 (width + 1)) (λ j buttons,
      p ← button_ref buttons i j;
      btn ← deref buttons p;
      if bool_decide (number btn ∈ index_mines)
      then Some (assign (set_is_mine true) p buttons)
      else Some buttons))
    buttons.

(** ** Adjacency *)

Definition offsets : list Z := [-1; 0; 1].

(** The two inner loops of [calculate_adjacent_mines]. *)
Definition count_adjacent (buttons : Grid) (i j : Z) : option Z :=
  for_each offsets (λ row_dx,
    for_each offsets (λ col_dx adjacent_mines,
      neighbour ← cell buttons (i + row_dx) (j + col_dx);
      Some (if is_mine neighbour then adjacent_mines + 1
            else adjacent_mines)))
    0.

Definition calculate_adjacent_mines (height width : Z) (buttons : Grid)
  : option Grid :=
  for_each (range 1 (height + 1)) (λ i,
    for_each (range 1 (width + 1)) (λ j buttons,
      p ← button_ref buttons i j;
      btn ← deref buttons p;
      adjacent_mines ←
        (if is_mine btn then Some 0 else count_adjacent buttons i j);
      Some (assign (set_adjacent_mines adjacent_mines) p buttons)))
    buttons.

(** ** Flood fill *)

(** [queue.pop()]: the last element. *)
Definition list_pop {A} (l : list A) : option (list A * A) :=
  match reverse l with
  | [] => None
  | x :: r => Some (reverse r, x)
  end.

(** What the body of the [while] loop does to the popped button. *)
Definition open_button (cur_btn : FieldButton) : FieldButton :=
  let shown :=
    if bool_decide (text cur_btn ≠ text_flag) then
      config_state disabled
        (config_text
           (if bool_decide (adjacent_mines cur_btn ≠ 0)
            then text_number (adjacent_mines cur_btn) else text_empty)
           cur_btn)
    else cur_btn in
  set_is_open true shown.

(** The neighbour scan of one iteration.  The loop state is the work list
    together with [pushed], the record of every [queue.append] so far. *)
Definition scan_neighbours (height width : Z) (buttons : Grid)
    (cur_btn : FieldButton) (st : list Ref * list Ref)
  : option (list Ref * list Ref) :=
  for_each offsets (λ dx,
    for_each offsets (λ dy '(queue, pushed),
      next ← button_ref buttons (row cur_btn + dx) (col cur_btn + dy);
      next_btn ← deref buttons next;
      if negb (is_open next_btn)
         && bool_decide (1 ≤ row next_btn ≤ height)
         && bool_decide (1 ≤ col next_btn ≤ width)
         && bool_decide (next ∉ queue)
      then Some (queue ++ [next], pushed ++ [next])
      else Some (queue, pushed)))
    st.

(** The [while queue:] loop; [fuel] bounds the number of iterations and
    [None] is returned when it runs out (or when a subscript raises).
    [cur_btn] is the popped object as read before the assignments of
    [open_button]; these leave [adjacent_mines], [row] and [col], the
    fields read afterwards, as they are. *)
Fixpoint reveal_loop (fuel : nat) (height width : Z) (buttons : Grid)
    (queue pushed : list Ref) : option (Grid * list Ref) :=
  match fuel with
  | O => None
  | S fuel' =>
      match list_pop queue with
      | None => Some (buttons, pushed)
      | Some (queue, cur) =>
          cur_btn ← deref buttons cur;
          let buttons := assign open_button cur buttons in
          '(queue, pushed) ←
            (if bool_decide (adjacent_mines cur_btn = 0)
             then scan_neighbours height width buttons cur_btn
                    (queue, pushed)
             else Some (queue, pushed));
          reveal_loop fuel' height width buttons queue pushed
      end
  end.

(** [reveal_empty_region(btn)], with the record of the cells that entered
    the work list. *)
Definition reveal_trace (fuel : nat) (height width : Z) (buttons : Grid)
    (btn : Ref) : option (Grid * list Ref) :=
  reveal_loop fuel height width buttons [btn] [btn].

Definition reveal_empty_region (fuel : nat) (height width : Z)
    (buttons : Grid) (btn : Ref) : option Grid :=
  fst <$> reveal_trace fuel height width buttons btn.

(** ** Leaderboards *)

(** A [LeaderboardEntry] named tuple.  [name] is [None] when the Python
    value is [None] (no name was ever confirmed in the dialog). *)
Record LeaderboardEntry := {
  name : option string;
  time : Z
}.

#[global] Instance LeaderboardEntry_eq_dec : EqDecision LeaderboardEntry.
Proof. solve_decision. Defined.

(** A leaderboard file as [csv.reader] sees it: a sequence of rows of
    fields, or a file whose reading raises. *)
Inductive File :=
  | unreadable
  | content (rows : list (list string)).

(** What an attempt to rewrite a leaderboard file leaves behind: the
    rows written ([write_done]); the file as it was, when [open] raised
    ([write_refused]); or what an exception raised after [open] left of
    it ([write_broken]).  [save_leaderboards] swallows the exception in
    both cases. *)
Inductive WriteOutcome :=
  | write_done
  | write_refused
  | write_broken (remains : File).

Inductive Event :=
  | ev_message (title : string)
  | ev_prompt_name (difficulty : string)
  | ev_save
  | ev_leaderboard_window.

Definition filename (difficulty : string) : string :=
  difficulty +:+ "_leaderboard.csv".

(** [entries.sort(key=lambda x: x.time)]: a stable sort, written as an
    insertion sort that keeps an entry before the equal ones that
    followed it. *)
Fixpoint insert_by_time (e : LeaderboardEntry) (l : list LeaderboardEntry)
  : list LeaderboardEntry :=
  match l with
  | [] => [e]
  | x :: l' => if bool_decide (time x < time e)
               then x :: insert_by_time e l' else e :: x :: l'
  end.

Definition sort_by_time (l : list LeaderboardEntry) : list LeaderboardEntry :=
  foldr insert_by_time [] l.

(** [str(n)] for an integer. *)
Definition py_str (n : Z) : string := pretty n.

(** The row [writer.writerow([entry.name, entry.time])] produces. *)
Definition entry_row (e : LeaderboardEntry) : list string :=
  [default "" (name e); py_str (time e)].

(** [len(entries) < 5 or time_elapsed < entries[-1].time]; the subscript
    is only evaluated on a list of five or more entries. *)
Definition qualifies (entries : list LeaderboardEntry) (time_elapsed : Z)
  : bool :=
  bool_decide (length entries < 5)%nat
  || match last entries with
     | Some e => bool_decide (time_elapsed < time e)
     | None => false
     end.

Section Engine.

(** Python's [int(s)] on a string: [None] when it raises [ValueError]. *)
Variable py_int : string → option Z.

(** The body of the row loop of [load_leaderboards]: the entry a row
    contributes, if any. *)
Definition read_row (row : list string) : option LeaderboardEntry :=
  match row with
  | [name; time_str] =>
      time_val ← py_int time_str;
      if bool_decide (time_val > 0) then
        Some {| name := Some (if bool_decide (name = "") then "Anonymous"
                              else name);
                time := if bool_decide (time_val > 999) then 999
                        else time_val |}
      else None
  | _ => None
  end.

(** The rows of one file turned into the stored leaderboard. *)
Definition read_entries (rows : list (list string)) : list LeaderboardEntry :=
  let entries :=
    foldl (λ entries row,
             match read_row row with
             | Some e => entries ++ [e]
             | None => entries
             end) [] rows in
  take 5 (sort_by_time entries).

(** One iteration of the loop of [load_leaderboards] over the
    difficulties: [old] is the list held in memory. *)
Definition load_one (files : gmap string File) (difficulty : string)
    (old : list LeaderboardEntry) : list LeaderboardEntry :=
  match files !! filename difficulty with
  | None => old
  | Some unreadable => []
  | Some (content rows) => read_entries rows
  end.


(** ** The game object and its surroundings

    The fields of [MinesweeperGame] the engine uses, the leaderboard files
    on disk, the dialogs and writes performed so far, and what the file
    system answers when a file is rewritten: [write_outcome s name rows]
    is the outcome of writing [rows] to the file [name]. *)

Record Minesweeper := {
  height : Z;
  width : Z;
  mines : Z;
  game_over : bool;
  is_first_click : bool;
  flags_left : Z;
  buttons : Grid;
  player_name : option string;
  leaderboards : gmap string (list LeaderboardEntry);
  files : gmap string File;
  events : list Event;
  write_outcome : string → list (list string) → WriteOutcome
}.

Definition set_buttons (v : Grid) (s : Minesweeper) : Minesweeper :=
  {| height := height s; width := width s; mines := mines s;
     game_over := game_over s; is_first_click := is_first_click s;
     flags_left := flags_left s; buttons := v;
     player_name := player_name s; leaderboards := leaderboards s;
     files := files s; events := events s;
     write_outcome := write_outcome s |}.

Definition set_game_over (v : bool) (s : Minesweeper) : Minesweeper :=
  {| height := height s; width := width s; mines := mines s;
     game_over := v; is_first_click := is_first_click s;
     flags_left := flags_left s; buttons := buttons s;
     player_name := player_name s; leaderboards := leaderboards s;
     files := files s; events := events s;
     write_outcome := write_outcome s |}.

Definition set_is_first_click (v : bool) (s : Minesweeper) : Minesweeper :=
  {| height := height s; width := width s; mines := mines s;
     game_over := game_over s; is_first_click := v;
     flags_left := flags_left s; buttons := buttons s;
     player_name := player_name s; leaderboards := leaderboards s;
     files := files s; events := events s;
     write_outcome := write_outcome s |}.

Definition set_flags_left (v : Z) (s : Minesweeper) : Minesweeper :=
  {| height := height s; width := width s; mines := mines s;
     game_over := game_over s; is_first_click := is_first_click s;
     flags_left := v; buttons := buttons s;
     player_name := player_name s; leaderboards := leaderboards s;
     files := files s; events := events s;
     write_outcome := write_outcome s |}.

Definition set_player_name (v : option string) (s : Minesweeper)
  : Minesweeper :=
  {| height := height s; width := width s; mines := mines s;
     game_over := game_over s; is_first_click := is_first_click s;
     flags_left := flags_left s; buttons := buttons s;
     player_name := v; leaderboards := leaderboards s;
     files := files s; events := events s;
     write_outcome := write_outcome s |}.

Definition set_leaderboards (v : gmap string (list LeaderboardEntry))
    (s : Minesweeper) : Minesweeper :=
  {| height := height s; width := width s; mines := mines s;
     game_over := game_over s; is_first_click := is_first_click s;
     flags_left := flags_left s; buttons := buttons s;
     player_name := player_name s; leaderboards := v;
     files := files s; events := events s;
     write_outcome := write_outcome s |}.

Definition set_files (v : gmap string File) (s : Minesweeper) : Minesweeper :=
  {| height := height s; width := width s; mines := mines s;
     game_over := game_over s; is_first_click := is_first_click s;
     flags_left := flags_left s; buttons := buttons s;
     player_name := player_name s; leaderboards := leaderboards s;
     files := v; events := events s;
     write_outcome := write_outcome s |}.

Definition emit (e : Event) (s : Minesweeper) : Minesweeper :=
  {| height := height s; width := width s; mines := mines s;
     game_over := game_over s; is_first_click := is_first_click s;
     flags_left := flags_left s; buttons := buttons s;
     player_name := player_name s; leaderboards := leaderboards s;
     files := files s; events := events s ++ [e];
     write_outcome := write_outcome s |}.

(** Difficulty presets (height, width, mines). *)
Definition BEGINNER_OPTIONS : Z * Z * Z := (9, 9, 15).
Definition INTERMEDIATE_OPTIONS : Z * Z * Z := (16, 16, 40).
Definition EXPERT_OPTIONS : Z * Z * Z := (16, 30, 99).

(** [load_leaderboards]: every difficulty whose file exists is read
    anew; the others keep the list held in memory. *)
Definition load_leaderboards (s : Minesweeper) : Minesweeper :=
  set_leaderboards
    (map_imap (λ difficulty old, Some (load_one (files s) difficulty old))
       (leaderboards s))
    s.

(** The [try] block of [save_leaderboards] for one file: the rows are
    written, or the exception is swallowed and the file is what the
    failed attempt left. *)
Definition write_file (outcome : WriteOutcome) (name : string)
    (rows : list (list string)) (fs : gmap string File) : gmap string File :=
  match outcome with
  | write_done => <[name := content rows]> fs
  | write_refused => fs
  | write_broken remains => <[name := remains]> fs
  end.

(** [save_leaderboards]: for every difficulty an attempt to rewrite its
    file with the list held in memory, one row per entry. *)
Definition save_leaderboards (s : Minesweeper) : Minesweeper :=
  emit ev_save
    (set_files
       (map_fold (λ difficulty entries fs,
                    let rows := entry_row <$> entries in
                    write_file (write_outcome s (filename difficulty) rows)
                      (filename difficulty) rows fs)
          (files s) (leaderboards s))
       s).

(** [show_leaderboards]: reload, then open the window. *)
Definition show_leaderboards (s : Minesweeper) : Minesweeper :=
  emit ev_leaderboard_window (load_leaderboards s).

(** [prompt_player_name]: [typed] is the text confirmed with OK, [None]
    when the dialog was closed without confirming. *)
Definition prompt_player_name (typed : option string) (difficulty : string)
    (s : Minesweeper) : Minesweeper :=
  let s := emit (ev_prompt_name difficulty) s in
  match typed with
  | Some name =>
      set_player_name
        (Some (if bool_decide (name = "") then "Anonymous" else name)) s
  | None => s
  end.

Definition update_leaderboard (typed : option string) (difficulty : string)
    (time_elapsed : Z) (s : Minesweeper) : option Minesweeper :=
  let s := load_leaderboards s in
  entries ← leaderboards s !! difficulty;
  if qualifies entries time_elapsed then
    let s := prompt_player_name typed difficulty s in
    let entries :=
      sort_by_time
        (entries ++ [{| name := player_name s; time := time_elapsed |}]) in
    let s :=
      set_leaderboards (<[difficulty := take 5 entries]> (leaderboards s)) s in
    let s := save_leaderboards s in
    Some (show_leaderboards s)
  else Some s.

(** A pass over the interior cells that assigns to each of them. *)
Definition for_interior (height width : Z) (f : FieldButton → FieldButton)
    (buttons : Grid) : option Grid :=
  for_each (range 1 (height + 1)) (λ row,
    for_each (range 1 (width + 1)) (λ col buttons,
      p ← button_ref buttons row col;
      Some (assign f p buttons)))
    buttons.

(** [game_won]; [elapsed] is [int(time.time() - self.start_time)]. *)
Definition game_won (elapsed : Z) (typed : option string) (s : Minesweeper)
  : option Minesweeper :=
  let s := set_game_over true s in
  let current_settings := (height s, width s, mines s) in
  let difficulty :=
    if bool_decide (current_settings = BEGINNER_OPTIONS)
    then Some "beginner"
    else if bool_decide (current_settings = INTERMEDIATE_OPTIONS)
    then Some "intermediate"
    else if bool_decide (current_settings = EXPERT_OPTIONS)
    then Some "expert"
    else None in
  let s := emit (ev_message "Congratulations!") s in
  s ← match difficulty with
      | Some difficulty => update_leaderboard typed difficulty elapsed s
      | None => Some s
      end;
  buttons ← for_interior (height s) (width s) (config_state disabled)
               (buttons s);
  Some (set_buttons buttons s).


(** A [for] loop whose body may execute [return v]: [Some (Some v)] when
    it did, [Some None] when the loop ran to its end. *)
Fixpoint for_return {A R} (xs : list A) (body : A → option (option R))
  : option (option R) :=
  match xs with
  | [] => Some None
  | x :: xs' =>
      r ← body x;
      match r with
      | Some v => Some (Some v)
      | None => for_return xs' body
      end
  end.

(** The condition under which [check_win] returns [False] at a cell. *)
Definition blocks_win (btn : FieldButton) : bool :=
  (negb (is_mine btn) && negb (is_open btn))
  || (bool_decide (text btn = text_flag) && negb (is_mine btn)).

(** The scan of [check_win]: [Some false] when it returned [False],
    [None] when both loops ran to their end. *)
Definition check_win_scan (height width : Z) (buttons : Grid)
  : option (option bool) :=
  for_return (range 1 (height + 1)) (λ row,
    for_return (range 1 (width + 1)) (λ col,
      btn ← cell buttons row col;
      Some (if blocks_win btn then Some false else None))).

(** [check_win]: the new state and the returned value. *)
Definition check_win (elapsed : Z) (typed : option string) (s : Minesweeper)
  : option (Minesweeper * bool) :=
  r ← check_win_scan (height s) (width s) (buttons s);
  match r with
  | Some v => Some (s, v)
  | None => s ← game_won elapsed typed s; Some (s, true)
  end.

(** [game_lost(button)]. *)
Definition game_lost (button : Ref) (s : Minesweeper) : option Minesweeper :=
  let s := set_buttons (assign (config_text text_mine) button (buttons s)) s in
  let s := set_game_over true s in
  buttons ← for_interior (height s) (width s)
               (λ btn, if is_mine btn
                       then config_state disabled (config_text text_mine btn)
                       else config_state disabled btn)
               (buttons s);
  Some (emit (ev_message "Game Over") (set_buttons buttons s)).

(** [handle_click(button)].  [shuffle], [elapsed] and [typed] are what the
    call would obtain from [random.shuffle], the clock and the name
    dialog; [fuel] bounds the flood fill. *)
Definition handle_click (fuel : nat) (shuffle : list Z → list Z)
    (elapsed : Z) (typed : option string) (button : Ref) (s : Minesweeper)
  : option Minesweeper :=
  if game_over s then Some s else
  s ← (if is_first_click s then
         btn ← deref (buttons s) button;
         buttons ← place_mines shuffle (height s) (width s) (mines s)
                     (number btn) (buttons s);
         buttons ← calculate_adjacent_mines (height s) (width s) buttons;
         Some (set_is_first_click false (set_buttons buttons s))
       else Some s);
  btn ← deref (buttons s) button;
  if is_mine btn then game_lost button s
  else
    buttons ←
      (if bool_decide (adjacent_mines btn ≠ 0) then
         Some (assign (set_is_open true)
                 button
                 (assign (config_text (text_number (adjacent_mines btn)))
                    button (buttons s)))
       else reveal_empty_region fuel (height s) (width s) (buttons s) button);
    let buttons := assign (config_state disabled) button buttons in
    fst <$> check_win elapsed typed (set_buttons buttons s).

(** [toggle_flag(event)] with [event.widget] the button at [button]. *)
Definition toggle_flag (button : Ref) (s : Minesweeper)
  : option Minesweeper :=
  if game_over s then Some s else
  btn ← deref (buttons s) button;
  if bool_decide (state btn = normal) && bool_decide (flags_left s > 0) then
    Some (set_buttons
            (assign (λ b, config_text text_flag (config_state disabled b))
               button (buttons s))
            (set_flags_left (flags_left s - 1) s))
  else if bool_decide (text btn = text_flag) then
    Some (set_buttons
            (assign (λ b, config_text text_empty (config_state normal b))
               button (buttons s))
            (set_flags_left (flags_left s + 1) s))
  else Some s.

(** [set_difficulty(settings)] followed by the [reset_game] it calls. *)
Definition set_difficulty (settings : Z * Z * Z) (s : Minesweeper)
  : option Minesweeper :=
  let '(height, width, mines) := settings in
  buttons ← setup_grid height width;
  Some {| height := height; width := width; mines := mines;
          game_over := false; is_first_click := true;
          flags_left := mines; buttons := buttons;
          player_name := player_name s; leaderboards := leaderboards s;
          files := files s; events := events s;
     write_outcome := write_outcome s |}.

Definition reset_game (s : Minesweeper) : option Minesweeper :=
  set_difficulty (height s, width s, mines s) s.

(** [MinesweeperGame()] started over the leaderboard files [fs], on a
    file system that answers writes by [writes]. *)
Definition new_game (fs : gmap string File)
    (writes : string → list (list string) → WriteOutcome)
  : option Minesweeper :=
  buttons ← setup_grid 9 9;
  Some {| height := 9; width := 9; mines := 15;
          game_over := false; is_first_click := true;
          flags_left := 15; buttons := buttons;
          player_name := None;
          leaderboards :=
            {[ "beginner" := []; "intermediate" := []; "expert" := [] ]};
          files := fs; events := []; write_outcome := writes |}.

(** What Tk does with the mouse: a left click runs the button's command
    only while the button is [normal]; a right click always reaches the
    [<Button-3>] binding. *)
Inductive Action :=
  | left_click (button : Ref) (shuffle : list Z → list Z) (elapsed : Z)
      (typed : option string)
  | right_click (button : Ref).

Definition perform (fuel : nat) (a : Action) (s : Minesweeper)
  : option Minesweeper :=
  match a with
  | left_click button shuffle elapsed typed =>
      btn ← deref (buttons s) button;
      if bool_decide (state btn = normal)
      then handle_click fuel shuffle elapsed typed button s
      else Some s
  | right_click button => toggle_flag button s
  end.

End Engine.

(** ** Vocabulary of the statements *)

(** The grid has the shape [create_game_grid] gives it, and every button
    carries the position it was created at. *)
Record grid_ok (height width : Z) (buttons : Grid) : Prop := {
  grid_rows : Z.of_nat (length buttons) = height + 2;
  grid_cols : ∀ r rw, buttons !! r = Some rw →
                Z.of_nat (length rw) = width + 2;
  grid_pos : ∀ p btn, deref buttons p = Some btn →
               row btn = Z.of_nat p.1 ∧ col btn = Z.of_nat p.2
}.

(** The reference of the interior cell in row [i] and column [j]. *)
Definition at_pos (i j : Z) : Ref := (Z.to_nat i, Z.to_nat j).

(** The interior positions in the order the loops visit them. *)
Definition interior (height width : Z) : list (Z * Z) :=
  cprod (range 1 (height + 1)) (range 1 (width + 1)).

Definition is_interior (height width : Z) (p : Ref) : Prop :=
  1 ≤ Z.of_nat p.1 ≤ height ∧ 1 ≤ Z.of_nat p.2 ≤ width.

(** An assignment that leaves [row] and [col] alone. *)
Definition keeps_pos (f : FieldButton → FieldButton) : Prop :=
  ∀ btn, row (f btn) = row btn ∧ col (f btn) = col btn.

(** [q] comes before the cell in row [i] and column [j] in the order the
    interior loops visit the cells. *)
Definition before (i j : Z) (q : Ref) : Prop :=
  Z.of_nat q.1 < i ∨ (Z.of_nat q.1 = i ∧ Z.of_nat q.2 < j).

(** The state of a pass over the interior that applies [g q] to every cell
    [q], when it is about to visit row [i], column [j]. *)
Definition swept (height width : Z) (g : Ref → FieldButton → FieldButton)
    (start : Grid) (i j : Z) (buttons : Grid) : Prop :=
  grid_ok height width buttons ∧
  ∀ q, deref buttons q
       = (if decide (is_interior height width q ∧ before i j q)
          then g q else id) <$> deref start q.

(** The interior cells, one per position, in the order of [interior]. *)
Definition interior_cells (height width : Z) (buttons : Grid)
  : list FieldButton :=
  omap (λ p, cell buttons p.1 p.2) (interior height width).

(** The interior cells that hold a mine. *)
Definition mine_cells (height width : Z) (buttons : Grid)
  : list FieldButton :=
  filter (λ btn, is_mine btn = true) (interior_cells height width buttons).

(** The sequential index [create_menu] gives the cell at [q]. *)
Definition sequential_index (width : Z) (q : Ref) : Z :=
  (Z.of_nat q.1 - 1) * width + Z.of_nat q.2.

(** What [place_mines] does to a cell, given the chosen indices. *)
Definition mark_mine (index_mines : list Z) (btn : FieldButton)
  : FieldButton :=
  if bool_decide (number btn ∈ index_mines) then set_is_mine true btn
  else btn.

(** A grid before the first click: well formed, numbered by
    [create_menu], and without mines.  Flags may already be placed. *)
Definition unmined (height width : Z) (buttons : Grid) : Prop :=
  grid_ok height width buttons ∧
  ∀ q btn, deref buttons q = Some btn →
    is_mine btn = false ∧
    (is_interior height width q → number btn = sequential_index width q).

(** The eight neighbours of the cell in row [i], column [j]. *)
Definition neighbours8 (i j : Z) : list (Z * Z) :=
  (λ d : Z * Z, (i + d.1, j + d.2))
    <$> [(-1, -1); (-1, 0); (-1, 1); (0, -1); (0, 1); (1, -1); (1, 0); (1, 1)].

Definition mine_at (buttons : Grid) (p : Z * Z) : bool :=
  match cell buttons p.1 p.2 with
  | Some btn => is_mine btn
  | None => false
  end.

(** The number of mines among the cells at the positions [ps]. *)
Definition count_mines (buttons : Grid) (ps : list (Z * Z)) : Z :=
  Z.of_nat (length (filter (λ p, mine_at buttons p = true) ps)).

Definition mines_around (buttons : Grid) (i j : Z) : Z :=
  count_mines buttons (neighbours8 i j).

(** The same count restricted to neighbours inside the playing field. *)
Definition interior_mines_around (height width : Z) (buttons : Grid)
    (i j : Z) : Z :=
  Z.of_nat (length (filter (λ p, mine_at buttons p = true
                                 ∧ 1 ≤ p.1 ≤ height ∧ 1 ≤ p.2 ≤ width)
                      (neighbours8 i j))).

(** No cell of the border ring holds a mine. *)
Definition border_clear (height width : Z) (buttons : Grid) : Prop :=
  ∀ q btn, deref buttons q = Some btn → ¬ is_interior height width q →
           is_mine btn = false.

(** What [calculate_adjacent_mines] stores in the cell at [q]. *)
Definition adjacency_of (start : Grid) (q : Ref) (btn : FieldButton)
  : FieldButton :=
  set_adjacent_mines
    (if is_mine btn then 0
     else mines_around start (Z.of_nat q.1) (Z.of_nat q.2))
    btn.

(** The two conditions of a win. *)
Definition safe_cells_open (height width : Z) (buttons : Grid) : Prop :=
  ∀ btn, btn ∈ interior_cells height width buttons →
         is_mine btn = false → is_open btn = true.

Definition no_safe_cell_flagged (height width : Z) (buttons : Grid) : Prop :=
  ∀ btn, btn ∈ interior_cells height width buttons →
         is_mine btn = false → text btn ≠ text_flag.

Definition difficulties : list string :=
  ["beginner"; "intermediate"; "expert"].

(** The game object is in one piece: the grid has the shape the
    dimensions call for and the three leaderboards exist. *)
Definition well_formed (s : Minesweeper) : Prop :=
  0 ≤ height s ∧ 0 ≤ width s
  ∧ grid_ok (height s) (width s) (buttons s)
  ∧ ∀ d, d ∈ difficulties → is_Some (leaderboards s !! d).

(** The invariant of the [while] loop of [reveal_empty_region]: no cell
    was appended twice, the work list holds distinct appended cells, all
    of them interior, and every appended cell that left the work list
    is marked open. *)
Record reveal_inv (height width : Z) (buttons : Grid)
    (queue pushed : list Ref) : Prop := {
  inv_grid : grid_ok height width buttons;
  inv_pushed : NoDup pushed;
  inv_queue : NoDup queue;
  inv_pending : ∀ r, r ∈ queue → r ∈ pushed;
  inv_interior : ∀ r, r ∈ pushed → is_interior height width r;
  inv_done : ∀ r, r ∈ pushed → r ∉ queue →
               ∃ btn, deref buttons r = Some btn ∧ is_open btn = true
}.

(** The references of the interior cells. *)
Definition interior_refs (height width : Z) : list Ref :=
  (λ p : Z * Z, at_pos p.1 p.2) <$> interior height width.

(** ** The leaderboard in the words of the specification *)

(** Ascending by time. *)
Definition sorted_by_time (l : list LeaderboardEntry) : Prop :=
  StronglySorted (λ a b, time a ≤ time b) l.

(** [sorted] is [l] sorted ascending by time with ties kept in the
    order they have in [l]. *)
Definition stable_sort_of (l sorted : list LeaderboardEntry) : Prop :=
  sorted_by_time sorted
  ∧ sorted ≡ₚ l
  ∧ ∀ t, filter (λ e, time e = t) sorted = filter (λ e, time e = t) l.

(** A persisted row is well formed: two fields, the second an integer,
    and that integer positive. *)
Definition spec_row_ok (py_int : string → option Z) (row : list string)
  : bool :=
  match row with
  | [_; time_str] =>
      match py_int time_str with
      | Some n => bool_decide (0 < n)
      | None => false
      end
  | _ => false
  end.

(** The entry of a well-formed row: an empty name becomes "Anonymous",
    a time above 999 becomes 999. *)
Definition spec_row_entry (py_int : string → option Z) (row : list string)
  : LeaderboardEntry :=
  let name := default "" (row !! 0%nat) in
  let time := default 0 (row !! 1%nat ≫= py_int) in
  {| name := Some (if bool_decide (name = "") then "Anonymous" else name);
     time := Z.min time 999 |}.

(** The condition under which a winning time enters a leaderboard:
    fewer than five entries, or a time strictly below the fifth one. *)
Definition spec_qualifies (entries : list LeaderboardEntry) (t : Z) : Prop :=
  (length entries < 5)%nat ∨ ∃ e, entries !! 4%nat = Some e ∧ t < time e.

(** No leaderboard in memory holds more than five entries. *)
Definition boards_bounded (s : Minesweeper) : Prop :=
  ∀ d l, leaderboards s !! d = Some l → (length l ≤ 5)%nat.

(** The name [update_leaderboard] stores after the name dialog. *)
Definition name_after_prompt (typed : option string) (s : Minesweeper)
  : option string :=
  match typed with
  | Some name => Some (if bool_decide (name = "") then "Anonymous" else name)
  | None => player_name s
  end.

(** ** Flags *)

Definition total {A} (w : A → Z) (l : list A) : Z :=
  foldr (λ x acc, w x + acc) 0 l.

Definition is_flagged (btn : FieldButton) : Z :=
  if bool_decide (text btn = text_flag) then 1 else 0.

(** The number of buttons showing a flag. *)
Definition count_flags (buttons : Grid) : Z := total (total is_flagged) buttons.

(** The flag counter and the flags on the grid add up to the number of
    mines, the counter is not negative, and a button showing a flag is
    disabled. *)
Definition flags_balanced (s : Minesweeper) : Prop :=
  0 ≤ flags_left s
  ∧ flags_left s + count_flags (buttons s) = mines s
  ∧ ∀ q btn, deref (buttons s) q = Some btn →
      text btn = text_flag → state btn = disabled.

(** ** Concrete games *)

(** The plain decimal fragment of [int(s)]: an optional sign followed by
    ASCII digits. *)
Definition digit_of (c : Ascii.ascii) : option Z :=
  let n := Z.of_nat (Ascii.nat_of_ascii c) in
  if bool_decide (48 ≤ n ≤ 57) then Some (n - 48) else None.

Fixpoint digits_value (acc : Z) (s : string) : option Z :=
  match s with
  | EmptyString => Some acc
  | String c s' => d ← digit_of c; digits_value (10 * acc + d) s'
  end.

Definition decimal_int (s : string) : option Z :=
  match s with
  | EmptyString => None
  | String c s' =>
      if bool_decide (c = Ascii.ascii_of_nat 45) then
        if bool_decide (s' = "") then None else Z.opp <$> digits_value 0 s'
      else if bool_decide (c = Ascii.ascii_of_nat 43) then
        if bool_decide (s' = "") then None else digits_value 0 s'
      else digits_value 0 s
  end.

(** A file system on which every write succeeds. *)
Definition writes_succeed (name : string) (rows : list (list string))
  : WriteOutcome := write_done.

(** A game on one row of four cells with one mine, before the first
    click. *)
Definition strip_game : option Minesweeper :=
  new_game ∅ writes_succeed ≫= set_difficulty (1, 4, 1).

(** The player flags the second cell, then clicks the first one; the
    shuffle puts the mine on the last cell. *)
Definition strip_play : option Minesweeper :=
  s ← strip_game;
  s ← toggle_flag (1, 2)%nat s;
  handle_click decimal_int 5 reverse 0 None (1, 1)%nat s.

(** The grid of that game as the flood fill finds it: the second cell
    flagged, the mine on the last cell, the counts computed. *)
Definition strip_grid : option Grid :=
  buttons ← setup_grid 1 4;
  let buttons :=
    assign (λ b, config_text text_flag (config_state disabled b))
      (1, 2)%nat buttons in
  buttons ← place_mines reverse 1 4 1 1 buttons;
  calculate_adjacent_mines 1 4 buttons.

(** An outcome of the shuffle that puts the indices [first] in front. *)
Definition shuffled_first (first : list Z) (l : list Z) : list Z :=
  first ++ filter (λ n, n ∉ first) l.

(** Fifteen mines in the top left corner of the beginner board that
    leave the corner cell itself free and walled in. *)
Definition corner_mines : list Z :=
  [2; 3; 4; 5; 6; 10; 11; 12; 13; 14; 19; 20; 21; 22; 23].

(** A beginner game won with two clicks: the first, on the bottom right
    cell, opens everything but the walled-in corner; the second, on the
    corner, wins when the clock shows [elapsed] seconds, and the player
    enters the name "Ann". *)
Definition corner_win (elapsed : Z) : option Minesweeper :=
  s ← new_game ∅ writes_succeed;
  s ← perform decimal_int 100
        (left_click (9, 9)%nat (shuffled_first corner_mines) 0 None) s;
  perform decimal_int 100
    (left_click (1, 1)%nat (shuffled_first []) elapsed (Some "Ann")) s.

(** Rows of a leaderboard file, some of them malformed. *)
Definition sample_rows : list (list string) :=
  [["bob"]; ["bob"; "-5"]; ["bob"; "abc"]; ["amy"; "40"]; [""; "1200"];
   ["cat"; "7"]; []; ["dan"; "40"]].

Definition sample_files : gmap string File :=
  {[ filename "beginner" := content sample_rows ]}.

(** ** How the grid changes *)

(** [f] takes every button to one related to it by [R]. *)
Definition respects (R : FieldButton → FieldButton → Prop)
    (f : FieldButton → FieldButton) : Prop :=
  ∀ btn, R btn (f btn).

(** [buttons'] comes from [buttons] by assignments to single buttons,
    each taking the button it meets to one related to it by [R]. *)
Inductive evolves (R : FieldButton → FieldButton → Prop)
  : Grid → Grid → Prop :=
  | evolves_refl buttons : evolves R buttons buttons
  | evolves_assign buttons f p buttons' :
      respects R f →
      evolves R (assign f p buttons) buttons' →
      evolves R buttons buttons'.

(** What a left click may assign: [placing] tells whether the click is
    the first one, which also places the mines and counts. *)
Record click_closed (R : FieldButton → FieldButton → Prop)
    (placing : bool) : Prop := {
  cc_open : respects R open_button;
  cc_state : respects R (config_state disabled);
  cc_number : ∀ n, respects R (config_text (text_number n));
  cc_mark : respects R (config_text text_mine);
  cc_is_open : respects R (set_is_open true);
  cc_mine : placing = true → respects R (set_is_mine true);
  cc_count : placing = true → ∀ n, respects R (set_adjacent_mines n)
}.

(** The fields no action changes, and [is_open], which only goes from
    [False] to [True]. *)
Definition same_cell (a b : FieldButton) : Prop :=
  row b = row a ∧ col b = col a ∧ number b = number a
  ∧ (is_open a = true → is_open b = true).

(** [same_cell], and the mine and the count stay as well. *)
Definition same_mine (a b : FieldButton) : Prop :=
  same_cell a b
  ∧ is_mine b = is_mine a ∧ adjacent_mines b = adjacent_mines a.

(** No flag appears. *)
Definition no_new_flag (a b : FieldButton) : Prop :=
  text b = text_flag → text a = text_flag.

(** The counter is not negative and, together with the flags shown,
    does not exceed the number of mines. *)
Definition flags_within (s : Minesweeper) : Prop :=
  0 ≤ flags_left s ∧ flags_left s + count_flags (buttons s) ≤ mines s.
(** ** The cascade *)

(** The references [scan_neighbours] looks at around row [i], column
    [j]: the cell itself and its eight neighbours. *)
Definition around (i j : Z) : list Ref :=
  (λ d : Z * Z, at_pos (i + d.1) (j + d.2)) <$> cprod offsets offsets.

(** The invariant of the flood fill started at [start] on the grid
    [start_grid], beyond [reveal_inv]: the grid differs from the one at
    the start by [open_button] on the cells that left the work list;
    every cell that entered the work list, but for [start], was closed
    and lies around a cell with count 0 that left it; and around such a
    cell every interior cell entered the work list or was open from the
    start. *)
Record fill_inv (height width : Z) (start_grid : Grid) (start : Ref)
    (buttons : Grid) (queue pushed : list Ref) : Prop := {
  fill_base : reveal_inv height width buttons queue pushed;
  fill_frame : ∀ q,
    deref buttons q
    = (if decide (q ∈ pushed ∧ q ∉ queue) then open_button else id)
        <$> deref start_grid q;
  fill_origin : ∀ r, r ∈ pushed → r ≠ start →
    (∃ btn, deref start_grid r = Some btn ∧ is_open btn = false)
    ∧ ∃ r0 btn0,
        r0 ∈ pushed ∧ (r0 ∉ queue) ∧ deref start_grid r0 = Some btn0
        ∧ adjacent_mines btn0 = 0 ∧ r ∈ around (row btn0) (col btn0);
  fill_closed : ∀ r0 btn0 n,
    r0 ∈ pushed → r0 ∉ queue → deref start_grid r0 = Some btn0 →
    adjacent_mines btn0 = 0 → n ∈ around (row btn0) (col btn0) →
    is_interior height width n →
    n ∈ pushed
    ∨ ∃ btn, deref start_grid n = Some btn ∧ is_open btn = true
}.

(** Around a cell without a mine whose count is 0 there is no mine. *)
Definition zero_safe (height width : Z) (buttons : Grid) : Prop :=
  ∀ r btn n btn',
    is_interior height width r → deref buttons r = Some btn →
    is_mine btn = false → adjacent_mines btn = 0 →
    n ∈ around (row btn) (col btn) → deref buttons n = Some btn' →
    is_mine btn' = false.
(** ** Play *)

(** The button an action is aimed at. *)
Definition target (a : Action) : Ref :=
  match a with
  | left_click button _ _ _ => button
  | right_click button => button
  end.

(** No cell marked open holds a mine. *)
Definition opened_safe (buttons : Grid) : Prop :=
  ∀ q btn, deref buttons q = Some btn →
    is_open btn = true → is_mine btn = false.

Definition all_closed (buttons : Grid) : Prop :=
  ∀ q btn, deref buttons q = Some btn → is_open btn = false.

(** A cell that kept everything the engine reads but its widget state
    and text. *)
Definition same_open (a b : FieldButton) : Prop :=
  same_mine a b ∧ is_open b = is_open a.

(** A cell once disabled stays so. *)
Definition stays_disabled (a b : FieldButton) : Prop :=
  state a = disabled → state b = disabled.

(** The states a game goes through: the game object is in one piece on
    a board with at least one cell; before the first click the grid is
    numbered, without mines and closed; after it the counts of 0 are
    truthful and no cell marked open holds a mine. *)
Definition playable (s : Minesweeper) : Prop :=
  well_formed s ∧ 1 ≤ height s ∧ 1 ≤ width s
  ∧ if is_first_click s
    then unmined (height s) (width s) (buttons s)
         ∧ all_closed (buttons s)
    else zero_safe (height s) (width s) (buttons s)
         ∧ opened_safe (buttons s).

(** What the loop of [game_lost] does to a cell. *)
Definition show_mine (btn : FieldButton) : FieldButton :=
  if is_mine btn then config_state disabled (config_text text_mine btn)
  else config_state disabled btn.

(** A game on the beginner board: a flag, the first click, a click on
    a button already disabled by the flag, the flag taken back and a
    further click. *)
Definition sample_play : list Action :=
  [right_click (1, 1)%nat;
   left_click (5, 5)%nat reverse 0 None;
   left_click (1, 1)%nat reverse 3 None;
   right_click (1, 1)%nat;
   left_click (9, 9)%nat reverse 7 (Some "Ann")].
(** ** Persistence *)

(** What an entry is once written to its file and read back. *)
Definition reloaded (e : LeaderboardEntry) : LeaderboardEntry :=
  {| name := Some (match name e with
                   | Some n => if bool_decide (n = "") then "Anonymous" else n
                   | None => "Anonymous"
                   end);
     time := Z.min (time e) 999 |}.

(** A leaderboard as [load_leaderboards] leaves it. *)
Definition canonical (l : list LeaderboardEntry) : Prop :=
  sorted_by_time l ∧ (length l ≤ 5)%nat
  ∧ ∀ e, e ∈ l → 1 ≤ time e ≤ 999 ∧ ∃ n, name e = Some n ∧ n ≠ "".

(** The file an attempt to write [rows] leaves, [old] being the file
    before the attempt, if there was one. *)
Definition after_write (outcome : WriteOutcome) (rows : list (list string))
    (old : option File) : option File :=
  match outcome with
  | write_done => Some (content rows)
  | write_refused => old
  | write_broken remains => Some remains
  end.

(** A leaderboard as loading leaves it, with a tie. *)
Definition sample_entries : list LeaderboardEntry :=
  [{| name := Some "amy"; time := 40 |};
   {| name := Some "Anonymous"; time := 40 |};
   {| name := Some "cat"; time := 999 |}].

(** ** The leaderboard window and the custom field dialog *)

(** [LeaderboardWindow.reset_leaderboards].  [confirmed] is the answer
    to the question it asks and [removed] tells for which files
    [os.remove] succeeds; a failure is printed and otherwise ignored. *)
Definition reset_leaderboards (confirmed : bool) (removed : string → bool)
    (s : Minesweeper) : Minesweeper :=
  if negb confirmed then s else
  let s :=
    set_leaderboards
      {[ "beginner" := []; "intermediate" := []; "expert" := [] ]} s in
  let s :=
    set_files
      (foldl (λ fs difficulty,
                if removed (filename difficulty)
                then delete (filename difficulty) fs else fs)
         (files s) ["beginner"; "intermediate"; "expert"])
      s in
  emit (ev_message "Reset Scores") s.

(** What the OK button of the custom field dialog leaves: a new game,
    or the text of the status label. *)
Inductive Applied :=
  | settings_applied (s : Minesweeper)
  | settings_refused (status : string).

Section Dialog.

Variable py_int : string → option Z.

(** [apply_settings] with the three entry fields as they read when OK
    is pressed.  A [ValueError] of [int] ends in the last status
    text. *)
Definition apply_settings (width_text height_text mines_text : string)
    (s : Minesweeper) : option Applied :=
  match py_int width_text with
  | None => Some (settings_refused "Please enter valid numbers!")
  | Some width =>
      match py_int height_text with
      | None => Some (settings_refused "Please enter valid numbers!")
      | Some height =>
          match py_int mines_text with
          | None => Some (settings_refused "Please enter valid numbers!")
          | Some mines =>
              if bool_decide (mines < 0)
              then Some (settings_refused "Please enter valid value")
              else if bool_decide (mines >= width * height)
              then Some (settings_refused
                           "Too many mines for this grid size!")
              else settings_applied <$> set_difficulty (height, width, mines) s
          end
      end
  end.

End Dialog.

(** * Properties *)

(** ** Loops *)

Lemma for_each_app {A S} (xs ys : list A) (body : A → S → option S) s :
  for_each (xs ++ ys) body s = for_each xs body s ≫= for_each ys body.
Proof.
  revert s. induction xs as [|x xs IH]; intros s; simpl; [done|].
  destruct (body x s) as [s'|]; simpl; [apply IH|done].
Qed.

(** Nested loops visit the pairs of the product in row-major order. *)
Lemma for_each_nested {A B S} (xs : list A) (ys : list B)
    (body : A → B → S → option S) s :
  for_each xs (λ x, for_each ys (body x)) s
  = for_each (cprod xs ys) (λ p, body p.1 p.2) s.
Proof.
  revert s. induction xs as [|x xs IH]; intros s; [done|].
  change (cprod (x :: xs) ys) with (((x,.) <$> ys) ++ cprod xs ys).
  rewrite for_each_app. simpl.
  assert (Hrow : ∀ s0, for_each ys (body x) s0
                 = for_each ((x,.) <$> ys) (λ p, body p.1 p.2) s0).
  { clear. induction ys as [|y ys IHy]; intros s0; simpl; [done|].
    destruct (body x y s0); simpl; auto. }
  rewrite <- Hrow. destruct (for_each ys (body x) s); simpl; auto.
Qed.

(** Loop invariants indexed by the part of the list already visited. *)
Lemma for_each_invariant {A S} (I : list A → S → Prop) (xs : list A)
    (body : A → S → option S) s :
  I [] s →
  (∀ visited x rest s0, xs = visited ++ x :: rest → I visited s0 →
     ∃ s1, body x s0 = Some s1 ∧ I (visited ++ [x]) s1) →
  ∃ s', for_each xs body s = Some s' ∧ I xs s'.
Proof.
  intros Hinit Hstep.
  assert (Hgen : ∀ rest visited s0, xs = visited ++ rest → I visited s0 →
            ∃ s', for_each rest body s0 = Some s' ∧ I (visited ++ rest) s').
  { induction rest as [|x rest IH]; intros visited s0 Heq Hv.
    - exists s0. by rewrite app_nil_r.
    - destruct (Hstep visited x rest s0 Heq Hv) as (s1 & Hb & Hv1).
      destruct (IH (visited ++ [x]) s1) as (s' & Hs' & HI).
      { by rewrite <- app_assoc. } { done. }
      exists s'. simpl. rewrite Hb. simpl. split; [done|].
      by rewrite <- app_assoc in HI. }
  apply (Hgen xs [] s); done.
Qed.

(** ** Subscripts and ranges *)

Lemma elem_of_range a b x : x ∈ range a b ↔ a ≤ x < b.
Proof. unfold range. rewrite elem_of_seqZ. lia. Qed.

Lemma NoDup_range a b : NoDup (range a b).
Proof. apply NoDup_seqZ. Qed.

Lemma py_index_in_range {A} (l : list A) i :
  0 ≤ i < Z.of_nat (length l) → py_index l i = Some (Z.to_nat i).
Proof. intros H. unfold py_index. by rewrite bool_decide_eq_true_2. Qed.

Lemma elem_of_interior height width i j :
  (i, j) ∈ interior height width ↔ 1 ≤ i ≤ height ∧ 1 ≤ j ≤ width.
Proof.
  unfold interior. rewrite list_elem_of_cprod, !elem_of_range. simpl. lia.
Qed.

Lemma NoDup_cprod {A B} (l : list A) (k : list B) :
  NoDup l → NoDup k → NoDup (cprod l k).
Proof.
  intros Hl Hk. induction Hl as [|x l Hx Hl IH]; [constructor|].
  change (cprod (x :: l) k) with (((x,.) <$> k) ++ cprod l k).
  apply NoDup_app. split_and!.
  - apply NoDup_fmap_2; [|done]. by intros ?? [=].
  - intros [a b]. rewrite list_elem_of_fmap, list_elem_of_cprod. simpl.
    intros (y & [= -> ->] & _) [? _]. done.
  - done.
Qed.

Lemma NoDup_interior height width : NoDup (interior height width).
Proof. apply NoDup_cprod; apply NoDup_range. Qed.

(** ** The grid as a store *)

Lemma deref_assign_eq f p buttons :
  deref (assign f p buttons) p = f <$> deref buttons p.
Proof.
  unfold deref, assign. rewrite list_lookup_alter_eq.
  destruct (buttons !! p.1) as [rw|]; simpl; [|done].
  apply list_lookup_alter_eq.
Qed.

Lemma deref_assign_ne f p q buttons :
  p ≠ q → deref (assign f p buttons) q = deref buttons q.
Proof.
  intros Hne. unfold deref, assign.
  destruct (decide (p.1 = q.1)) as [Heq|Hr].
  - rewrite <- Heq, list_lookup_alter_eq.
    destruct (buttons !! p.1) as [rw|]; simpl; [|done].
    apply list_lookup_alter_ne. intros Hc. apply Hne.
    destruct p, q; simpl in *; congruence.
  - by rewrite list_lookup_alter_ne.
Qed.

Lemma deref_assign f p q buttons :
  deref (assign f p buttons) q
  = if decide (p = q) then f <$> deref buttons q else deref buttons q.
Proof.
  case_decide as H; [subst; apply deref_assign_eq|by apply deref_assign_ne].
Qed.

Lemma grid_ok_assign height width f p buttons :
  keeps_pos f → grid_ok height width buttons →
  grid_ok height width (assign f p buttons).
Proof.
  intros Hf [Hr Hc Hp]. split.
  - unfold assign. by rewrite length_alter.
  - intros r rw. unfold assign. rewrite list_lookup_alter.
    case_decide; [|apply Hc].
    destruct (buttons !! p.1) as [rw0|] eqn:E; simpl; [|done].
    intros [= <-]. rewrite length_alter. subst. eauto.
  - intros q btn. rewrite deref_assign. case_decide; [|apply Hp].
    destruct (deref buttons q) as [btn0|] eqn:E; simpl; [|done].
    intros [= <-]. destruct (Hf btn0) as [-> ->]. auto.
Qed.

(** In a well-formed grid [self.buttons[i][j]] is the object at place
    [(i, j)] whenever the subscripts are within the bordered grid. *)
Lemma button_ref_ok height width buttons i j :
  grid_ok height width buttons →
  0 ≤ i < height + 2 → 0 ≤ j < width + 2 →
  button_ref buttons i j = Some (at_pos i j) ∧
  ∃ btn, deref buttons (at_pos i j) = Some btn ∧ row btn = i ∧ col btn = j.
Proof.
  intros [Hr Hc Hp] Hi Hj. unfold button_ref.
  rewrite py_index_in_range by lia. simpl.
  destruct (lookup_lt_is_Some_2 buttons (Z.to_nat i)) as [rw Hrw]; [lia|].
  rewrite Hrw. simpl. pose proof (Hc _ _ Hrw) as Hlen.
  rewrite py_index_in_range by lia. simpl. split; [done|].
  destruct (lookup_lt_is_Some_2 rw (Z.to_nat j)) as [btn Hbtn]; [lia|].
  assert (Hd : deref buttons (at_pos i j) = Some btn).
  { unfold deref, at_pos. simpl. by rewrite Hrw. }
  exists btn. split; [done|]. destruct (Hp _ _ Hd) as [-> ->].
  unfold at_pos. simpl. lia.
Qed.

Lemma cell_ok height width buttons i j :
  grid_ok height width buttons →
  0 ≤ i < height + 2 → 0 ≤ j < width + 2 →
  cell buttons i j = deref buttons (at_pos i j) ∧
  ∃ btn, cell buttons i j = Some btn ∧ row btn = i ∧ col btn = j.
Proof.
  intros Hok Hi Hj.
  destruct (button_ref_ok _ _ _ _ _ Hok Hi Hj) as (Href & btn & Hd & Hrc).
  unfold cell. rewrite Href. simpl. split; [done|]. by exists btn.
Qed.

Lemma at_pos_inj i j i' j' :
  0 ≤ i → 0 ≤ j → 0 ≤ i' → 0 ≤ j' →
  at_pos i j = at_pos i' j' → i = i' ∧ j = j'.
Proof. unfold at_pos. intros ???? [= H1 H2]. lia. Qed.

(** ** Passes over the interior *)

(** The rule of a [for] loop over a range. *)
Lemma for_range_invariant {St} (I : Z → St → Prop) a b
    (body : Z → St → option St) s :
  a ≤ b → I a s →
  (∀ i s0, a ≤ i < b → I i s0 → ∃ s1, body i s0 = Some s1 ∧ I (i + 1) s1) →
  ∃ s', for_each (range a b) body s = Some s' ∧ I b s'.
Proof.
  intros Hab Hinit Hstep. unfold range.
  assert (Hgen : ∀ n i s0, 0 ≤ i - a → i + Z.of_nat n = b → I i s0 →
            ∃ s', for_each (seqZ i (Z.of_nat n)) body s0 = Some s' ∧ I b s').
  { induction n as [|n IH]; intros i s0 Hi Hn HI.
    - exists s0. simpl. split; [done|]. by replace b with i by lia.
    - rewrite seqZ_cons by lia. simpl.
      destruct (Hstep i s0) as (s1 & -> & HI1); [lia|done|]. simpl.
      replace (Z.pred (Z.of_nat (S n))) with (Z.of_nat n) by lia.
      apply IH; [lia|lia|]. by replace (Z.succ i) with (i + 1) by lia. }
  destruct (Hgen (Z.to_nat (b - a)) a s) as (s' & Hs' & HI); [lia|lia|done|].
  exists s'. split; [|done]. by rewrite Z2Nat.id in Hs' by lia.
Qed.

(** The rule of the two nested loops over the interior: [I i j] holds
    when the loops are about to visit row [i], column [j]. *)
Lemma for_interior_invariant {St} (I : Z → Z → St → Prop) height width
    (body : Z → Z → St → option St) s :
  0 ≤ height → 0 ≤ width →
  I 1 1 s →
  (∀ i j s0, 1 ≤ i ≤ height → 1 ≤ j ≤ width → I i j s0 →
     ∃ s1, body i j s0 = Some s1 ∧ I i (j + 1) s1) →
  (∀ i s0, 1 ≤ i ≤ height → I i (width + 1) s0 → I (i + 1) 1 s0) →
  ∃ s', for_each (range 1 (height + 1))
          (λ i, for_each (range 1 (width + 1)) (body i)) s = Some s'
        ∧ I (height + 1) 1 s'.
Proof.
  intros Hh Hw Hinit Hcell Hrow.
  apply (for_range_invariant (λ i, I i 1)); [lia|done|].
  intros i s0 Hi HI.
  destruct (for_range_invariant (I i) 1 (width + 1) (body i) s0)
    as (s1 & Hs1 & HI1); [lia|done| |].
  - intros j s2 Hj HI2. apply Hcell; [lia|lia|done].
  - exists s1. split; [done|]. apply Hrow; [lia|done].
Qed.

Lemma keeps_pos_id : keeps_pos id.
Proof. by intros btn. Qed.

Lemma swept_init height width g start :
  grid_ok height width start → swept height width g start 1 1 start.
Proof.
  intros Hok. split; [done|]. intros q.
  rewrite decide_False; [by rewrite option_fmap_id|].
  unfold is_interior, before. lia.
Qed.

Lemma swept_step height width g start i j buttons :
  (∀ q, keeps_pos (g q)) →
  1 ≤ i ≤ height → 1 ≤ j ≤ width →
  swept height width g start i j buttons →
  swept height width g start i (j + 1)
    (assign (g (at_pos i j)) (at_pos i j) buttons).
Proof.
  intros Hg Hi Hj [Hok Hq]. split; [by apply grid_ok_assign|].
  intros q. rewrite deref_assign, Hq. case_decide as Heq.
  - subst q. rewrite decide_False, decide_True.
    + by rewrite option_fmap_id.
    + unfold is_interior, before, at_pos. simpl. lia.
    + unfold is_interior, before, at_pos. simpl. lia.
  - assert (Hiff : is_interior height width q ∧ before i j q
                   ↔ is_interior height width q ∧ before i (j + 1) q).
    { unfold is_interior, before. split; intros [Hin Hb]; (split; [done|]).
      - lia.
      - destruct Hb as [?|[? ?]]; [lia|].
        destruct (decide (Z.of_nat q.2 = j)); [|lia].
        exfalso. apply Heq. unfold at_pos. destruct q; simpl in *.
        f_equal; lia. }
    destruct (decide (is_interior height width q ∧ before i j q));
      [rewrite decide_True by tauto|rewrite decide_False by tauto]; done.
Qed.

Lemma swept_next_row height width g start i buttons :
  swept height width g start i (width + 1) buttons →
  swept height width g start (i + 1) 1 buttons.
Proof.
  intros [Hok Hq]. split; [done|]. intros q. rewrite Hq.
  assert (Hiff : is_interior height width q ∧ before i (width + 1) q
                 ↔ is_interior height width q ∧ before (i + 1) 1 q).
  { unfold is_interior, before. lia. }
  destruct (decide (is_interior height width q ∧ before i (width + 1) q));
    [rewrite decide_True by tauto|rewrite decide_False by tauto]; done.
Qed.

Lemma swept_final height width g start buttons :
  swept height width g start (height + 1) 1 buttons →
  grid_ok height width buttons ∧
  ∀ q, deref buttons q
       = (if decide (is_interior height width q) then g q else id)
           <$> deref start q.
Proof.
  intros [Hok Hq]. split; [done|]. intros q. rewrite Hq.
  destruct (decide (is_interior height width q)) as [Hin|Hout].
  - rewrite decide_True; [done|]. split; [done|].
    unfold is_interior, before in *. lia.
  - rewrite decide_False; [done|]. tauto.
Qed.

(** A pass whose body assigns [g q] to each interior cell [q] in turn. *)
Lemma sweep_loop height width g (body : Z → Z → Grid → option Grid) start :
  0 ≤ height → 0 ≤ width →
  grid_ok height width start →
  (∀ q, keeps_pos (g q)) →
  (∀ i j buttons, 1 ≤ i ≤ height → 1 ≤ j ≤ width →
     swept height width g start i j buttons →
     body i j buttons
     = Some (assign (g (at_pos i j)) (at_pos i j) buttons)) →
  ∃ buttons,
    for_each (range 1 (height + 1))
      (λ i, for_each (range 1 (width + 1)) (body i)) start = Some buttons
    ∧ grid_ok height width buttons
    ∧ ∀ q, deref buttons q
           = (if decide (is_interior height width q) then g q else id)
               <$> deref start q.
Proof.
  intros Hh Hw Hok Hg Hbody.
  destruct (for_interior_invariant (swept height width g start)
              height width body start) as (b' & Hb' & Hfin); try done.
  - by apply swept_init.
  - intros i j b0 Hi Hj Hsw. rewrite (Hbody i j b0 Hi Hj Hsw).
    eexists. split; [done|]. by apply swept_step.
  - intros i b0 _. apply swept_next_row.
  - exists b'. split; [done|]. by apply swept_final.
Qed.

(** ** Grid construction *)

Lemma deref_create_game_grid height width q :
  deref (create_game_grid height width) q
  = if decide (Z.of_nat q.1 < height + 2 ∧ Z.of_nat q.2 < width + 2)
    then Some (new_button (Z.of_nat q.1) (Z.of_nat q.2)) else None.
Proof.
  unfold deref, create_game_grid, range.
  rewrite list_lookup_fmap. rewrite !Z.sub_0_r.
  destruct (decide (Z.of_nat q.1 < height + 2)) as [Hr|Hr].
  - rewrite lookup_seqZ_lt by done. simpl. rewrite list_lookup_fmap.
    destruct (decide (Z.of_nat q.2 < width + 2)) as [Hc|Hc].
    + rewrite lookup_seqZ_lt by done. simpl. by rewrite decide_True.
    + rewrite lookup_seqZ_ge by lia. simpl. rewrite decide_False; [done|lia].
  - rewrite lookup_seqZ_ge by lia. simpl. rewrite decide_False; [done|lia].
Qed.

Lemma create_game_grid_ok height width :
  0 ≤ height → 0 ≤ width →
  grid_ok height width (create_game_grid height width).
Proof.
  intros Hh Hw. split.
  - unfold create_game_grid, range. rewrite length_fmap, length_seqZ. lia.
  - intros r rw. unfold create_game_grid. rewrite list_lookup_fmap.
    destruct (range 0 (height + 2) !! r); simpl; [|done].
    intros [= <-]. unfold range. rewrite length_fmap, length_seqZ. lia.
  - intros p btn. rewrite deref_create_game_grid.
    case_decide; [|done]. by intros [= <-].
Qed.

Lemma keeps_pos_set_number n : keeps_pos (set_number n).
Proof. by intros btn. Qed.

Lemma keeps_pos_set_is_mine v : keeps_pos (set_is_mine v).
Proof. by intros btn. Qed.

Lemma keeps_pos_set_adjacent_mines n : keeps_pos (set_adjacent_mines n).
Proof. by intros btn. Qed.

Lemma keeps_pos_set_is_open v : keeps_pos (set_is_open v).
Proof. by intros btn. Qed.

Lemma keeps_pos_config_state v : keeps_pos (config_state v).
Proof. by intros btn. Qed.

Lemma keeps_pos_config_text v : keeps_pos (config_text v).
Proof. by intros btn. Qed.

Create HintDb keeps discriminated.

#[local] Hint Resolve keeps_pos_id keeps_pos_set_number keeps_pos_set_is_mine
  keeps_pos_set_adjacent_mines keeps_pos_set_is_open keeps_pos_config_state
  keeps_pos_config_text : keeps.

Lemma at_pos_of_nat (q : Ref) : at_pos (Z.of_nat q.1) (Z.of_nat q.2) = q.
Proof. unfold at_pos. destruct q; simpl. by rewrite !Nat2Z.id. Qed.

Lemma is_interior_at_pos height width i j :
  0 ≤ i → 0 ≤ j →
  is_interior height width (at_pos i j) ↔ 1 ≤ i ≤ height ∧ 1 ≤ j ≤ width.
Proof. unfold is_interior, at_pos. simpl. lia. Qed.

(** The numbering loop gives the interior cell at [q] the number
    [sequential_index width q] and touches nothing else. *)
Lemma number_cells_spec height width start :
  0 ≤ height → 0 ≤ width → grid_ok height width start →
  ∃ buttons,
    number_cells height width start = Some buttons
    ∧ grid_ok height width buttons
    ∧ ∀ q, deref buttons q
           = (if decide (is_interior height width q)
              then set_number (sequential_index width q) else id)
               <$> deref start q.
Proof.
  intros Hh Hw Hok. unfold number_cells.
  set (g := λ q : Ref, set_number (sequential_index width q)).
  destruct (for_interior_invariant
              (λ i j (st : Z * Grid),
                 st.1 = (i - 1) * width + j
                 ∧ swept height width g start i j st.2)
              height width
              (λ i j '(count, buttons),
                 p ← button_ref buttons i j;
                 Some (count + 1, assign (set_number count) p buttons))
              (1, start)) as ([count b'] & Hrun & Hcount & Hsw); try done.
  - simpl. split; [lia|]. by apply swept_init.
  - intros i j [count b0] Hi Hj [Hc Hsw]. simpl in *.
    destruct Hsw as [Hok0 Hq0].
    destruct (button_ref_ok _ _ _ i j Hok0) as (-> & _); [lia|lia|].
    simpl. eexists. split; [done|]. simpl. split; [lia|].
    replace (set_number count) with (g (at_pos i j)).
    + apply swept_step; [auto with keeps|done|done|].
      by split.
    + unfold g, sequential_index, at_pos. simpl. f_equal. lia.
  - intros i [count b0] Hi [Hc Hsw]. simpl in *. split; [lia|].
    by apply swept_next_row.
  - exists b'. rewrite Hrun. simpl. split; [done|].
    by apply swept_final in Hsw.
Qed.

Lemma setup_grid_spec height width :
  0 ≤ height → 0 ≤ width →
  ∃ buttons,
    setup_grid height width = Some buttons
    ∧ grid_ok height width buttons
    ∧ ∀ q btn, deref buttons q = Some btn →
        btn = (if decide (is_interior height width q)
               then set_number (sequential_index width q) else id)
                (new_button (Z.of_nat q.1) (Z.of_nat q.2)).
Proof.
  intros Hh Hw.
  destruct (number_cells_spec height width (create_game_grid height width))
    as (b & Hb & Hok & Hq); [done|done|by apply create_game_grid_ok|].
  exists b. split; [done|]. split; [done|].
  intros q btn. rewrite Hq, deref_create_game_grid.
  destruct (decide (Z.of_nat q.1 < height + 2 ∧ Z.of_nat q.2 < width + 2));
    simpl; [|done].
  by intros [= <-].
Qed.

Lemma setup_grid_unmined height width :
  0 ≤ height → 0 ≤ width →
  ∃ buttons, setup_grid height width = Some buttons
             ∧ unmined height width buttons.
Proof.
  intros Hh Hw.
  destruct (setup_grid_spec height width Hh Hw) as (b & Hb & Hok & Hq).
  exists b. split; [done|]. split; [done|]. intros q btn Hd.
  rewrite (Hq q btn Hd). case_decide; simpl; [|done]. done.
Qed.

(** ** Mine placement *)

Lemma assign_ext f g p buttons btn :
  deref buttons p = Some btn → f btn = g btn →
  assign f p buttons = assign g p buttons.
Proof.
  unfold deref, assign. intros Hd Hf.
  destruct (buttons !! p.1) as [rw|] eqn:Hrw; simpl in Hd; [|done].
  apply list_alter_ext; [|done]. intros rw' Hrw'.
  apply list_alter_ext; [|done]. intros c Hc. congruence.
Qed.

Lemma assign_id f p buttons btn :
  deref buttons p = Some btn → f btn = btn → assign f p buttons = buttons.
Proof.
  intros Hd Hf. rewrite (assign_ext f id p buttons btn Hd Hf).
  unfold assign. rewrite list_alter_id; [done|].
  intros rw. by apply list_alter_id.
Qed.

Lemma list_remove_spec x l l' :
  list_remove x l = Some l' → l ≡ₚ x :: l'.
Proof.
  revert l'. induction l as [|y l IH]; intros l'; simpl; [done|].
  case_bool_decide as Hy.
  - intros [= <-]. by subst.
  - destruct (list_remove x l) as [l0|]; simpl; [|done].
    intros [= <-]. rewrite (IH l0 eq_refl). apply Permutation_swap.
Qed.

Lemma list_remove_is_Some x l : x ∈ l → is_Some (list_remove x l).
Proof.
  induction l as [|y l IH]; simpl.
  - by intros ?%elem_of_nil.
  - intros Hx. case_bool_decide as Hy; [by eexists|].
    apply elem_of_cons in Hx as [->|Hx]; [done|].
    destruct (IH Hx) as [l' ->]. by eexists.
Qed.

(** The indices [get_mines_places] returns on a valid configuration:
    [mines] distinct sequential indices, none of them the excluded one. *)
Lemma get_mines_places_spec shuffle height width mines exclude :
  0 ≤ mines < height * width → 1 ≤ exclude ≤ height * width →
  (∀ l, shuffle l ≡ₚ l) →
  ∃ index_mines,
    get_mines_places shuffle height width mines exclude = Some index_mines
    ∧ NoDup index_mines
    ∧ Z.of_nat (length index_mines) = mines
    ∧ (exclude ∉ index_mines)
    ∧ ∀ n, n ∈ index_mines → 1 ≤ n ≤ height * width.
Proof.
  intros Hm Hx Hsh. unfold get_mines_places.
  destruct (list_remove_is_Some exclude (range 1 (width * height + 1)))
    as [indexes Hrm].
  { apply elem_of_range. lia. }
  rewrite Hrm. simpl. eexists. split; [done|].
  pose proof (list_remove_spec _ _ _ Hrm) as Hperm.
  assert (Hnd : NoDup (exclude :: indexes)).
  { rewrite <- Hperm. apply NoDup_range. }
  apply NoDup_cons in Hnd as [Hnotin Hnd].
  assert (Hlen : Z.of_nat (length indexes) = height * width - 1).
  { apply Permutation_length in Hperm. simpl in Hperm.
    unfold range in Hperm. rewrite length_seqZ in Hperm. lia. }
  unfold slice_prefix. rewrite bool_decide_eq_true_2 by lia.
  assert (Hsub : ∀ n, n ∈ take (Z.to_nat mines) (shuffle indexes) →
                      n ∈ indexes).
  { intros n Hn. apply subseteq_take in Hn. by rewrite Hsh in Hn. }
  split_and!.
  - eapply sublist_NoDup; [|apply sublist_take]. by rewrite Hsh.
  - rewrite length_take_le; [lia|]. rewrite Hsh. lia.
  - intros Hin. apply Hnotin. by apply Hsub.
  - intros n Hn. apply Hsub in Hn.
    assert (Hr : n ∈ range 1 (width * height + 1)).
    { rewrite Hperm. by apply elem_of_cons; right. }
    apply elem_of_range in Hr. lia.
Qed.

Lemma keeps_pos_mark_mine index_mines : keeps_pos (mark_mine index_mines).
Proof. intros btn. unfold mark_mine. by case_bool_decide. Qed.

(** [place_mines] applies [mark_mine] to every interior cell. *)
Lemma place_mines_spec shuffle height width mines exclude start index_mines :
  0 ≤ height → 0 ≤ width → grid_ok height width start →
  get_mines_places shuffle height width mines exclude = Some index_mines →
  ∃ buttons,
    place_mines shuffle height width mines exclude start = Some buttons
    ∧ grid_ok height width buttons
    ∧ ∀ q, deref buttons q
           = (if decide (is_interior height width q)
              then mark_mine index_mines else id) <$> deref start q.
Proof.
  intros Hh Hw Hok Hget. unfold place_mines. rewrite Hget. simpl.
  apply (sweep_loop height width (λ _, mark_mine index_mines)); try done.
  - intros _. apply keeps_pos_mark_mine.
  - intros i j b Hi Hj [Hokb Hq].
    destruct (button_ref_ok _ _ _ i j Hokb) as (-> & btn & Hd & _);
      [lia|lia|].
    simpl. rewrite Hd. simpl. case_bool_decide as Hin.
    + f_equal. apply (assign_ext _ _ _ _ btn Hd).
      unfold mark_mine. by rewrite bool_decide_eq_true_2.
    + symmetry. f_equal. eapply assign_id; [done|].
      unfold mark_mine. by rewrite bool_decide_eq_false_2.
Qed.

(** ** Counting the interior cells *)

Lemma fmap_omap_total {A B C} (f : A → option B) (g : B → C) (h : A → C)
    (l : list A) :
  (∀ x, x ∈ l → ∃ y, f x = Some y ∧ g y = h x) →
  g <$> omap f l = h <$> l.
Proof.
  induction l as [|x l IH]; intros Hall; simpl; [done|].
  destruct (Hall x) as (y & Hfx & Hy); [by left|].
  rewrite Hfx. simpl. rewrite Hy. f_equal.
  apply IH. intros x' Hx'. apply Hall. by right.
Qed.

Lemma filter_fmap_iff {A B} (f : A → B) (P : A → Prop) (Q : B → Prop)
    `{∀ x, Decision (P x)} `{∀ y, Decision (Q y)} (l : list A) :
  (∀ x, x ∈ l → P x ↔ Q (f x)) →
  f <$> filter P l = filter Q (f <$> l).
Proof.
  induction l as [|x l IH]; intros HPQ; [done|].
  rewrite fmap_cons, !filter_cons.
  assert (Hl : f <$> filter P l = filter Q (f <$> l)).
  { apply IH. intros y Hy. apply HPQ. by right. }
  destruct (decide (P x)) as [HP|HP]; destruct (decide (Q (f x))) as [HQ|HQ].
  - by rewrite fmap_cons, Hl.
  - exfalso. apply HQ, HPQ; [by left|done].
  - exfalso. apply HP, HPQ; [by left|done].
  - done.
Qed.

Lemma filter_ext_in {A} (P Q : A → Prop) `{∀ x, Decision (P x)}
    `{∀ x, Decision (Q x)} (l : list A) :
  (∀ x, x ∈ l → P x ↔ Q x) → filter P l = filter Q l.
Proof.
  intros HPQ. rewrite <- (list_fmap_id (filter P l)).
  rewrite <- (list_fmap_id l) at 2. by apply filter_fmap_iff.
Qed.

Lemma filter_elem_of_perm (l M : list Z) :
  NoDup l → NoDup M → (∀ n, n ∈ M → n ∈ l) →
  filter (λ n, n ∈ M) l ≡ₚ M.
Proof.
  intros Hl HM Hsub. apply NoDup_Permutation; [by apply NoDup_filter|done|].
  intros n. rewrite list_elem_of_filter.
  split; [by intros [? ?]|]. intros Hn. split; [done|by apply Hsub].
Qed.

Lemma interior_succ height width :
  0 ≤ height →
  interior (height + 1) width
  = interior height width ++ ((height + 1,.) <$> range 1 (width + 1)).
Proof.
  intros Hh. unfold interior, range.
  replace (height + 1 + 1 - 1) with (height + 1) by lia.
  replace (height + 1 - 1) with height by lia.
  rewrite (seqZ_app 1 height 1) by lia.
  unfold cprod, list_cprod. rewrite bind_app. f_equal.
  simpl. rewrite app_nil_r. do 2 f_equal. lia.
Qed.

(** In row-major order the interior positions carry the sequential
    indices [1, 2, ..., height * width]. *)
Lemma numbers_interior height width :
  0 ≤ height → 0 ≤ width →
  (λ p : Z * Z, (p.1 - 1) * width + p.2) <$> interior height width
  = range 1 (height * width + 1).
Proof.
  intros Hh Hw. rewrite <- (Z2Nat.id height) by done.
  induction (Z.to_nat height) as [|n IH].
  - simpl. unfold interior, range. simpl. done.
  - replace (Z.of_nat (S n)) with (Z.of_nat n + 1) by lia.
    rewrite interior_succ by lia. rewrite fmap_app, IH.
    rewrite <- list_fmap_compose. unfold range.
    replace ((Z.of_nat n + 1) * width + 1 - 1)
      with (Z.of_nat n * width + width) by lia.
    rewrite (seqZ_app 1 (Z.of_nat n * width) width) by lia.
    replace (Z.of_nat n * width + 1 - 1) with (Z.of_nat n * width) by lia.
    f_equal. replace (width + 1 - 1) with width by lia.
    replace (1 + Z.of_nat n * width) with (Z.of_nat n * width + 1) by lia.
    rewrite <- (fmap_add_seqZ (Z.of_nat n * width) 1 width).
    apply list_fmap_ext. intros _ j _. simpl. lia.
Qed.

Lemma interior_cells_deref height width buttons :
  grid_ok height width buttons →
  interior_cells height width buttons
  = omap (λ p, deref buttons (at_pos p.1 p.2)) (interior height width).
Proof.
  intros Hok. unfold interior_cells. apply list_omap_ext.
  apply Forall2_same_length_lookup. split; [done|].
  intros k p p' Hp Hp'. assert (p' = p) as -> by congruence.
  destruct p as [i j]. apply list_elem_of_lookup_2 in Hp.
  apply elem_of_interior in Hp. simpl.
  apply (cell_ok _ _ _ i j Hok); lia.
Qed.

Lemma interior_cells_total height width buttons (h : Z * Z → Z)
    (g : FieldButton → Z) :
  grid_ok height width buttons →
  (∀ q btn, is_interior height width q → deref buttons q = Some btn →
     g btn = h (Z.of_nat q.1, Z.of_nat q.2)) →
  g <$> interior_cells height width buttons = h <$> interior height width.
Proof.
  intros Hok Hg. rewrite interior_cells_deref by done.
  apply fmap_omap_total. intros [i j] Hp. apply elem_of_interior in Hp.
  simpl. destruct (button_ref_ok _ _ _ i j Hok) as (_ & btn & Hd & _);
    [lia|lia|].
  exists btn. split; [done|].
  rewrite (Hg (at_pos i j) btn); [|by apply is_interior_at_pos; lia|done].
  unfold at_pos. simpl. f_equal. f_equal; lia.
Qed.

Lemma omap_fmap_pointwise {A B} (f f' : A → option B) (g : B → B)
    (l : list A) :
  (∀ x, x ∈ l → f' x = g <$> f x) → omap f' l = g <$> omap f l.
Proof.
  induction l as [|x l IH]; intros Hall; [done|].
  assert (IH' : omap f' l = g <$> omap f l).
  { apply IH. intros x' Hx'. apply Hall. by right. }
  simpl. rewrite (Hall x) by (by left).
  destruct (f x); simpl; [f_equal|]; exact IH'.
Qed.

Lemma interior_cells_fmap height width (g : FieldButton → FieldButton)
    start buttons :
  grid_ok height width start →
  grid_ok height width buttons →
  (∀ q, is_interior height width q →
     deref buttons q = g <$> deref start q) →
  interior_cells height width buttons
  = g <$> interior_cells height width start.
Proof.
  intros Hok Hok' Hq. rewrite !interior_cells_deref by done.
  apply omap_fmap_pointwise. intros [i j] Hp. simpl.
  apply elem_of_interior in Hp. apply Hq, is_interior_at_pos; lia.
Qed.

Lemma unmined_numbers height width buttons :
  0 ≤ height → 0 ≤ width → unmined height width buttons →
  number <$> interior_cells height width buttons
  = range 1 (height * width + 1).
Proof.
  intros Hh Hw [Hok Hq]. rewrite <- numbers_interior by done.
  apply interior_cells_total; [done|].
  intros q btn Hin Hd. destruct (Hq q btn Hd) as [_ Hn].
  by rewrite Hn.
Qed.

(** On a well-formed grid [interior_cells] lists every interior cell
    once. *)
Lemma length_interior_cells height width buttons :
  0 ≤ height → 0 ≤ width → grid_ok height width buttons →
  length (interior_cells height width buttons) = Z.to_nat (height * width).
Proof.
  intros Hh Hw Hok.
  rewrite <- (length_fmap (λ _ : FieldButton, 0)).
  rewrite (interior_cells_total height width buttons (λ _, 0)) by done.
  rewrite length_fmap.
  rewrite <- (length_fmap (λ p : Z * Z, (p.1 - 1) * width + p.2)).
  rewrite numbers_interior by done. unfold range. rewrite length_seqZ. lia.
Qed.

(** C1.  On a valid configuration, with any outcome of the shuffle and
    any excluded (first clicked) sequential index, [place_mines] succeeds
    on a grid without mines and leaves exactly [mines] interior cells
    with [is_mine] set; they carry pairwise distinct sequential indices,
    and no cell numbered with the excluded index is one of them.  The
    interior cells are numbered [1 .. height * width] throughout. *)
Theorem place_mines_exact (shuffle : list Z → list Z)
    (height width mines exclude : Z) (start : Grid) :
  1 ≤ height → 1 ≤ width →
  0 ≤ mines < height * width →
  1 ≤ exclude ≤ height * width →
  (∀ l, shuffle l ≡ₚ l) →
  unmined height width start →
  ∃ buttons,
    place_mines shuffle height width mines exclude start = Some buttons
    ∧ number <$> interior_cells height width buttons
      = range 1 (height * width + 1)
    ∧ Z.of_nat (length (mine_cells height width buttons)) = mines
    ∧ NoDup (number <$> mine_cells height width buttons)
    ∧ ∀ btn, btn ∈ interior_cells height width buttons →
        number btn = exclude → is_mine btn = false.
Proof.
  intros Hh Hw Hm Hx Hsh Hun.
  destruct (get_mines_places_spec shuffle height width mines exclude)
    as (M & Hget & HndM & HlenM & HxM & HrM); [done..|].
  pose proof Hun as [Hok Hq0].
  destruct (place_mines_spec shuffle height width mines exclude start M)
    as (b & Hb & Hokb & Hqb); [lia|lia|done|done|].
  exists b. split; [done|].
  assert (Hcells : interior_cells height width b
                   = mark_mine M <$> interior_cells height width start).
  { apply interior_cells_fmap; [done|done|].
    intros q Hin. by rewrite Hqb, decide_True. }
  assert (Hnum : number <$> interior_cells height width b
                 = range 1 (height * width + 1)).
  { rewrite Hcells, <- list_fmap_compose.
    rewrite <- (unmined_numbers height width start) by (done || lia).
    apply list_fmap_ext. intros _ btn _. simpl. unfold mark_mine.
    by case_bool_decide. }
  assert (Hmine : ∀ btn, btn ∈ interior_cells height width b →
                    is_mine btn = true ↔ number btn ∈ M).
  { intros btn. rewrite Hcells. intros (btn0 & -> & Hin0)%list_elem_of_fmap.
    assert (is_mine btn0 = false) as Hnm.
    { rewrite interior_cells_deref in Hin0 by done.
      apply list_elem_of_omap in Hin0 as (p & _ & Hd).
      by destruct (Hq0 _ _ Hd). }
    unfold mark_mine. case_bool_decide; simpl; [done|].
    rewrite Hnm. split; [done|]. done. }
  assert (Hnums : number <$> mine_cells height width b
                  = filter (λ n, n ∈ M) (range 1 (height * width + 1))).
  { rewrite <- Hnum. unfold mine_cells. by apply filter_fmap_iff. }
  assert (Hperm : number <$> mine_cells height width b ≡ₚ M).
  { rewrite Hnums. apply filter_elem_of_perm; [apply NoDup_range|done|].
    intros n Hn. apply elem_of_range. specialize (HrM n Hn). lia. }
  split; [done|]. split_and!.
  - rewrite <- HlenM, <- (Permutation_length Hperm). by rewrite length_fmap.
  - by rewrite Hperm.
  - intros btn Hin Hnx. destruct (is_mine btn) eqn:E; [|done].
    exfalso. apply HxM. rewrite <- Hnx. by apply Hmine.
Qed.

(** ** Adjacency *)

Lemma count_mines_cons buttons p ps :
  count_mines buttons (p :: ps)
  = (if mine_at buttons p then 1 else 0) + count_mines buttons ps.
Proof.
  unfold count_mines. rewrite filter_cons.
  case_decide as Hp.
  - rewrite Hp. simpl. lia.
  - destruct (mine_at buttons p); [done|]. lia.
Qed.

Lemma count_mines_bounds buttons ps :
  0 ≤ count_mines buttons ps ≤ Z.of_nat (length ps).
Proof.
  unfold count_mines.
  pose proof (length_filter (λ p, mine_at buttons p = true) ps). lia.
Qed.

(** A counting loop over positions whose cells all exist. *)
Lemma count_loop buttons (ps : list (Z * Z)) (acc : Z) :
  (∀ p, p ∈ ps → is_Some (cell buttons p.1 p.2)) →
  for_each ps
    (λ p acc, neighbour ← cell buttons p.1 p.2;
              Some (if is_mine neighbour then acc + 1 else acc)) acc
  = Some (acc + count_mines buttons ps).
Proof.
  revert acc. induction ps as [|p ps IH]; intros acc Hall.
  - simpl. f_equal. unfold count_mines. simpl. lia.
  - simpl. destruct (Hall p) as [btn Hbtn]; [by left|].
    rewrite Hbtn. simpl. rewrite IH by (intros p' ?; apply Hall; by right).
    rewrite count_mines_cons. unfold mine_at. rewrite Hbtn.
    f_equal. destruct (is_mine btn); lia.
Qed.

Lemma for_each_fmap {A B St} (f : A → B) (xs : list A)
    (body : B → St → option St) s :
  for_each (f <$> xs) body s = for_each xs (λ x, body (f x)) s.
Proof.
  revert s. induction xs as [|x xs IH]; intros s; simpl; [done|].
  destruct (body (f x) s); simpl; auto.
Qed.

Lemma elem_of_offsets d : d ∈ offsets → -1 ≤ d ≤ 1.
Proof.
  unfold offsets. rewrite !elem_of_cons, elem_of_nil. lia.
Qed.

(** [count_adjacent] counts the mines of the cell and its neighbours. *)
Lemma count_adjacent_spec height width buttons i j :
  grid_ok height width buttons →
  1 ≤ i ≤ height → 1 ≤ j ≤ width →
  count_adjacent buttons i j
  = Some (mines_around buttons i j
          + (if mine_at buttons (i, j) then 1 else 0)).
Proof.
  intros Hok Hi Hj. unfold count_adjacent.
  rewrite (for_each_nested offsets offsets
             (λ row_dx col_dx adjacent_mines,
                neighbour ← cell buttons (i + row_dx) (j + col_dx);
                Some (if is_mine neighbour then adjacent_mines + 1
                      else adjacent_mines))).
  etrans.
  { symmetry.
    exact (for_each_fmap (λ d : Z * Z, (i + d.1, j + d.2))
             (cprod offsets offsets)
             (λ p acc, neighbour ← cell buttons p.1 p.2;
                       Some (if is_mine neighbour then acc + 1 else acc))
             0). }
  rewrite count_loop.
  - f_equal. unfold mines_around, neighbours8.
    change (cprod offsets offsets)
      with [(-1, -1); (-1, 0); (-1, 1); (0, -1); (0, 0); (0, 1);
            (1, -1); (1, 0); (1, 1)].
    rewrite !fmap_cons, !count_mines_cons. cbn [fst snd].
    replace (i + 0) with i by lia. replace (j + 0) with j by lia. lia.
  - intros [i' j'] Hp. simpl.
    apply list_elem_of_fmap in Hp as ([dx dy] & [= -> ->] & Hd).
    apply list_elem_of_cprod in Hd as [Hdx%elem_of_offsets Hdy%elem_of_offsets].
    simpl in *.
    destruct (cell_ok _ _ _ (i + dx) (j + dy) Hok) as (_ & btn & -> & _);
      [lia|lia|].
    by eexists.
Qed.

Lemma mine_at_deref height width buttons i j :
  grid_ok height width buttons →
  0 ≤ i < height + 2 → 0 ≤ j < width + 2 →
  ∃ btn, deref buttons (at_pos i j) = Some btn
         ∧ cell buttons i j = Some btn
         ∧ mine_at buttons (i, j) = is_mine btn.
Proof.
  intros Hok Hi Hj.
  destruct (cell_ok _ _ _ i j Hok Hi Hj) as (Hc & btn & Hbtn & _).
  exists btn. unfold mine_at. simpl. rewrite Hbtn. split; [congruence|done].
Qed.

Lemma mine_at_preserved height width (f : Ref → FieldButton → FieldButton)
    start buttons i j :
  grid_ok height width start → grid_ok height width buttons →
  (∀ q btn, is_mine (f q btn) = is_mine btn) →
  (∀ q, deref buttons q = f q <$> deref start q) →
  0 ≤ i < height + 2 → 0 ≤ j < width + 2 →
  mine_at buttons (i, j) = mine_at start (i, j).
Proof.
  intros Hok0 Hok Hf Hq Hi Hj.
  destruct (mine_at_deref _ _ _ i j Hok0 Hi Hj) as (b0 & Hd0 & _ & ->).
  destruct (mine_at_deref _ _ _ i j Hok Hi Hj) as (b1 & Hd1 & _ & ->).
  rewrite Hq, Hd0 in Hd1. simpl in Hd1. injection Hd1 as <-. apply Hf.
Qed.

Lemma elem_of_neighbours8 i j p :
  p ∈ neighbours8 i j → i - 1 ≤ p.1 ≤ i + 1 ∧ j - 1 ≤ p.2 ≤ j + 1.
Proof.
  unfold neighbours8. intros ([dx dy] & -> & Hd)%list_elem_of_fmap.
  simpl. rewrite !elem_of_cons, elem_of_nil in Hd.
  repeat (destruct Hd as [[= -> ->]|Hd]; [lia|]). done.
Qed.

Lemma count_mines_ext buttons buttons' ps :
  (∀ p, p ∈ ps → mine_at buttons' p = mine_at buttons p) →
  count_mines buttons' ps = count_mines buttons ps.
Proof.
  induction ps as [|p ps IH]; intros Hall; [done|].
  rewrite !count_mines_cons, (Hall p) by (by left).
  rewrite IH; [done|]. intros p' ?. apply Hall. by right.
Qed.

Lemma mines_around_preserved height width
    (f : Ref → FieldButton → FieldButton) start buttons i j :
  grid_ok height width start → grid_ok height width buttons →
  (∀ q btn, is_mine (f q btn) = is_mine btn) →
  (∀ q, deref buttons q = f q <$> deref start q) →
  1 ≤ i ≤ height → 1 ≤ j ≤ width →
  mines_around buttons i j = mines_around start i j.
Proof.
  intros Hok0 Hok Hf Hq Hi Hj. apply count_mines_ext.
  intros [i' j'] [? ?]%elem_of_neighbours8. simpl in *.
  eapply mine_at_preserved; eauto; lia.
Qed.

(** Mine placement leaves the border ring free of mines. *)
Lemma place_mines_border_clear shuffle height width mines exclude start
    buttons :
  0 ≤ height → 0 ≤ width → unmined height width start →
  place_mines shuffle height width mines exclude start = Some buttons →
  grid_ok height width buttons ∧ border_clear height width buttons.
Proof.
  intros Hh Hw [Hok Hq] Hplace.
  destruct (get_mines_places shuffle height width mines exclude)
    as [M|] eqn:HM; [|by unfold place_mines in Hplace; rewrite HM in Hplace].
  destruct (place_mines_spec shuffle height width mines exclude start M)
    as (b & Hb & Hokb & Hqb); [done..|].
  rewrite Hb in Hplace. injection Hplace as <-. split; [done|].
  intros q btn. rewrite Hqb. intros Hd Hout.
  rewrite decide_False in Hd by done. rewrite option_fmap_id in Hd.
  by destruct (Hq q btn Hd).
Qed.

Lemma keeps_pos_adjacency_of start q : keeps_pos (adjacency_of start q).
Proof. by intros btn. Qed.

(** [calculate_adjacent_mines] stores in every interior cell the count
    [adjacency_of] describes and touches nothing else. *)
Lemma calculate_adjacent_mines_spec height width start :
  0 ≤ height → 0 ≤ width → grid_ok height width start →
  ∃ buttons,
    calculate_adjacent_mines height width start = Some buttons
    ∧ grid_ok height width buttons
    ∧ ∀ q, deref buttons q
           = (if decide (is_interior height width q)
              then adjacency_of start q else id) <$> deref start q.
Proof.
  intros Hh Hw Hok. unfold calculate_adjacent_mines.
  apply (sweep_loop height width (adjacency_of start));
    [done|done|done|intros q; apply keeps_pos_adjacency_of|].
  intros i j b Hi Hj [Hokb Hq].
  destruct (button_ref_ok _ _ _ i j Hokb) as (-> & btn & Hd & _);
    [lia|lia|].
  simpl. rewrite Hd. simpl.
  assert (Hd0 : deref start (at_pos i j) = Some btn).
    { rewrite Hq, decide_False in Hd.
      - by rewrite option_fmap_id in Hd.
      - unfold before, at_pos. simpl. lia. }
    assert (Hcnt : (if is_mine btn then Some 0 else count_adjacent b i j)
                   = Some (if is_mine btn then 0
                           else mines_around start i j)).
    { destruct (is_mine btn) eqn:Hm; [done|].
      rewrite (count_adjacent_spec height width) by done.
      destruct (mine_at_deref _ _ _ i j Hokb) as (btn' & Hd' & _ & ->);
        [lia|lia|].
      assert (btn' = btn) as -> by congruence. rewrite Hm.
      f_equal. rewrite Z.add_0_r.
      apply (mines_around_preserved height width
               (λ q, if decide (is_interior height width q ∧ before i j q)
                     then adjacency_of start q else id)); try done.
      intros q c. by case_decide. }
    rewrite Hcnt. simpl. f_equal.
    apply (assign_ext _ _ _ _ btn Hd). unfold adjacency_of, at_pos. simpl.
    by rewrite !Z2Nat.id by lia.
Qed.

(** C5.  After [calculate_adjacent_mines] every interior cell that is
    not a mine stores the number of mines among its eight neighbours, a
    value between 0 and 8; the mines themselves are left where they
    were.  On a grid whose border ring holds no mine, the stored value
    counts interior neighbours only. *)
Theorem calculate_adjacent_mines_counts (height width : Z) (start : Grid) :
  1 ≤ height → 1 ≤ width → grid_ok height width start →
  ∃ buttons,
    calculate_adjacent_mines height width start = Some buttons
    ∧ (∀ i j, 0 ≤ i < height + 2 → 0 ≤ j < width + 2 →
         mine_at buttons (i, j) = mine_at start (i, j))
    ∧ ∀ i j, 1 ≤ i ≤ height → 1 ≤ j ≤ width →
        ∃ btn, cell buttons i j = Some btn
          ∧ (is_mine btn = false →
               adjacent_mines btn = mines_around buttons i j
               ∧ 0 ≤ adjacent_mines btn ≤ 8
               ∧ (border_clear height width start →
                    adjacent_mines btn
                    = interior_mines_around height width buttons i j)).
Proof.
  intros Hh Hw Hok.
  destruct (calculate_adjacent_mines_spec height width start)
    as (b & Hb & Hokb & Hq); [lia|lia|done|].
  exists b. split; [done|].
  set (f := λ q, if decide (is_interior height width q)
                 then adjacency_of start q else id).
  assert (Hf : ∀ q btn, is_mine (f q btn) = is_mine btn).
  { intros q btn. unfold f. by case_decide. }
  assert (Hmine : ∀ i j, 0 ≤ i < height + 2 → 0 ≤ j < width + 2 →
                    mine_at b (i, j) = mine_at start (i, j)).
  { intros i j Hi Hj. by apply (mine_at_preserved height width f). }
  split; [done|]. intros i j Hi Hj.
  destruct (mine_at_deref _ _ _ i j Hokb) as (btn & Hd & Hc & _);
    [lia|lia|].
  exists btn. split; [done|]. intros Hnm.
  destruct (mine_at_deref _ _ _ i j Hok) as (btn0 & Hd0 & _ & _);
    [lia|lia|].
  rewrite Hq, Hd0, decide_True in Hd
    by (apply is_interior_at_pos; lia).
  simpl in Hd. injection Hd as <-.
  unfold adjacency_of in *. simpl in *. rewrite Hnm.
  unfold at_pos. simpl. rewrite !Z2Nat.id by lia.
  assert (Haround : mines_around b i j = mines_around start i j).
  { by apply (mines_around_preserved height width f). }
  split; [done|]. split.
  { pose proof (count_mines_bounds start (neighbours8 i j)) as Hbd.
    unfold mines_around. simpl in Hbd. lia. }
  intros Hclear. rewrite <- Haround.
  unfold mines_around, count_mines, interior_mines_around. do 2 f_equal.
  apply filter_ext_in. intros [i' j'] [? ?]%elem_of_neighbours8.
  simpl in *. split; [|tauto]. intros Hm. split; [done|].
  destruct (decide (1 ≤ i' ≤ height ∧ 1 ≤ j' ≤ width)) as [|Hout]; [done|].
  exfalso.
  destruct (mine_at_deref _ _ _ i' j' Hok) as (c & Hdc & _ & Hmc);
    [lia|lia|].
  rewrite Hmine, Hmc in Hm by lia.
  rewrite (Hclear _ _ Hdc) in Hm; [done|].
  rewrite is_interior_at_pos by lia. done.
Qed.

(** ** Win detection *)

Lemma for_return_app {A R} (xs ys : list A) (body : A → option (option R)) :
  for_return (xs ++ ys) body
  = r ← for_return xs body;
    match r with Some v => Some (Some v) | None => for_return ys body end.
Proof.
  induction xs as [|x xs IH]; simpl; [done|].
  destruct (body x) as [[v|]|]; simpl; [done|apply IH|done].
Qed.

Lemma for_return_nested {A B R} (xs : list A) (ys : list B)
    (body : A → B → option (option R)) :
  for_return xs (λ x, for_return ys (body x))
  = for_return (cprod xs ys) (λ p, body p.1 p.2).
Proof.
  induction xs as [|x xs IH]; [done|].
  change (cprod (x :: xs) ys) with (((x,.) <$> ys) ++ cprod xs ys).
  rewrite for_return_app. simpl.
  assert (Hrow : for_return ys (body x)
                 = for_return ((x,.) <$> ys) (λ p, body p.1 p.2)).
  { clear. induction ys as [|y ys IHy]; simpl; [done|].
    destruct (body x y) as [[v|]|]; simpl; auto. }
  rewrite <- Hrow. destruct (for_return ys (body x)) as [[v|]|]; simpl; auto.
Qed.

(** A scan that returns [False] at the first element that fails a test. *)
Lemma for_return_scan {A B} (f : A → option B) (bad : B → bool)
    (xs : list A) :
  (∀ x, x ∈ xs → is_Some (f x)) →
  for_return xs (λ x, b ← f x; Some (if bad b then Some false else None))
  = Some (if forallb (λ b, negb (bad b)) (omap f xs) then None
          else Some false).
Proof.
  induction xs as [|x xs IH]; intros Hall; [done|].
  assert (IH' := IH (λ x' Hx', Hall x' (list_elem_of_further _ _ _ Hx'))).
  destruct (Hall x) as [b Hb]; [by left|].
  simpl. rewrite Hb. simpl. destruct (bad b); simpl; [done|]. exact IH'.
Qed.

Lemma check_win_scan_spec height width buttons :
  grid_ok height width buttons →
  check_win_scan height width buttons
  = Some (if forallb (λ btn, negb (blocks_win btn))
               (interior_cells height width buttons)
          then None else Some false).
Proof.
  intros Hok. unfold check_win_scan.
  rewrite (for_return_nested _ _
             (λ row col, btn ← cell buttons row col;
                         Some (if blocks_win btn then Some false else None))).
  apply (for_return_scan (λ p, cell buttons p.1 p.2)).
  intros [i j] Hp%elem_of_interior. simpl.
  destruct (cell_ok _ _ _ i j Hok) as (_ & btn & -> & _); [lia|lia|].
  by eexists.
Qed.

Lemma no_block_iff height width buttons :
  forallb (λ btn, negb (blocks_win btn)) (interior_cells height width buttons)
  = true
  ↔ safe_cells_open height width buttons
    ∧ no_safe_cell_flagged height width buttons.
Proof.
  rewrite forallb_forall. unfold safe_cells_open, no_safe_cell_flagged.
  split.
  - intros Hall. split; intros btn Hin%list_elem_of_In Hm;
      specialize (Hall btn Hin); unfold blocks_win in Hall;
      rewrite Hm in Hall; simpl in Hall.
    + by destruct (is_open btn).
    + intros Hf. rewrite bool_decide_eq_true_2 in Hall by done.
      by destruct (is_open btn).
  - intros [Hopen Hflag] btn Hin%list_elem_of_In. unfold blocks_win.
    destruct (is_mine btn) eqn:Hm; simpl.
    + by rewrite !andb_false_r.
    + rewrite (Hopen btn Hin Hm). simpl.
      rewrite bool_decide_eq_false_2; [done|]. by apply Hflag.
Qed.

(** ** Leaderboard bookkeeping *)

Lemma lookup_load_leaderboards py_int s d :
  leaderboards (load_leaderboards py_int s) !! d
  = load_one py_int (files s) d <$> leaderboards s !! d.
Proof.
  unfold load_leaderboards. simpl. rewrite map_lookup_imap.
  by destruct (leaderboards s !! d).
Qed.

Lemma for_interior_spec height width f start :
  0 ≤ height → 0 ≤ width → grid_ok height width start → keeps_pos f →
  ∃ buttons,
    for_interior height width f start = Some buttons
    ∧ grid_ok height width buttons
    ∧ ∀ q, deref buttons q
           = (if decide (is_interior height width q) then f else id)
               <$> deref start q.
Proof.
  intros Hh Hw Hok Hf. unfold for_interior.
  apply (sweep_loop height width (λ _, f)); [done|done|done|done|].
  intros i j b Hi Hj [Hokb _].
  by destruct (button_ref_ok _ _ _ i j Hokb) as (-> & _); [lia|lia|].
Qed.

Lemma update_leaderboard_is_Some py_int typed d t s :
  is_Some (leaderboards s !! d) →
  is_Some (update_leaderboard py_int typed d t s).
Proof.
  intros [l Hl]. unfold update_leaderboard.
  rewrite lookup_load_leaderboards, Hl. simpl.
  by destruct (qualifies _ _).
Qed.

(** Nothing [update_leaderboard] does touches the grid or the
    dimensions. *)
Lemma update_leaderboard_frame py_int typed d t s s' :
  update_leaderboard py_int typed d t s = Some s' →
  height s' = height s ∧ width s' = width s ∧ mines s' = mines s
  ∧ buttons s' = buttons s ∧ game_over s' = game_over s
  ∧ flags_left s' = flags_left s ∧ is_first_click s' = is_first_click s.
Proof.
  unfold update_leaderboard.
  destruct (leaderboards (load_leaderboards py_int s) !! d) as [l|];
    simpl; [|done].
  destruct (qualifies l t); intros [= <-]; [|done].
  unfold prompt_player_name. by destruct typed.
Qed.

(** [game_won] always completes on a well-formed game. *)
Lemma game_won_is_Some py_int elapsed typed s :
  well_formed s → is_Some (game_won py_int elapsed typed s).
Proof.
  intros (Hh & Hw & Hok & Hlb). unfold game_won.
  set (s1 := emit _ (set_game_over true s)).
  assert (Hupd : ∀ d, d ∈ difficulties →
            ∃ s2, update_leaderboard py_int typed d elapsed s1 = Some s2
                  ∧ height s2 = height s ∧ width s2 = width s
                  ∧ buttons s2 = buttons s).
  { intros d Hd.
    destruct (update_leaderboard_is_Some py_int typed d elapsed s1)
      as [s2 Hs2]; [by apply Hlb|].
    exists s2. split; [done|].
    by destruct (update_leaderboard_frame _ _ _ _ _ _ Hs2)
      as (-> & -> & _ & -> & _). }
  assert (Hfin : ∀ s2, height s2 = height s → width s2 = width s →
            buttons s2 = buttons s →
            is_Some (buttons ← for_interior (height s2) (width s2)
                                 (config_state disabled) (buttons s2);
                     Some (set_buttons buttons s2))).
  { intros s2 -> -> ->.
    destruct (for_interior_spec (height s) (width s) (config_state disabled)
                (buttons s)) as (b & -> & _);
      [done|done|done|auto with keeps|].
    by eexists. }
  unfold difficulties in Hupd.
  repeat case_bool_decide.
  1-3: (edestruct Hupd as (s2 & Hs2 & ? & ? & ?);
        [|rewrite Hs2; simpl; by apply Hfin]; set_solver).
  exact (Hfin s1 eq_refl eq_refl eq_refl).
Qed.

(** C3.  On a well-formed game [check_win] returns, and it returns
    [True] exactly when every interior cell without a mine is open and
    none of them carries a flag.  In particular it returns [False] while
    some cell without a mine is closed, and [False] while a flag sits on
    a cell without a mine, whatever else holds.  Returning [False] it
    leaves the game as it was; returning [True] it has run [game_won]. *)
Theorem check_win_iff (py_int : string → option Z) (elapsed : Z)
    (typed : option string) (s : Minesweeper) :
  well_formed s →
  ∃ s' won,
    check_win py_int elapsed typed s = Some (s', won)
    ∧ (won = true ↔
         safe_cells_open (height s) (width s) (buttons s)
         ∧ no_safe_cell_flagged (height s) (width s) (buttons s))
    ∧ (∀ btn, btn ∈ interior_cells (height s) (width s) (buttons s) →
         is_mine btn = false → is_open btn = false → won = false)
    ∧ (∀ btn, btn ∈ interior_cells (height s) (width s) (buttons s) →
         is_mine btn = false → text btn = text_flag → won = false)
    ∧ (won = false → s' = s)
    ∧ (won = true → game_won py_int elapsed typed s = Some s').
Proof.
  intros Hwf. pose proof Hwf as (Hh & Hw & Hok & Hlb).
  unfold check_win. rewrite (check_win_scan_spec _ _ _ Hok). simpl.
  pose proof (no_block_iff (height s) (width s) (buttons s)) as Hiff.
  destruct (forallb _ _) eqn:Hall.
  - destruct (game_won_is_Some py_int elapsed typed s Hwf) as [s' Hwon].
    rewrite Hwon. simpl. exists s', true. split; [done|].
    destruct Hiff as [[Hopen Hflag] _]; [done|]. split_and!.
    + done.
    + intros btn Hin Hm Hcl. rewrite (Hopen btn Hin Hm) in Hcl. done.
    + intros btn Hin Hm Hfl. by destruct (Hflag btn Hin Hm).
    + done.
    + done.
  - exists s, false. split; [done|]. split_and!; [|done..].
    split; [done|]. intros H. apply Hiff in H. done.
Qed.

(** C10.  A win on a configuration that is none of the three presets
    leaves every leaderboard, every leaderboard file and the remembered
    player name as they were; the only dialog is the congratulation
    message: no name prompt, no save, no leaderboard window. *)
Theorem custom_win_keeps_leaderboards (py_int : string → option Z)
    (elapsed : Z) (typed : option string) (s : Minesweeper) :
  well_formed s →
  (height s, width s, mines s) ≠ BEGINNER_OPTIONS →
  (height s, width s, mines s) ≠ INTERMEDIATE_OPTIONS →
  (height s, width s, mines s) ≠ EXPERT_OPTIONS →
  ∃ s',
    game_won py_int elapsed typed s = Some s'
    ∧ leaderboards s' = leaderboards s
    ∧ files s' = files s
    ∧ player_name s' = player_name s
    ∧ events s' = events s ++ [ev_message "Congratulations!"].
Proof.
  intros (Hh & Hw & Hok & _) Hb Hi He. unfold game_won.
  rewrite !bool_decide_eq_false_2 by done. simpl.
  destruct (for_interior_spec (height s) (width s) (config_state disabled)
              (buttons s)) as (b & -> & _);
    [done|done|done|auto with keeps|].
  simpl. by eexists.
Qed.

(** ** Flood fill *)

Lemma list_pop_None {A} (l : list A) : list_pop l = None ↔ l = [].
Proof.
  unfold list_pop. destruct (reverse l) as [|x r] eqn:E.
  - split; [|done]. intros _. apply (f_equal reverse) in E.
    by rewrite reverse_involutive in E.
  - split; [done|]. intros ->. done.
Qed.

Lemma list_pop_Some {A} (l q : list A) x :
  list_pop l = Some (q, x) ↔ l = q ++ [x].
Proof.
  unfold list_pop. destruct (reverse l) as [|y r] eqn:E.
  - apply (f_equal reverse) in E. rewrite reverse_involutive in E.
    subst l. split; [done|]. intros H. by destruct q.
  - apply (f_equal reverse) in E.
    rewrite reverse_involutive, reverse_cons in E. subst l. split.
    + by intros [= <- <-].
    + intros [-> ->]%app_inj_tail. done.
Qed.

Lemma keeps_pos_open_button : keeps_pos open_button.
Proof. intros btn. unfold open_button. by case_bool_decide. Qed.

Lemma is_open_open_button btn : is_open (open_button btn) = true.
Proof. done. Qed.

Lemma deref_interior height width buttons r :
  grid_ok height width buttons → is_interior height width r →
  ∃ btn, deref buttons r = Some btn
         ∧ row btn = Z.of_nat r.1 ∧ col btn = Z.of_nat r.2.
Proof.
  intros Hok [Hr Hc].
  destruct (button_ref_ok _ _ _ (Z.of_nat r.1) (Z.of_nat r.2) Hok)
    as (_ & btn & Hd & Hrow & Hcol); [lia|lia|].
  rewrite at_pos_of_nat in Hd. by exists btn.
Qed.

(** The neighbour scan appends distinct closed interior cells that were
    not in the work list. *)
Lemma scan_neighbours_spec height width buttons cur_btn queue pushed :
  grid_ok height width buttons →
  1 ≤ row cur_btn ≤ height → 1 ≤ col cur_btn ≤ width →
  ∃ new,
    scan_neighbours height width buttons cur_btn (queue, pushed)
    = Some (queue ++ new, pushed ++ new)
    ∧ NoDup new
    ∧ ∀ r, r ∈ new →
        is_interior height width r ∧ (r ∉ queue)
        ∧ ∃ btn, deref buttons r = Some btn ∧ is_open btn = false.
Proof.
  intros Hok Hrow Hcol. unfold scan_neighbours.
  rewrite (for_each_nested offsets offsets
             (λ dx dy '(queue, pushed),
                next ← button_ref buttons (row cur_btn + dx)
                         (col cur_btn + dy);
                next_btn ← deref buttons next;
                if negb (is_open next_btn)
                   && bool_decide (1 ≤ row next_btn ≤ height)
                   && bool_decide (1 ≤ col next_btn ≤ width)
                   && bool_decide (next ∉ queue)
                then Some (queue ++ [next], pushed ++ [next])
                else Some (queue, pushed))).
  destruct (for_each_invariant
    (λ (_ : list (Z * Z)) (st : list Ref * list Ref),
       ∃ new, st = (queue ++ new, pushed ++ new) ∧ NoDup new
         ∧ ∀ r, r ∈ new →
             is_interior height width r ∧ (r ∉ queue)
             ∧ ∃ btn, deref buttons r = Some btn ∧ is_open btn = false)
    (cprod offsets offsets)
    (λ p '(queue, pushed),
       next ← button_ref buttons (row cur_btn + p.1) (col cur_btn + p.2);
       next_btn ← deref buttons next;
       if negb (is_open next_btn)
          && bool_decide (1 ≤ row next_btn ≤ height)
          && bool_decide (1 ≤ col next_btn ≤ width)
          && bool_decide (next ∉ queue)
       then Some (queue ++ [next], pushed ++ [next])
       else Some (queue, pushed))
    (queue, pushed)) as (st & Hst & new & -> & Hnd & Hnew).
  - exists []. rewrite !app_nil_r. split; [done|]. split; [constructor|].
    by intros r ?%elem_of_nil.
  - intros visited [dx dy] rest st Hsplit (new & -> & Hnd & Hnew).
    assert (Hd : (dx, dy) ∈ cprod offsets offsets).
    { rewrite Hsplit. apply elem_of_app. right. by left. }
    apply list_elem_of_cprod in Hd as [Hdx%elem_of_offsets Hdy%elem_of_offsets].
    simpl in *.
    destruct (button_ref_ok _ _ _ (row cur_btn + dx) (col cur_btn + dy) Hok)
      as (-> & next_btn & Hnb & Hnr & Hnc); [lia|lia|].
    simpl. rewrite Hnb. simpl.
    set (next := at_pos (row cur_btn + dx) (col cur_btn + dy)) in *.
    destruct (negb (is_open next_btn)
              && bool_decide (1 ≤ row next_btn ≤ height)
              && bool_decide (1 ≤ col next_btn ≤ width)
              && bool_decide (next ∉ queue ++ new)) eqn:Hcond.
    + apply andb_prop in Hcond as [Hcond Hq%bool_decide_eq_true_1].
      apply andb_prop in Hcond as [Hcond Hc%bool_decide_eq_true_1].
      apply andb_prop in Hcond as [Hop%negb_true_iff Hr%bool_decide_eq_true_1].
      eexists. split; [done|]. exists (new ++ [next]).
      rewrite !app_assoc. split; [done|]. split.
      * apply NoDup_app. split; [done|]. split; [|apply NoDup_singleton].
        intros r Hr' ->%list_elem_of_singleton. apply Hq.
        apply elem_of_app. by right.
      * intros r [Hr'|Hr']%elem_of_app; [by apply Hnew|].
        apply list_elem_of_singleton in Hr' as ->.
        split_and!.
        -- unfold is_interior, next, at_pos. simpl. lia.
        -- intros Hin. apply Hq. apply elem_of_app. by left.
        -- by exists next_btn.
    + eexists. split; [done|]. by exists new.
  - by exists new.
Qed.

Lemma length_interior_refs height width :
  0 ≤ height → 0 ≤ width →
  length (interior_refs height width) = Z.to_nat (height * width).
Proof.
  intros Hh Hw. unfold interior_refs. rewrite length_fmap.
  rewrite <- (length_fmap (λ p : Z * Z, (p.1 - 1) * width + p.2)).
  rewrite numbers_interior by done. unfold range. rewrite length_seqZ. lia.
Qed.

Lemma elem_of_interior_refs height width r :
  is_interior height width r → r ∈ interior_refs height width.
Proof.
  intros [Hr Hc]. unfold interior_refs. apply list_elem_of_fmap.
  exists (Z.of_nat r.1, Z.of_nat r.2). simpl.
  split; [by rewrite at_pos_of_nat|]. by apply elem_of_interior.
Qed.

(** Distinct interior cells are at most [height * width] many. *)
Lemma interior_refs_bound height width (l : list Ref) :
  0 ≤ height → 0 ≤ width →
  NoDup l → (∀ r, r ∈ l → is_interior height width r) →
  (length l ≤ Z.to_nat (height * width))%nat.
Proof.
  intros Hh Hw Hnd Hin. rewrite <- length_interior_refs by done.
  apply submseteq_length, NoDup_submseteq; [done|].
  intros r Hr. by apply elem_of_interior_refs, Hin.
Qed.

Lemma reveal_inv_init height width buttons start :
  grid_ok height width buttons → is_interior height width start →
  reveal_inv height width buttons [start] [start].
Proof.
  intros Hok Hin. split; try done.
  - apply NoDup_singleton.
  - apply NoDup_singleton.
  - by intros r ->%list_elem_of_singleton.
Qed.

(** One iteration of the loop keeps the invariant; it removes the
    popped cell from the work list and appends the same new cells to the
    work list and to the record. *)
Lemma reveal_inv_step height width buttons queue cur pushed :
  reveal_inv height width buttons (queue ++ [cur]) pushed →
  ∃ cur_btn new,
    deref buttons cur = Some cur_btn
    ∧ (if bool_decide (adjacent_mines cur_btn = 0)
       then scan_neighbours height width (assign open_button cur buttons)
              cur_btn (queue, pushed)
       else Some (queue, pushed))
      = Some (queue ++ new, pushed ++ new)
    ∧ reveal_inv height width (assign open_button cur buttons)
        (queue ++ new) (pushed ++ new).
Proof.
  intros [Hok Hndp Hndq Hpend Hint Hdone].
  assert (Hcur : cur ∈ pushed).
  { apply Hpend, elem_of_app. right. by left. }
  destruct (deref_interior _ _ _ cur Hok (Hint cur Hcur))
    as (cur_btn & Hd & Hrow & Hcol).
  pose proof (Hint cur Hcur) as [Hr Hc].
  set (b1 := assign open_button cur buttons).
  assert (Hok1 : grid_ok height width b1).
  { apply grid_ok_assign; [apply keeps_pos_open_button|done]. }
  apply NoDup_app in Hndq as (Hndq & Hcurq & _).
  assert (Hopen1 : ∀ r btn, deref buttons r = Some btn → is_open btn = true →
            ∃ btn', deref b1 r = Some btn' ∧ is_open btn' = true).
  { intros r btn Hdr Hop. unfold b1. rewrite deref_assign.
    case_decide; rewrite Hdr; simpl; eauto. }
  assert (Hcur1 : ∃ btn', deref b1 cur = Some btn' ∧ is_open btn' = true).
  { unfold b1. rewrite deref_assign_eq, Hd. simpl. eauto. }
  assert (Hnew : ∃ new,
            (if bool_decide (adjacent_mines cur_btn = 0)
             then scan_neighbours height width b1 cur_btn (queue, pushed)
             else Some (queue, pushed))
            = Some (queue ++ new, pushed ++ new)
            ∧ NoDup new
            ∧ ∀ r, r ∈ new →
                is_interior height width r ∧ (r ∉ queue)
                ∧ ∃ btn, deref b1 r = Some btn ∧ is_open btn = false).
  { case_bool_decide.
    - apply scan_neighbours_spec; [done|lia|lia].
    - exists []. rewrite !app_nil_r. split; [done|].
      split; [constructor|]. by intros r ?%elem_of_nil. }
  destruct Hnew as (new & Hscan & Hndn & Hnewp).
  exists cur_btn, new. split; [done|]. split; [done|].
  assert (Hfresh : ∀ r, r ∈ new → r ∉ pushed).
  { intros r Hrn Hrp. destruct (Hnewp r Hrn) as (_ & Hrq & btn & Hdb & Hcl).
    destruct (decide (r = cur)) as [->|Hne].
    - destruct Hcur1 as (btn' & Hd' & Hop'). congruence.
    - destruct (Hdone r Hrp) as (btn0 & Hd0 & Hop0).
      { rewrite elem_of_app, list_elem_of_singleton. tauto. }
      destruct (Hopen1 r btn0 Hd0 Hop0) as (btn' & Hd' & Hop'). congruence. }
  split.
  - done.
  - apply NoDup_app. split; [done|]. split; [|done].
    intros r Hrp Hrn. by apply (Hfresh r).
  - apply NoDup_app. split; [done|]. split; [|done].
    intros r Hrq Hrn. by destruct (Hnewp r Hrn) as (_ & ? & _).
  - intros r [Hrq|Hrn]%elem_of_app; apply elem_of_app; [left|by right].
    apply Hpend, elem_of_app. by left.
  - intros r [Hrp|Hrn]%elem_of_app; [by apply Hint|].
    by destruct (Hnewp r Hrn).
  - intros r [Hrp|Hrn]%elem_of_app Hnq.
    + destruct (decide (r = cur)) as [->|Hne]; [done|].
      destruct (Hdone r Hrp) as (btn0 & Hd0 & Hop0).
      { rewrite elem_of_app, list_elem_of_singleton.
        rewrite elem_of_app in Hnq. tauto. }
      by apply (Hopen1 r btn0).
    + exfalso. apply Hnq, elem_of_app. by right.
Qed.

Lemma reveal_inv_bound height width buttons queue pushed :
  0 ≤ height → 0 ≤ width →
  reveal_inv height width buttons queue pushed →
  (length queue ≤ length pushed ≤ Z.to_nat (height * width))%nat.
Proof.
  intros Hh Hw [_ Hndp Hndq Hpend Hint _]. split.
  - by apply submseteq_length, NoDup_submseteq.
  - by apply interior_refs_bound.
Qed.

(** Enough fuel: the loop stops within [height * width] iterations of
    the number of cells that never entered the work list. *)
Lemma reveal_loop_terminates height width :
  0 ≤ height → 0 ≤ width →
  ∀ fuel buttons queue pushed,
    reveal_inv height width buttons queue pushed →
    (Z.to_nat (height * width) + length queue - length pushed < fuel)%nat →
    is_Some (reveal_loop fuel height width buttons queue pushed).
Proof.
  intros Hh Hw. induction fuel as [|fuel IH];
    intros buttons queue pushed Hinv Hfuel; [lia|].
  simpl. destruct (list_pop queue) as [[q0 cur]|] eqn:Hpop; [|by eexists].
  apply list_pop_Some in Hpop as ->.
  destruct (reveal_inv_step _ _ _ _ _ _ Hinv)
    as (cur_btn & new & -> & Hscan & Hinv1).
  simpl. rewrite Hscan. simpl. apply IH; [done|].
  pose proof (reveal_inv_bound _ _ _ _ _ Hh Hw Hinv1) as Hb.
  rewrite !length_app in *. simpl in *. lia.
Qed.

(** What a finished run looks like: the record only grew, the final
    invariant holds with an empty work list, and the number of
    iterations is the number of cells in the work list plus the number
    appended from then on; any larger fuel gives the same result. *)
Lemma reveal_loop_result height width :
  ∀ fuel buttons queue pushed buttons' pushed',
    reveal_inv height width buttons queue pushed →
    reveal_loop fuel height width buttons queue pushed
    = Some (buttons', pushed') →
    reveal_inv height width buttons' [] pushed'
    ∧ pushed `prefix_of` pushed'
    ∧ (length queue + length pushed' - length pushed < fuel)%nat
    ∧ ∀ fuel',
        (length queue + length pushed' - length pushed < fuel')%nat →
        reveal_loop fuel' height width buttons queue pushed
        = Some (buttons', pushed').
Proof.
  induction fuel as [|fuel IH];
    intros buttons queue pushed buttons' pushed' Hinv Hrun; [done|].
  simpl in Hrun.
  destruct (list_pop queue) as [[q0 cur]|] eqn:Hpop.
  - apply list_pop_Some in Hpop as Hq. subst queue.
    destruct (reveal_inv_step _ _ _ _ _ _ Hinv)
      as (cur_btn & new & Hd & Hscan & Hinv1).
    rewrite Hd in Hrun. simpl in Hrun. rewrite Hscan in Hrun.
    simpl in Hrun.
    destruct (IH _ _ _ _ _ Hinv1 Hrun) as (Hfin & Hpre & Hcount & Hany).
    assert (Hlen : (length (pushed ++ new) ≤ length pushed')%nat).
    { by apply prefix_length. }
    rewrite !length_app in *. simpl in *.
    split; [done|]. split; [by eapply prefix_app_l|].
    split; [lia|]. intros [|fuel'] Hfuel'; [lia|].
    simpl. rewrite Hpop, Hd. simpl. rewrite Hscan. simpl.
    apply Hany. lia.
  - apply list_pop_None in Hpop as ->. injection Hrun as <- <-.
    split; [done|]. split; [done|]. simpl. split; [lia|].
    intros [|fuel'] Hfuel'; [lia|]. done.
Qed.

(** C4.  The flood fill started at an interior cell of a well-formed
    grid terminates: there are a final grid and a record [pushed] of the
    cells that entered the work list such that the loop body runs
    exactly [length pushed] times (any larger fuel returns the result,
    no smaller one does), no cell occurs twice in [pushed], every cell
    in it is interior and is marked open at the end, and so the number
    of iterations is at most [height * width]. *)
Theorem reveal_terminates (height width : Z) (buttons : Grid) (start : Ref) :
  grid_ok height width buttons → is_interior height width start →
  ∃ buttons' pushed,
    (∀ fuel, (length pushed < fuel)%nat →
       reveal_trace fuel height width buttons start
       = Some (buttons', pushed))
    ∧ (∀ fuel, (fuel ≤ length pushed)%nat →
         reveal_trace fuel height width buttons start = None)
    ∧ NoDup pushed
    ∧ (∀ r, r ∈ pushed → is_interior height width r)
    ∧ (∀ r, r ∈ pushed →
         ∃ btn, deref buttons' r = Some btn ∧ is_open btn = true)
    ∧ (length pushed ≤ Z.to_nat (height * width))%nat.
Proof.
  intros Hok Hstart.
  assert (Hh : 0 ≤ height) by (destruct Hstart; lia).
  assert (Hw : 0 ≤ width) by (destruct Hstart; lia).
  pose proof (reveal_inv_init _ _ _ _ Hok Hstart) as Hinit.
  unfold reveal_trace.
  destruct (reveal_loop_terminates height width Hh Hw
              (S (Z.to_nat (height * width))) buttons [start] [start] Hinit)
    as [[b' pushed] Hrun]; [simpl; lia|].
  destruct (reveal_loop_result _ _ _ _ _ _ _ _ Hinit Hrun)
    as (Hfin & Hpre & _ & Hany).
  assert (Hlen : (1 ≤ length pushed)%nat).
  { apply prefix_length in Hpre. simpl in Hpre. lia. }
  exists b', pushed. split_and!.
  - intros fuel Hfuel. apply Hany. simpl. lia.
  - intros fuel Hfuel.
    destruct (reveal_loop fuel height width buttons [start] [start])
      as [[b2 p2]|] eqn:Hrun2; [|done].
    destruct (reveal_loop_result _ _ _ _ _ _ _ _ Hinit Hrun2)
      as (_ & Hpre2 & Hcount2 & Hany2).
    apply prefix_length in Hpre2. simpl in *.
    pose proof (Hany (S (length pushed + length p2)) ltac:(lia)) as E1.
    pose proof (Hany2 (S (length pushed + length p2)) ltac:(lia)) as E2.
    rewrite E1 in E2. injection E2 as -> ->. lia.
  - by destruct Hfin.
  - by destruct Hfin.
  - intros r Hr. apply (inv_done _ _ _ _ _ Hfin r Hr).
    by intros ?%elem_of_nil.
  - by apply (reveal_inv_bound _ _ _ _ _ Hh Hw Hfin).
Qed.

(** With fuel beyond the number of interior cells the flood fill
    returns a well-formed grid. *)
Lemma reveal_empty_region_ok fuel height width buttons start :
  grid_ok height width buttons → is_interior height width start →
  (Z.to_nat (height * width) < fuel)%nat →
  ∃ buttons',
    reveal_empty_region fuel height width buttons start = Some buttons'
    ∧ grid_ok height width buttons'.
Proof.
  intros Hok Hstart Hfuel.
  assert (Hh : 0 ≤ height) by (destruct Hstart; lia).
  assert (Hw : 0 ≤ width) by (destruct Hstart; lia).
  pose proof (reveal_inv_init _ _ _ _ Hok Hstart) as Hinit.
  unfold reveal_empty_region, reveal_trace.
  destruct (reveal_loop_terminates height width Hh Hw fuel buttons
              [start] [start] Hinit) as [[b' pushed] Hrun]; [simpl; lia|].
  rewrite Hrun. simpl. exists b'. split; [done|].
  by destruct (reveal_loop_result _ _ _ _ _ _ _ _ Hinit Hrun) as ([] & _).
Qed.

(** Whatever every single [open_button] assignment preserves, the whole
    flood fill preserves. *)
Lemma reveal_loop_preserves (P : Grid → Prop) height width :
  (∀ buttons cur, P buttons → P (assign open_button cur buttons)) →
  ∀ fuel buttons queue pushed buttons' pushed',
    reveal_loop fuel height width buttons queue pushed
    = Some (buttons', pushed') →
    P buttons → P buttons'.
Proof.
  intros Hstep. induction fuel as [|fuel IH];
    intros buttons queue pushed buttons' pushed' Hrun HP; [done|].
  simpl in Hrun. destruct (list_pop queue) as [[q0 cur]|].
  - destruct (deref buttons cur) as [cur_btn|]; simpl in Hrun; [|done].
    destruct (if bool_decide (adjacent_mines cur_btn = 0)
              then scan_neighbours height width
                     (assign open_button cur buttons) cur_btn (q0, pushed)
              else Some (q0, pushed)) as [[q1 p1]|]; simpl in Hrun; [|done].
    eapply IH; [done|]. by apply Hstep.
  - by injection Hrun as <- <-.
Qed.

(** The flood fill never changes the [text] or the [state] of a cell
    that shows a flag: it stays flagged and is not redrawn. *)
Lemma reveal_keeps_flags fuel height width buttons start buttons' r btn :
  reveal_empty_region fuel height width buttons start = Some buttons' →
  deref buttons r = Some btn → text btn = text_flag →
  ∃ btn', deref buttons' r = Some btn'
          ∧ text btn' = text_flag ∧ state btn' = state btn.
Proof.
  unfold reveal_empty_region, reveal_trace. intros Hrun Hd Hflag.
  destruct (reveal_loop fuel height width buttons [start] [start])
    as [[b' pushed]|] eqn:Hloop; simpl in Hrun; [|done].
  injection Hrun as <-.
  apply (reveal_loop_preserves
           (λ b, ∃ btn', deref b r = Some btn'
                         ∧ text btn' = text_flag ∧ state btn' = state btn)
           height width) in Hloop; [done| |by exists btn].
  intros b cur (btn' & Hd' & Ht & Hs). rewrite deref_assign.
  case_decide; rewrite Hd'; simpl; [|by eauto].
  eexists. split; [done|]. unfold open_button.
  rewrite bool_decide_eq_false_2 by (by intros ?). done.
Qed.

(** ** Sorting by time *)

Lemma insert_by_time_perm e l : insert_by_time e l ≡ₚ e :: l.
Proof.
  induction l as [|x l IH]; simpl; [done|].
  case_bool_decide; [|done]. rewrite IH. apply Permutation_swap.
Qed.

Lemma insert_by_time_sorted e l :
  sorted_by_time l → sorted_by_time (insert_by_time e l).
Proof.
  unfold sorted_by_time. induction 1 as [|x l Hl IH Hx]; simpl.
  - repeat constructor.
  - case_bool_decide as Hlt.
    + constructor; [done|]. rewrite insert_by_time_perm.
      constructor; [lia|done].
    + constructor; [by constructor|]. constructor; [lia|].
      eapply Forall_impl; [done|]. simpl. intros y ?. lia.
Qed.

Lemma insert_by_time_stable e l t :
  filter (λ x, time x = t) (insert_by_time e l)
  = filter (λ x, time x = t) (e :: l).
Proof.
  induction l as [|x l IH]; simpl; [done|].
  case_bool_decide as Hlt; [|done].
  rewrite filter_cons, IH, !filter_cons.
  destruct (decide (time x = t)), (decide (time e = t)); try done.
  exfalso. lia.
Qed.

Lemma sort_by_time_spec l : stable_sort_of l (sort_by_time l).
Proof.
  unfold stable_sort_of, sort_by_time.
  induction l as [|e l (Hs & Hp & Hst)]; simpl.
  - split; [constructor|]. done.
  - split; [by apply insert_by_time_sorted|]. split.
    + by rewrite insert_by_time_perm, Hp.
    + intros t. by rewrite insert_by_time_stable, !filter_cons, Hst.
Qed.

(** ** Loading *)

Lemma read_rows_omap py_int (rows : list (list string)) acc :
  foldl (λ entries row,
           match read_row py_int row with
           | Some e => entries ++ [e]
           | None => entries
           end) acc rows
  = acc ++ omap (read_row py_int) rows.
Proof.
  revert acc. induction rows as [|row rows IH]; intros acc; simpl.
  - by rewrite app_nil_r.
  - rewrite IH. destruct (read_row py_int row); [|done].
    by rewrite <- app_assoc.
Qed.

Lemma read_row_spec py_int row :
  read_row py_int row
  = if spec_row_ok py_int row then Some (spec_row_entry py_int row)
    else None.
Proof.
  unfold read_row, spec_row_ok, spec_row_entry.
  destruct row as [|name [|time_str [|]]]; try done. simpl.
  destruct (py_int time_str) as [n|]; simpl; [|done].
  case_bool_decide as Hpos.
  - rewrite (bool_decide_eq_true_2 (0 < n)) by lia. do 2 f_equal.
    case_bool_decide; lia.
  - rewrite (bool_decide_eq_false_2 (0 < n)) by lia. done.
Qed.

Lemma omap_read_row py_int (rows : list (list string)) :
  omap (read_row py_int) rows
  = spec_row_entry py_int <$> filter (λ row, spec_row_ok py_int row) rows.
Proof.
  induction rows as [|row rows IH]; [done|].
  change (omap (read_row py_int) (row :: rows))
    with (match read_row py_int row with
          | Some e => e :: omap (read_row py_int) rows
          | None => omap (read_row py_int) rows
          end).
  rewrite filter_cons, read_row_spec, IH.
  by destruct (spec_row_ok py_int row).
Qed.

Lemma read_entries_spec py_int (rows : list (list string)) :
  read_entries py_int rows
  = take 5 (sort_by_time
              (spec_row_entry py_int
                 <$> filter (λ row, spec_row_ok py_int row) rows)).
Proof.
  unfold read_entries. by rewrite read_rows_omap, omap_read_row.
Qed.

(** Every entry a row contributes has a name and a time in [1, 999]. *)
Lemma read_row_bounds py_int row e :
  read_row py_int row = Some e →
  1 ≤ time e ≤ 999 ∧ ∃ n, name e = Some n ∧ n ≠ "".
Proof.
  unfold read_row. destruct row as [|name [|time_str [|]]]; try done.
  destruct (py_int time_str) as [n|]; simpl; [|done].
  case_bool_decide; [|done]. intros [= <-]. simpl. split.
  - case_bool_decide; lia.
  - eexists. split; [done|]. by case_bool_decide.
Qed.

Lemma read_entries_bounds py_int (rows : list (list string)) e :
  e ∈ read_entries py_int rows →
  1 ≤ time e ≤ 999 ∧ ∃ n, name e = Some n ∧ n ≠ "".
Proof.
  unfold read_entries. rewrite read_rows_omap. simpl.
  intros Hin%subseteq_take.
  destruct (sort_by_time_spec (omap (read_row py_int) rows))
    as (_ & Hperm & _).
  rewrite Hperm in Hin. apply list_elem_of_omap in Hin as (row & _ & Hrow).
  by apply (read_row_bounds py_int row).
Qed.

(** C7.  Loading a difficulty whose file holds [rows] never fails and
    stores the first five entries of the stable sort by time of the
    entries of the well-formed rows: rows with another number of fields
    than two, with a time that is no integer or with a time that is not
    positive contribute nothing, a time above 999 is stored as 999 and
    an empty name as "Anonymous". *)
Theorem load_leaderboards_spec (py_int : string → option Z)
    (s : Minesweeper) (d : string) (old : list LeaderboardEntry)
    (rows : list (list string)) :
  leaderboards s !! d = Some old →
  files s !! filename d = Some (content rows) →
  ∃ sorted,
    stable_sort_of
      (spec_row_entry py_int <$> filter (λ row, spec_row_ok py_int row) rows)
      sorted
    ∧ leaderboards (load_leaderboards py_int s) !! d = Some (take 5 sorted)
    ∧ (length (take 5 sorted) ≤ 5)%nat
    ∧ sorted_by_time (take 5 sorted)
    ∧ ∀ e, e ∈ take 5 sorted →
        1 ≤ time e ≤ 999 ∧ ∃ n, name e = Some n ∧ n ≠ "".
Proof.
  intros Hold Hfile.
  set (entries := spec_row_entry py_int
                    <$> filter (λ row, spec_row_ok py_int row) rows).
  exists (sort_by_time entries).
  pose proof (sort_by_time_spec entries) as Hsort.
  assert (Hload : leaderboards (load_leaderboards py_int s) !! d
                  = Some (take 5 (sort_by_time entries))).
  { rewrite lookup_load_leaderboards, Hold. simpl. unfold load_one.
    rewrite Hfile. by rewrite read_entries_spec. }
  split; [done|]. split; [done|]. split_and!.
  - rewrite length_take. lia.
  - destruct Hsort as (Hs & _). unfold sorted_by_time in *.
    rewrite <- (take_drop 5 (sort_by_time entries)) in Hs.
    by apply StronglySorted_app_1_l in Hs.
  - intros e He. apply (read_entries_bounds py_int rows).
    by rewrite read_entries_spec.
Qed.

(** A stable sort is determined by its input. *)
Lemma stable_sort_unique l s1 s2 :
  stable_sort_of l s1 → stable_sort_of l s2 → s1 = s2.
Proof.
  intros (Hs1 & _ & Hf1) (Hs2 & _ & Hf2).
  assert (Hf : ∀ t, filter (λ e, time e = t) s1
                    = filter (λ e, time e = t) s2).
  { intros t. by rewrite Hf1, Hf2. }
  clear Hf1 Hf2 l. unfold sorted_by_time in *.
  revert s2 Hs2 Hf. induction Hs1 as [|x s1 Hs1 IH Hx]; intros s2 Hs2 Hf.
  - destruct s2 as [|y s2]; [done|]. specialize (Hf (time y)).
    rewrite filter_nil, filter_cons, decide_True in Hf by done. done.
  - destruct Hs2 as [|y s2 Hs2 Hy].
    { specialize (Hf (time x)).
      rewrite filter_nil, filter_cons, decide_True in Hf by done. done. }
    assert (Hempty : ∀ (z : LeaderboardEntry) s t,
              Forall (λ b, time z ≤ time b) s → t < time z →
              filter (λ e, time e = t) s = []).
    { clear. intros z s t Hall Hlt. induction Hall as [|b s Hb _ IHs];
        [done|].
      rewrite filter_cons, decide_False by lia. done. }
    assert (Heq : time x = time y).
    { destruct (Z.lt_trichotomy (time x) (time y)) as [Hlt|[?|Hlt]];
        [|done|]; exfalso.
      - specialize (Hf (time x)).
        rewrite filter_cons, decide_True in Hf by done.
        rewrite (filter_cons _ y), decide_False in Hf by lia.
        by rewrite (Hempty y s2) in Hf.
      - specialize (Hf (time y)).
        rewrite filter_cons, decide_False in Hf by lia.
        rewrite (filter_cons _ y), decide_True in Hf by done.
        by rewrite (Hempty x s1) in Hf. }
    pose proof (Hf (time x)) as Hhead.
    rewrite filter_cons, decide_True in Hhead by done.
    rewrite (filter_cons _ y), decide_True in Hhead by done.
    injection Hhead as -> Htail. f_equal. apply IH; [done|].
    intros t. destruct (decide (time y = t)) as [<-|Hne]; [done|].
    specialize (Hf t). by rewrite !filter_cons, !decide_False in Hf by done.
Qed.

(** ** Saving *)

Lemma string_length_app (s1 s2 : string) :
  String.length (s1 +:+ s2) = (String.length s1 + String.length s2)%nat.
Proof.
  induction s1 as [|c s1 IH]; [done|].
  change (String c s1 +:+ s2) with (String c (s1 +:+ s2)).
  simpl. by rewrite IH.
Qed.

Lemma filename_inj d1 d2 : filename d1 = filename d2 → d1 = d2.
Proof.
  unfold filename. generalize "_leaderboard.csv". intros suffix.
  revert d2. induction d1 as [|c d1 IH]; intros [|c' d2]; simpl.
  - done.
  - intros H. apply (f_equal String.length) in H.
    change (String c' d2 +:+ suffix) with (String c' (d2 +:+ suffix)) in H.
    rewrite !string_length_app in H. simpl in H.
    rewrite string_length_app in H. lia.
  - intros H. apply (f_equal String.length) in H.
    change (String c d1 +:+ suffix) with (String c (d1 +:+ suffix)) in H.
    rewrite !string_length_app in H. simpl in H.
    rewrite string_length_app in H. lia.
  - change (String c d1 +:+ suffix) with (String c (d1 +:+ suffix)).
    change (String c' d2 +:+ suffix) with (String c' (d2 +:+ suffix)).
    intros [= -> H]. f_equal. by apply IH.
Qed.

Lemma lookup_write_file outcome name rows (fs : gmap string File) x :
  write_file outcome name rows fs !! x
  = if decide (x = name) then after_write outcome rows (fs !! x)
    else fs !! x.
Proof.
  unfold write_file, after_write.
  destruct (decide (x = name)) as [->|Hne].
  - destruct outcome; by rewrite ?lookup_insert_eq.
  - destruct outcome; by rewrite ?lookup_insert_ne.
Qed.

(** The file of a difficulty after the loop of [save_leaderboards]: the
    attempts on the other files do not touch it. *)
Lemma lookup_saved_files (writes : string → list (list string) → WriteOutcome)
    (lbs : gmap string (list LeaderboardEntry)) (fs : gmap string File) d :
  map_fold (λ difficulty entries fs,
              let rows := entry_row <$> entries in
              write_file (writes (filename difficulty) rows)
                (filename difficulty) rows fs)
    fs lbs !! filename d
  = match lbs !! d with
    | Some entries =>
        after_write (writes (filename d) (entry_row <$> entries))
          (entry_row <$> entries) (fs !! filename d)
    | None => fs !! filename d
    end.
Proof.
  apply (map_fold_weak_ind
           (λ r (m : gmap string (list LeaderboardEntry)),
              r !! filename d
              = match m !! d with
                | Some entries =>
                    after_write (writes (filename d) (entry_row <$> entries))
                      (entry_row <$> entries) (fs !! filename d)
                | None => fs !! filename d
                end)).
  - by rewrite lookup_empty.
  - intros i x m r Hi IH. cbn zeta. rewrite lookup_write_file.
    destruct (decide (i = d)) as [->|Hne].
    + rewrite decide_True by done. rewrite lookup_insert_eq.
      rewrite Hi in IH. by rewrite IH.
    + rewrite decide_False; [by rewrite lookup_insert_ne|].
      intros Heq. by apply Hne, filename_inj.
Qed.

(** ** Qualifying for the leaderboard *)

Lemma qualifies_spec entries t :
  (length entries ≤ 5)%nat →
  qualifies entries t = true ↔ spec_qualifies entries t.
Proof.
  intros Hlen. unfold qualifies, spec_qualifies.
  rewrite orb_true_iff, bool_decide_eq_true.
  destruct (decide (length entries < 5)%nat) as [|Hge]; [tauto|].
  assert (Hfive : length entries = 5%nat) by lia.
  rewrite last_lookup, Hfive. simpl.
  destruct (entries !! 4%nat) as [e|] eqn:He.
  - rewrite bool_decide_eq_true. split.
    + intros [?|?]; [lia|]. right. by exists e.
    + intros [?|(e' & [= <-] & ?)]; [lia|]. by right.
  - apply lookup_ge_None in He. lia.
Qed.

(** A qualifying entry survives the truncation to five. *)
Lemma qualifying_entry_kept entries new sorted :
  (length entries ≤ 5)%nat →
  spec_qualifies entries (time new) →
  stable_sort_of (entries ++ [new]) sorted →
  new ∈ take 5 sorted.
Proof.
  intros Hlen Hq (Hs & Hp & _).
  assert (Hnew : new ∈ sorted).
  { rewrite Hp. apply elem_of_app. right. by left. }
  assert (Hlens : length sorted = S (length entries)).
  { rewrite Hp, length_app. simpl. lia. }
  destruct Hq as [Hlt|(e & He & Hlt)].
  { rewrite take_ge by lia. done. }
  assert (Hfive : length entries = 5%nat).
  { apply lookup_lt_Some in He. lia. }
  rewrite <- (take_drop 5 sorted) in Hnew, Hs, Hp.
  apply elem_of_app in Hnew as [?|Hdrop]; [done|]. exfalso.
  assert (He' : e ∈ take 5 sorted ++ drop 5 sorted).
  { rewrite Hp. apply elem_of_app. left.
    by apply list_elem_of_lookup_2 in He. }
  destruct (drop 5 sorted) as [|z [|z' tl]] eqn:Hd.
  - by apply elem_of_nil in Hdrop.
  - apply list_elem_of_singleton in Hdrop as <-.
    apply elem_of_app in He' as [Hin|Hin].
    + unfold sorted_by_time in Hs.
      pose proof (StronglySorted_app_1_elem_of _ _ _ e new Hs Hin) as Hle.
      specialize (Hle ltac:(by left)). simpl in Hle. lia.
    + apply list_elem_of_singleton in Hin as ->. lia.
  - apply (f_equal length) in Hd. rewrite length_drop in Hd.
    simpl in Hd. lia.
Qed.

Lemma load_leaderboards_bounded py_int s d entries :
  boards_bounded s →
  leaderboards (load_leaderboards py_int s) !! d = Some entries →
  (length entries ≤ 5)%nat.
Proof.
  intros Hb. rewrite lookup_load_leaderboards.
  destruct (leaderboards s !! d) as [old|] eqn:Hold; simpl; [|done].
  intros [= <-]. unfold load_one.
  destruct (files s !! filename d) as [[|rows]|].
  - simpl. lia.
  - unfold read_entries. rewrite length_take. lia.
  - by apply (Hb d).
Qed.

(** ** Flags *)

Lemma total_alter {A} (w : A → Z) (f : A → A) (l : list A) i x :
  l !! i = Some x →
  total w (alter f i l) = total w l - w x + w (f x).
Proof.
  revert i. induction l as [|y l IH]; intros i Hi; [done|].
  destruct i as [|i].
  - injection Hi as ->. change (alter f 0%nat (x :: l)) with (f x :: l).
    unfold total. simpl. lia.
  - change (alter f (S i) (y :: l)) with (y :: alter f i l).
    change (total w (y :: alter f i l)) with (w y + total w (alter f i l)).
    change (total w (y :: l)) with (w y + total w l).
    rewrite (IH i Hi). lia.
Qed.

Lemma count_flags_assign f p buttons btn :
  deref buttons p = Some btn →
  count_flags (assign f p buttons)
  = count_flags buttons - is_flagged btn + is_flagged (f btn).
Proof.
  unfold deref, assign, count_flags. intros Hd.
  destruct (buttons !! p.1) as [rw|] eqn:Hrw; simpl in Hd; [|done].
  rewrite (total_alter _ _ _ _ rw Hrw).
  rewrite (total_alter _ _ _ _ btn Hd). lia.
Qed.

Lemma is_flagged_bounds btn : 0 ≤ is_flagged btn ≤ 1.
Proof. unfold is_flagged. case_bool_decide; lia. Qed.

Lemma total_nonneg {A} (w : A → Z) (l : list A) :
  (∀ x, 0 ≤ w x) → 0 ≤ total w l.
Proof.
  intros Hw. induction l as [|x l IH]; simpl; [done|].
  fold (total w l). specialize (Hw x). lia.
Qed.

Lemma count_flags_nonneg buttons : 0 ≤ count_flags buttons.
Proof.
  apply total_nonneg. intros rw. apply total_nonneg.
  intros btn. apply is_flagged_bounds.
Qed.

(** What [toggle_flag] does.  It always returns.  After a game is over
    and on a revealed cell (a disabled button that shows no flag) it
    changes nothing.  On a [normal] button it puts a flag and takes one
    from the counter if the counter is positive, and changes nothing
    otherwise.  On a button showing a flag it removes the flag and gives
    one back to the counter.  The balance between counter and flags is
    kept, so the counter stays between 0 and the number of mines. *)
Lemma toggle_flag_spec (s : Minesweeper) (p : Ref) (btn : FieldButton) :
  deref (buttons s) p = Some btn →
  flags_balanced s →
  ∃ s',
    toggle_flag p s = Some s'
    ∧ flags_balanced s'
    ∧ mines s' = mines s
    ∧ 0 ≤ flags_left s' ≤ mines s'
    ∧ (game_over s = true → s' = s)
    ∧ (state btn = disabled → text btn ≠ text_flag → s' = s)
    ∧ (game_over s = false → state btn = normal → flags_left s ≤ 0 →
         s' = s)
    ∧ (game_over s = false → state btn = normal → 0 < flags_left s →
         flags_left s' = flags_left s - 1
         ∧ deref (buttons s') p
           = Some (config_text text_flag (config_state disabled btn)))
    ∧ (game_over s = false → text btn = text_flag →
         flags_left s' = flags_left s + 1
         ∧ deref (buttons s') p
           = Some (config_text text_empty (config_state normal btn))).
Proof.
  intros Hd Hbal. pose proof Hbal as (Hpos & Hsum & Hdis).
  pose proof (count_flags_nonneg (buttons s)) as Hcnt.
  unfold toggle_flag. destruct (game_over s) eqn:Hover.
  { exists s. split; [done|]. split; [done|]. split; [done|].
    split; [lia|]. by repeat split. }
  rewrite Hd. simpl.
  assert (Hnf : state btn = normal → text btn ≠ text_flag).
  { intros Hn Hf. rewrite (Hdis _ _ Hd Hf) in Hn. done. }
  destruct (bool_decide (state btn = normal)
            && bool_decide (flags_left s > 0)) eqn:Hfirst.
  - apply andb_prop in Hfirst
      as [Hn%bool_decide_eq_true_1 Hfl%bool_decide_eq_true_1].
    eexists. split; [done|].
    assert (Hc : count_flags
                   (assign (λ b, config_text text_flag
                                   (config_state disabled b)) p (buttons s))
                 = count_flags (buttons s) + 1).
    { rewrite (count_flags_assign _ _ _ btn Hd). unfold is_flagged. simpl.
      rewrite (bool_decide_eq_false_2 (text btn = text_flag)) by auto.
      lia. }
    assert (Hbal' : flags_balanced
              (set_buttons
                 (assign (λ b, config_text text_flag
                                 (config_state disabled b)) p (buttons s))
                 (set_flags_left (flags_left s - 1) s))).
    { split; [simpl; lia|]. split; [simpl; lia|]. simpl.
      intros q c. rewrite deref_assign.
      destruct (decide (p = q)) as [<-|Hne]; [|apply Hdis].
      rewrite Hd. simpl. by intros [= <-]. }
    split; [done|]. simpl. split; [done|]. split; [lia|].
    split; [done|]. split.
    { intros Hdisabled. rewrite Hdisabled in Hn. done. }
    split; [intros _ _ ?; lia|]. split.
    + intros _ _ _. split; [done|]. by rewrite deref_assign_eq, Hd.
    + intros _ Hf. by destruct (Hnf Hn).
  - destruct (decide (text btn = text_flag)) as [Hflag|Hflag];
      [rewrite (bool_decide_eq_true_2 (text btn = text_flag)) by done
      |rewrite (bool_decide_eq_false_2 (text btn = text_flag)) by done].
    + eexists. split; [done|].
      assert (Hc : count_flags
                     (assign (λ b, config_text text_empty
                                     (config_state normal b)) p (buttons s))
                   = count_flags (buttons s) - 1).
      { rewrite (count_flags_assign _ _ _ btn Hd). unfold is_flagged. simpl.
        rewrite (bool_decide_eq_true_2 (text btn = text_flag)) by done.
        lia. }
      assert (Hone : 1 ≤ count_flags (buttons s)).
      { pose proof (count_flags_nonneg
                      (assign (λ b, config_text text_empty
                                      (config_state normal b)) p (buttons s))).
        lia. }
      assert (Hbal' : flags_balanced
                (set_buttons
                   (assign (λ b, config_text text_empty
                                   (config_state normal b)) p (buttons s))
                   (set_flags_left (flags_left s + 1) s))).
      { split; [simpl; lia|]. split; [simpl; lia|]. simpl.
        intros q c. rewrite deref_assign.
        destruct (decide (p = q)) as [<-|Hne]; [|apply Hdis].
        rewrite Hd. simpl. by intros [= <-]. }
      split; [done|]. simpl. split; [done|]. split; [lia|].
      split; [done|]. split; [by intros _ ?|].
      split; [intros _ Hn; by destruct (Hnf Hn)|]. split.
      * intros _ Hn. by destruct (Hnf Hn).
      * intros _ _. split; [done|]. by rewrite deref_assign_eq, Hd.
    + exists s. split; [done|]. split; [done|]. split; [done|].
      split; [lia|]. split; [done|]. split; [done|]. split; [done|].
      split.
      * intros _ Hn Hfl. rewrite (bool_decide_eq_true_2 _ Hn) in Hfirst.
        rewrite bool_decide_eq_true_2 in Hfirst by lia. done.
      * intros _ Hf. done.
Qed.

Lemma total_zero {A} (w : A → Z) (l : list A) :
  (∀ x, x ∈ l → w x = 0) → total w l = 0.
Proof.
  induction l as [|x l IH]; intros Hall; [done|].
  change (total w (x :: l)) with (w x + total w l).
  rewrite (Hall x) by (by left).
  rewrite IH; [done|]. intros y ?. apply Hall. by right.
Qed.

Lemma count_flags_none buttons :
  (∀ q btn, deref buttons q = Some btn → text btn ≠ text_flag) →
  count_flags buttons = 0.
Proof.
  intros Hnone. apply total_zero.
  intros rw [i Hi]%list_elem_of_lookup_1. apply total_zero.
  intros btn [j Hj]%list_elem_of_lookup_1. unfold is_flagged.
  rewrite bool_decide_eq_false_2; [done|].
  apply (Hnone (i, j)). unfold deref. simpl. by rewrite Hi.
Qed.

(** A new game starts balanced: all the flags are in the counter. *)
Lemma set_difficulty_balanced h w m s :
  0 ≤ h → 0 ≤ w → 0 ≤ m →
  ∃ s', set_difficulty (h, w, m) s = Some s'
        ∧ flags_balanced s'
        ∧ grid_ok h w (buttons s')
        ∧ height s' = h ∧ width s' = w ∧ mines s' = m
        ∧ flags_left s' = m
        ∧ game_over s' = false.
Proof.
  intros Hh Hw Hm. unfold set_difficulty.
  destruct (setup_grid_spec h w Hh Hw) as (b & -> & Hok & Hq).
  simpl. eexists. split; [done|].
  assert (Hnone : ∀ q btn, deref b q = Some btn → text btn = text_empty).
  { intros q btn Hd. rewrite (Hq q btn Hd). by case_decide. }
  split; [|done]. split; [done|]. simpl. split.
  - rewrite count_flags_none; [lia|].
    intros q btn Hd. by rewrite (Hnone q btn Hd).
  - intros q btn Hd. by rewrite (Hnone q btn Hd).
Qed.

Lemma toggle_flag_frame p s s' :
  toggle_flag p s = Some s' →
  grid_ok (height s) (width s) (buttons s) →
  height s' = height s ∧ width s' = width s
  ∧ grid_ok (height s) (width s) (buttons s').
Proof.
  unfold toggle_flag. destruct (game_over s); [by intros [= <-]|].
  destruct (deref (buttons s) p) as [btn|]; simpl; [|done].
  destruct (_ && _); [|case_bool_decide]; intros [= <-] Hok; simpl;
    try done; (split; [done|]; split; [done|]); by apply grid_ok_assign.
Qed.

(** Any sequence of right clicks on buttons of the grid keeps the
    counter of a balanced game between 0 and the number of mines. *)
Lemma toggle_flags_bounded (ps : list Ref) (s : Minesweeper) :
  flags_balanced s →
  grid_ok (height s) (width s) (buttons s) →
  (∀ p, p ∈ ps → Z.of_nat p.1 < height s + 2 ∧ Z.of_nat p.2 < width s + 2) →
  ∃ s', for_each ps toggle_flag s = Some s'
        ∧ flags_balanced s'
        ∧ mines s' = mines s
        ∧ 0 ≤ flags_left s' ≤ mines s.
Proof.
  revert s. induction ps as [|p ps IH]; intros s Hbal Hok Hin.
  - exists s. split; [done|]. split; [done|]. split; [done|].
    destruct Hbal as (? & Hsum & _).
    pose proof (count_flags_nonneg (buttons s)). lia.
  - destruct (Hin p) as [Hr Hc]; [by left|].
    destruct (button_ref_ok _ _ _ (Z.of_nat p.1) (Z.of_nat p.2) Hok)
      as (_ & btn & Hd & _); [lia|lia|].
    rewrite at_pos_of_nat in Hd.
    destruct (toggle_flag_spec s p btn Hd Hbal)
      as (s1 & Hs1 & Hbal1 & Hm1 & _).
    destruct (toggle_flag_frame _ _ _ Hs1 Hok) as (Hh1 & Hw1 & Hok1).
    destruct (IH s1) as (s' & Hs' & Hbal' & Hm' & Hbd).
    + done.
    + by rewrite Hh1, Hw1.
    + intros q Hq. rewrite Hh1, Hw1. apply Hin. by right.
    + exists s'. simpl. rewrite Hs1. simpl.
      split; [done|]. split; [done|]. split; [congruence|]. by rewrite <- Hm1.
Qed.

(** ** The defects, on concrete games *)

(** Gives the value of [t], computed, as the witness of an existential. *)
Ltac exists_value t :=
  let v := eval vm_compute in t in
  match v with Some ?x => exists x end.

(** C2.  The flood fill marks a flagged cell open.  On the strip, the
    second cell carries a flag and is closed when the flood fill starts
    at the first cell; when it ends the second cell still shows its flag
    and has [is_open] set.  The same happens in the game itself, where
    the player flags the cell and then clicks its neighbour. *)
Theorem reveal_marks_flagged_cell_open :
  (∃ buttons buttons' btn btn',
     strip_grid = Some buttons
     ∧ deref buttons (1, 2)%nat = Some btn
     ∧ text btn = text_flag ∧ is_open btn = false
     ∧ reveal_empty_region 5 1 4 buttons (1, 1)%nat = Some buttons'
     ∧ deref buttons' (1, 2)%nat = Some btn'
     ∧ text btn' = text_flag ∧ is_open btn' = true)
  ∧ (∃ s btn,
       strip_play = Some s
       ∧ game_over s = false
       ∧ deref (buttons s) (1, 2)%nat = Some btn
       ∧ text btn = text_flag ∧ is_open btn = true).
Proof.
  split.
  - exists_value strip_grid.
    exists_value (strip_grid ≫= λ b, reveal_empty_region 5 1 4 b (1, 1)%nat).
    eexists _, _. vm_compute. repeat split.
  - exists_value strip_play. eexists. vm_compute. repeat split.
Qed.

(** C9.  In the game of C2 the second cell has [is_open] set and the
    game is not over, yet a right click on that cell is no no-op: the
    flag goes away and the counter goes from 0 to 1.  The cell is then
    open and without a flag, and a further right click is no no-op
    either: it puts the flag back and takes one from the counter. *)
Theorem toggle_flag_changes_open_cell :
  ∃ s btn s' btn' s'' btn'',
    strip_play = Some s
    ∧ game_over s = false
    ∧ deref (buttons s) (1, 2)%nat = Some btn
    ∧ is_open btn = true ∧ text btn = text_flag
    ∧ flags_left s = 0
    ∧ toggle_flag (1, 2)%nat s = Some s'
    ∧ flags_left s' = 1
    ∧ deref (buttons s') (1, 2)%nat = Some btn'
    ∧ is_open btn' = true ∧ text btn' = text_empty ∧ state btn' = normal
    ∧ toggle_flag (1, 2)%nat s' = Some s''
    ∧ flags_left s'' = 0
    ∧ deref (buttons s'') (1, 2)%nat = Some btn''
    ∧ is_open btn'' = true ∧ text btn'' = text_flag.
Proof.
  exists_value strip_play. eexists.
  exists_value (strip_play ≫= toggle_flag (1, 2)%nat). eexists.
  exists_value ((strip_play ≫= toggle_flag (1, 2)%nat)
                ≫= toggle_flag (1, 2)%nat).
  eexists. vm_compute. repeat split.
Qed.

(** C6.  The time of a win is stored as the clock gives it.  A beginner
    game won after 1000 seconds writes the row ["Ann"; "1000"]; the same
    game won within the first second writes the row ["Ann"; "0"], which
    the reload that follows then drops from the list in memory. *)
Theorem win_time_stored_unclamped :
  (∃ s, corner_win 1000 = Some s
        ∧ game_over s = true
        ∧ files s !! filename "beginner"
          = Some (content [["Ann"; "1000"]])
        ∧ events s = [ev_message "Congratulations!";
                      ev_prompt_name "beginner"; ev_save;
                      ev_leaderboard_window])
  ∧ (∃ s, corner_win 0 = Some s
          ∧ game_over s = true
          ∧ files s !! filename "beginner" = Some (content [["Ann"; "0"]])
          ∧ leaderboards s !! "beginner" = Some []).
Proof.
  split.
  - exists_value (corner_win 1000). vm_compute. repeat split.
  - exists_value (corner_win 0). vm_compute. repeat split.
Qed.

(** C8.  A winning time that qualifies is asked a name for and
    written, but not always entered.  On a new beginner game with no
    leaderboard file the list is empty, so every time qualifies.  A win
    within the first second writes the row ["Ann"; "0"]; the reload that
    shows the leaderboard with the new record drops that row, and the
    time is in no leaderboard.  The same win one second later is
    entered.  The game won by two clicks with the clock at 0 ends in the
    same way. *)
Theorem zero_second_win_not_entered :
  (∃ s,
     new_game ∅ writes_succeed = Some s
     ∧ leaderboards (load_leaderboards decimal_int s) !! "beginner" = Some []
     ∧ spec_qualifies [] 0
     ∧ qualifies [] 0 = true
     ∧ (∃ s',
          update_leaderboard decimal_int (Some "Ann") "beginner" 0 s = Some s'
          ∧ events s'
            = [ev_prompt_name "beginner"; ev_save; ev_leaderboard_window]
          ∧ files s' !! filename "beginner" = Some (content [["Ann"; "0"]])
          ∧ leaderboards s' !! "beginner" = Some [])
     ∧ (∃ s',
          update_leaderboard decimal_int (Some "Ann") "beginner" 1 s = Some s'
          ∧ events s'
            = [ev_prompt_name "beginner"; ev_save; ev_leaderboard_window]
          ∧ files s' !! filename "beginner" = Some (content [["Ann"; "1"]])
          ∧ leaderboards s' !! "beginner"
            = Some [{| name := Some "Ann"; time := 1 |}]))
  ∧ (∃ s, corner_win 0 = Some s
          ∧ game_over s = true
          ∧ events s = [ev_message "Congratulations!";
                        ev_prompt_name "beginner"; ev_save;
                        ev_leaderboard_window]
          ∧ files s !! filename "beginner" = Some (content [["Ann"; "0"]])
          ∧ leaderboards s !! "beginner" = Some []).
Proof.
  split.
  - exists_value (new_game ∅ writes_succeed). split; [reflexivity|].
    split; [vm_compute; reflexivity|]. split; [left; simpl; lia|].
    split; [reflexivity|]. split.
    + exists_value (new_game ∅ writes_succeed
                    ≫= update_leaderboard decimal_int (Some "Ann")
                         "beginner" 0).
      vm_compute. repeat split.
    + exists_value (new_game ∅ writes_succeed
                    ≫= update_leaderboard decimal_int (Some "Ann")
                         "beginner" 1).
      vm_compute. repeat split.
  - exists_value (corner_win 0). vm_compute. repeat split.
Qed.

(** [shuffled_first] is an outcome [random.shuffle] can produce. *)
Lemma shuffled_first_perm (first l : list Z) :
  NoDup first → NoDup l → (∀ n, n ∈ first → n ∈ l) →
  shuffled_first first l ≡ₚ l.
Proof.
  intros Hf Hl Hsub. unfold shuffled_first.
  rewrite <- (filter_elem_of_perm l first Hl Hf Hsub).
  apply (filter_app_complement (λ n, n ∈ first)).
Qed.

(** ** Starting states *)

Lemma initial_boards d l :
  ({[ "beginner" := []; "intermediate" := []; "expert" := [] ]}
     : gmap string (list LeaderboardEntry)) !! d = Some l →
  l = [] ∧ d ∈ difficulties.
Proof.
  unfold difficulties.
  destruct (decide (d = "beginner")) as [->|H1].
  { rewrite lookup_insert_eq. intros [= <-]. split; [done|]. by left. }
  rewrite lookup_insert_ne by done.
  destruct (decide (d = "intermediate")) as [->|H2].
  { rewrite lookup_insert_eq. intros [= <-]. split; [done|].
    right. by left. }
  rewrite lookup_insert_ne by done.
  destruct (decide (d = "expert")) as [->|H3].
  { rewrite lookup_singleton_eq. intros [= <-]. split; [done|].
    right. right. by left. }
  by rewrite lookup_singleton_ne.
Qed.

Lemma new_game_spec (fs : gmap string File)
    (writes : string → list (list string) → WriteOutcome) :
  ∃ s, new_game fs writes = Some s
       ∧ well_formed s ∧ boards_bounded s
       ∧ height s = 9 ∧ width s = 9 ∧ mines s = 15
       ∧ files s = fs ∧ events s = []
       ∧ ∀ d, d ∈ difficulties → leaderboards s !! d = Some [].
Proof.
  unfold new_game.
  destruct (setup_grid_spec 9 9) as (b & Hb & Hok & _); [lia|lia|].
  rewrite Hb.
  cbn [mbind option_bind].
  eexists. split; [reflexivity|].
  assert (Hlb : ∀ d, d ∈ difficulties →
            ({[ "beginner" := []; "intermediate" := []; "expert" := [] ]}
               : gmap string (list LeaderboardEntry)) !! d = Some []).
  { intros d. unfold difficulties.
    rewrite !elem_of_cons, elem_of_nil.
  intros [->|[->|[->|[]]]]; by vm_compute. }
  unfold well_formed, boards_bounded.
  cbn [height width mines files events leaderboards buttons].
  split.
  { split; [lia|]. split; [lia|]. split; [exact Hok|].
    intros d Hd. rewrite (Hlb d Hd). by eexists. }
  split.
  { intros d l Hl.
    apply initial_boards in Hl as [-> _]. simpl. lia. }
  repeat (split; [reflexivity|]). exact Hlb.
Qed.

Lemma set_difficulty_well_formed h w m s :
  0 ≤ h → 0 ≤ w → well_formed s →
  ∃ s', set_difficulty (h, w, m) s = Some s'
        ∧ well_formed s'
        ∧ height s' = h ∧ width s' = w ∧ mines s' = m
        ∧ leaderboards s' = leaderboards s ∧ files s' = files s
        ∧ events s' = events s.
Proof.
  intros Hh Hw (_ & _ & _ & Hlb). unfold set_difficulty.
  destruct (setup_grid_spec h w Hh Hw) as (b & -> & Hok & _).
  simpl. eexists. split; [done|]. split; [|by repeat split].
  unfold well_formed. simpl. by split_and!.
Qed.

(** ** The theorems at concrete inputs *)

Lemma place_mines_exact_witness :
  ∃ start,
    setup_grid 2 3 = Some start
    ∧ (1 ≤ 2 ∧ 1 ≤ 3 ∧ 0 ≤ 2 < 2 * 3 ∧ 1 ≤ 4 ≤ 2 * 3)
    ∧ (∀ l : list Z, reverse l ≡ₚ l)
    ∧ unmined 2 3 start
    ∧ ∃ buttons,
        place_mines reverse 2 3 2 4 start = Some buttons
        ∧ number <$> interior_cells 2 3 buttons = range 1 (2 * 3 + 1)
        ∧ Z.of_nat (length (mine_cells 2 3 buttons)) = 2
        ∧ NoDup (number <$> mine_cells 2 3 buttons)
        ∧ ∀ btn, btn ∈ interior_cells 2 3 buttons →
            number btn = 4 → is_mine btn = false.
Proof.
  destruct (setup_grid_unmined 2 3) as (start & Hs & Hun); [lia|lia|].
  exists start. split; [exact Hs|]. split; [lia|].
  split; [intros l; apply reverse_Permutation|]. split; [exact Hun|].
  apply (place_mines_exact reverse 2 3 2 4 start); [lia|lia|lia|lia| |exact Hun].
  intros l. apply reverse_Permutation.
Defined.

Lemma check_win_iff_witness :
  ∃ s,
    new_game ∅ writes_succeed = Some s
    ∧ well_formed s
    ∧ ∃ s' won,
        check_win decimal_int 0 None s = Some (s', won)
        ∧ (won = true ↔
             safe_cells_open (height s) (width s) (buttons s)
             ∧ no_safe_cell_flagged (height s) (width s) (buttons s))
        ∧ (∀ btn, btn ∈ interior_cells (height s) (width s) (buttons s) →
             is_mine btn = false → is_open btn = false → won = false)
        ∧ (∀ btn, btn ∈ interior_cells (height s) (width s) (buttons s) →
             is_mine btn = false → text btn = text_flag → won = false)
        ∧ (won = false → s' = s)
        ∧ (won = true → game_won decimal_int 0 None s = Some s').
Proof.
  destruct (new_game_spec ∅ writes_succeed) as (s & Hs & Hwf & _).
  exists s. split; [exact Hs|]. split; [exact Hwf|].
  exact (check_win_iff decimal_int 0 None s Hwf).
Defined.

Lemma reveal_terminates_witness :
  ∃ buttons,
    setup_grid 3 3 = Some buttons
    ∧ grid_ok 3 3 buttons
    ∧ is_interior 3 3 (2, 2)%nat
    ∧ ∃ buttons' pushed,
        (∀ fuel, (length pushed < fuel)%nat →
           reveal_trace fuel 3 3 buttons (2, 2)%nat
           = Some (buttons', pushed))
        ∧ (∀ fuel, (fuel ≤ length pushed)%nat →
             reveal_trace fuel 3 3 buttons (2, 2)%nat = None)
        ∧ NoDup pushed
        ∧ (∀ r, r ∈ pushed → is_interior 3 3 r)
        ∧ (∀ r, r ∈ pushed →
             ∃ btn, deref buttons' r = Some btn ∧ is_open btn = true)
        ∧ (length pushed ≤ Z.to_nat (3 * 3))%nat.
Proof.
  destruct (setup_grid_spec 3 3) as (b & Hb & Hok & _); [lia|lia|].
  assert (Hin : is_interior 3 3 (2, 2)%nat).
  { unfold is_interior. simpl. lia. }
  exists b. split; [exact Hb|]. split; [exact Hok|]. split; [exact Hin|].
  exact (reveal_terminates 3 3 b (2, 2)%nat Hok Hin).
Defined.

Lemma calculate_adjacent_mines_counts_witness :
  ∃ start,
    (setup_grid 2 3 ≫= place_mines reverse 2 3 2 4) = Some start
    ∧ (1 ≤ 2 ∧ 1 ≤ 3)
    ∧ grid_ok 2 3 start
    ∧ border_clear 2 3 start
    ∧ ∃ buttons,
        calculate_adjacent_mines 2 3 start = Some buttons
        ∧ (∀ i j, 0 ≤ i < 2 + 2 → 0 ≤ j < 3 + 2 →
             mine_at buttons (i, j) = mine_at start (i, j))
        ∧ ∀ i j, 1 ≤ i ≤ 2 → 1 ≤ j ≤ 3 →
            ∃ btn, cell buttons i j = Some btn
              ∧ (is_mine btn = false →
                   adjacent_mines btn = mines_around buttons i j
                   ∧ 0 ≤ adjacent_mines btn ≤ 8
                   ∧ (border_clear 2 3 start →
                        adjacent_mines btn
                        = interior_mines_around 2 3 buttons i j)).
Proof.
  destruct (setup_grid_unmined 2 3) as (b0 & Hb0 & Hun); [lia|lia|].
  destruct (get_mines_places_spec reverse 2 3 2 4)
    as (M & HM & _); [lia|lia|intros l; apply reverse_Permutation|].
  destruct (place_mines_spec reverse 2 3 2 4 b0 M)
    as (b & Hb & _); [lia|lia|exact (proj1 Hun)|exact HM|].
  destruct (place_mines_border_clear reverse 2 3 2 4 b0 b)
    as [Hok Hclear]; [lia|lia|exact Hun|exact Hb|].
  exists b. split; [rewrite Hb0; exact Hb|]. split; [lia|].
  split; [exact Hok|]. split; [exact Hclear|].
  apply (calculate_adjacent_mines_counts 2 3 b); [lia|lia|exact Hok].
Defined.

Lemma load_leaderboards_spec_witness :
  ∃ s,
    new_game sample_files writes_succeed = Some s
    ∧ leaderboards s !! "beginner" = Some []
    ∧ files s !! filename "beginner" = Some (content sample_rows)
    ∧ ∃ sorted,
        stable_sort_of
          (spec_row_entry decimal_int
             <$> filter (λ row, spec_row_ok decimal_int row) sample_rows)
          sorted
        ∧ leaderboards (load_leaderboards decimal_int s) !! "beginner"
          = Some (take 5 sorted)
        ∧ (length (take 5 sorted) ≤ 5)%nat
        ∧ sorted_by_time (take 5 sorted)
        ∧ ∀ e, e ∈ take 5 sorted →
            1 ≤ time e ≤ 999 ∧ ∃ n, name e = Some n ∧ n ≠ "".
Proof.
  destruct (new_game_spec sample_files writes_succeed)
    as (s & Hs & _ & _ & _ & _ & _ & Hf & _ & Hlb).
  assert (Hold : leaderboards s !! "beginner" = Some []).
  { apply Hlb. unfold difficulties. apply list_elem_of_here. }
  assert (Hfile : files s !! filename "beginner" = Some (content sample_rows)).
  { rewrite Hf. vm_compute. reflexivity. }
  exists s. split; [exact Hs|]. split; [exact Hold|]. split; [exact Hfile|].
  exact (load_leaderboards_spec decimal_int s "beginner" [] sample_rows
           Hold Hfile).
Defined.

Lemma custom_win_keeps_leaderboards_witness :
  ∃ s,
    (new_game sample_files writes_succeed ≫= set_difficulty (2, 2, 1)) = Some s
    ∧ well_formed s
    ∧ (height s, width s, mines s) ≠ BEGINNER_OPTIONS
    ∧ (height s, width s, mines s) ≠ INTERMEDIATE_OPTIONS
    ∧ (height s, width s, mines s) ≠ EXPERT_OPTIONS
    ∧ ∃ s',
        game_won decimal_int 12 (Some "Ann") s = Some s'
        ∧ leaderboards s' = leaderboards s
        ∧ files s' = files s
        ∧ player_name s' = player_name s
        ∧ events s' = events s ++ [ev_message "Congratulations!"].
Proof.
  destruct (new_game_spec sample_files writes_succeed) as (s0 & Hs0 & Hwf0 & _).
  destruct (set_difficulty_well_formed 2 2 1 s0)
    as (s & Hs & Hwf & Hh & Hw & Hm & _); [lia|lia|exact Hwf0|].
  assert (Hsettings : (height s, width s, mines s) = (2, 2, 1)).
  { rewrite Hh, Hw, Hm. reflexivity. }
  assert (Hb : (height s, width s, mines s) ≠ BEGINNER_OPTIONS).
  { rewrite Hsettings. unfold BEGINNER_OPTIONS. intros H. discriminate H. }
  assert (Hi : (height s, width s, mines s) ≠ INTERMEDIATE_OPTIONS).
  { rewrite Hsettings. unfold INTERMEDIATE_OPTIONS. intros H.
    discriminate H. }
  assert (He : (height s, width s, mines s) ≠ EXPERT_OPTIONS).
  { rewrite Hsettings. unfold EXPERT_OPTIONS. intros H. discriminate H. }
  exists s. split; [rewrite Hs0; exact Hs|]. split; [exact Hwf|].
  split; [exact Hb|]. split; [exact Hi|]. split; [exact He|].
  exact (custom_win_keeps_leaderboards decimal_int 12 (Some "Ann") s
           Hwf Hb Hi He).
Defined.

(** ** How the grid changes *)

Lemma evolves_step R f p buttons :
  respects R f → evolves R buttons (assign f p buttons).
Proof. intros Hf. eapply evolves_assign; [done|apply evolves_refl]. Qed.

Lemma evolves_trans R b1 b2 b3 :
  evolves R b1 b2 → evolves R b2 b3 → evolves R b1 b3.
Proof.
  induction 1 as [|b f p b' Hf _ IH]; [done|].
  intros H3. eapply evolves_assign; [done|]. by apply IH.
Qed.

Lemma assign_None f p buttons :
  deref buttons p = None → assign f p buttons = buttons.
Proof.
  unfold deref, assign. intros Hd. apply list_eq. intros r.
  rewrite list_lookup_alter. case_decide as Hr; [|done]. subst r.
  destruct (buttons !! p.1) as [rw|]; simpl in *; [|done]. f_equal.
  apply list_eq. intros c. rewrite list_lookup_alter.
  case_decide as Hc; [|done]. subst c. by rewrite Hd.
Qed.

(** A button is taken to a related button, and no button appears or
    disappears. *)
Lemma evolves_deref R `{!PreOrder R} buttons buttons' q :
  evolves R buttons buttons' →
  match deref buttons q with
  | Some btn => ∃ btn', deref buttons' q = Some btn' ∧ R btn btn'
  | None => deref buttons' q = None
  end.
Proof.
  induction 1 as [b|b f p b' Hf _ IH].
  - destruct (deref b q); [|done]. by eexists.
  - rewrite deref_assign in IH. destruct (deref b q) as [btn|] eqn:Hd.
    + case_decide; simpl in IH.
      * destruct IH as (btn' & Hd' & HR). exists btn'. split; [done|].
        by etrans; [apply Hf|].
      * done.
    + by case_decide.
Qed.

Lemma for_each_evolves {A} R (xs : list A) (body : A → Grid → option Grid) :
  (∀ x b b', body x b = Some b' → evolves R b b') →
  ∀ b b', for_each xs body b = Some b' → evolves R b b'.
Proof.
  intros Hbody. induction xs as [|x xs IH]; intros b b'; simpl.
  - intros [= <-]. apply evolves_refl.
  - destruct (body x b) as [b1|] eqn:Hb; simpl; [|done].
    intros Hrest. eapply evolves_trans; [by eapply Hbody|by apply IH].
Qed.

Lemma for_interior_evolves R height width f buttons buttons' :
  respects R f →
  for_interior height width f buttons = Some buttons' →
  evolves R buttons buttons'.
Proof.
  intros Hf. unfold for_interior. apply for_each_evolves.
  intros i. apply for_each_evolves. intros j b b'.
  destruct (button_ref b i j); simpl; [|done]. intros [= <-].
  by apply evolves_step.
Qed.

Lemma place_mines_evolves R shuffle height width mines exclude
    buttons buttons' :
  respects R (set_is_mine true) →
  place_mines shuffle height width mines exclude buttons = Some buttons' →
  evolves R buttons buttons'.
Proof.
  intros Hf. unfold place_mines.
  destruct (get_mines_places _ _ _ _ _) as [M|]; simpl; [|done].
  apply for_each_evolves. intros i. apply for_each_evolves. intros j b b'.
  destruct (button_ref b i j); simpl; [|done].
  destruct (deref b _); simpl; [|done].
  case_bool_decide; intros [= <-]; [by apply evolves_step|apply evolves_refl].
Qed.

Lemma calculate_adjacent_mines_evolves R height width buttons buttons' :
  (∀ n, respects R (set_adjacent_mines n)) →
  calculate_adjacent_mines height width buttons = Some buttons' →
  evolves R buttons buttons'.
Proof.
  intros Hf. unfold calculate_adjacent_mines.
  apply for_each_evolves. intros i. apply for_each_evolves. intros j b b'.
  destruct (button_ref b i j); simpl; [|done].
  destruct (deref b _) as [btn|]; simpl; [|done].
  destruct (if is_mine btn then _ else _); simpl; [|done].
  intros [= <-]. by apply evolves_step.
Qed.

Lemma reveal_loop_evolves R height width :
  respects R open_button →
  ∀ fuel buttons queue pushed buttons' pushed',
    reveal_loop fuel height width buttons queue pushed
    = Some (buttons', pushed') →
    evolves R buttons buttons'.
Proof.
  intros Hf. induction fuel as [|fuel IH];
    intros buttons queue pushed buttons' pushed' Hrun; [done|].
  simpl in Hrun. destruct (list_pop queue) as [[q0 cur]|].
  - destruct (deref buttons cur) as [cur_btn|]; simpl in Hrun; [|done].
    destruct (if bool_decide (adjacent_mines cur_btn = 0)
              then scan_neighbours height width
                     (assign open_button cur buttons) cur_btn (q0, pushed)
              else Some (q0, pushed)) as [[q1 p1]|]; simpl in Hrun; [|done].
    eapply evolves_assign; [done|]. by eapply IH.
  - injection Hrun as <- <-. apply evolves_refl.
Qed.

Lemma reveal_empty_region_evolves R fuel height width buttons start
    buttons' :
  respects R open_button →
  reveal_empty_region fuel height width buttons start = Some buttons' →
  evolves R buttons buttons'.
Proof.
  intros Hf. unfold reveal_empty_region, reveal_trace.
  destruct (reveal_loop _ _ _ _ _ _) as [[b p]|] eqn:Hrun; simpl; [|done].
  intros [= <-]. by eapply reveal_loop_evolves.
Qed.
Lemma respects_compose R `{!Transitive R} f g :
  respects R f → respects R g → respects R (λ btn, g (f btn)).
Proof. intros Hf Hg btn. by etrans; [apply Hf|apply Hg]. Qed.

#[global] Instance same_cell_preorder : PreOrder same_cell.
Proof.
  split.
  - intros a. unfold same_cell. auto.
  - intros a b c (? & ? & ? & ?) (? & ? & ? & ?).
    unfold same_cell. split_and!; try congruence. auto.
Qed.

#[global] Instance same_mine_preorder : PreOrder same_mine.
Proof.
  split.
  - intros a. split; [reflexivity|done].
  - intros a b c (? & ? & ?) (? & ? & ?). split; [by etrans|].
    split; congruence.
Qed.

#[global] Instance no_new_flag_preorder : PreOrder no_new_flag.
Proof.
  split.
  - intros a. unfold no_new_flag. auto.
  - intros a b c Hab Hbc. unfold no_new_flag in *. auto.
Qed.

Lemma click_closed_same_cell placing : click_closed same_cell placing.
Proof.
  split; try (intros; intros btn; unfold same_cell; simpl; by auto).
  intros btn. unfold open_button, same_cell. case_bool_decide; simpl; auto.
Qed.

Lemma click_closed_same_mine : click_closed same_mine false.
Proof.
  split; try done;
    try (intros; intros btn; unfold same_mine, same_cell; simpl; by auto).
  intros btn. unfold open_button, same_mine, same_cell.
  case_bool_decide; simpl; auto.
Qed.

Lemma click_closed_no_new_flag placing : click_closed no_new_flag placing.
Proof.
  split; try (intros; intros btn; unfold no_new_flag; simpl; by auto).
  intros btn. unfold open_button, no_new_flag.
  case_bool_decide as Hf; simpl.
  - by case_bool_decide.
  - intros _. by destruct (decide (text btn = text_flag)).
Qed.

(** [game_won] changes the grid by disabling buttons only; it leaves the
    dimensions and the flag counter alone and ends the game. *)
Lemma game_won_frame R py_int elapsed typed s s' :
  respects R (config_state disabled) →
  game_won py_int elapsed typed s = Some s' →
  evolves R (buttons s) (buttons s')
  ∧ height s' = height s ∧ width s' = width s ∧ mines s' = mines s
  ∧ flags_left s' = flags_left s
  ∧ is_first_click s' = is_first_click s
  ∧ game_over s' = true.
Proof.
  intros Hf. unfold game_won.
  set (s1 := emit _ (set_game_over true s)).
  assert (Hfin : ∀ s2,
            height s2 = height s → width s2 = width s → mines s2 = mines s →
            buttons s2 = buttons s → flags_left s2 = flags_left s →
            is_first_click s2 = is_first_click s → game_over s2 = true →
            (buttons ← for_interior (height s2) (width s2)
                          (config_state disabled) (buttons s2);
             Some (set_buttons buttons s2)) = Some s' →
            evolves R (buttons s) (buttons s')
            ∧ height s' = height s ∧ width s' = width s ∧ mines s' = mines s
            ∧ flags_left s' = flags_left s
            ∧ is_first_click s' = is_first_click s
            ∧ game_over s' = true).
  { intros s2 Hh Hw Hm Hb Hfl Hfc Hgo.
    destruct (for_interior _ _ _ _) as [b|] eqn:Hloop; simpl; [|done].
    intros [= <-]. simpl. rewrite Hb in Hloop. split; [|done].
    by eapply for_interior_evolves. }
  assert (Hupd : ∀ d s2,
            update_leaderboard py_int typed d elapsed s1 = Some s2 →
            height s2 = height s ∧ width s2 = width s ∧ mines s2 = mines s
            ∧ buttons s2 = buttons s ∧ flags_left s2 = flags_left s
            ∧ is_first_click s2 = is_first_click s ∧ game_over s2 = true).
  { intros d s2 Hs2.
    destruct (update_leaderboard_frame _ _ _ _ _ _ Hs2)
      as (-> & -> & -> & -> & -> & -> & ->). done. }
  repeat case_bool_decide.
  1-3: (destruct (update_leaderboard _ _ _ _ _) as [s2|] eqn:Hs2; simpl;
        [|done];
        destruct (Hupd _ _ Hs2) as (? & ? & ? & ? & ? & ? & ?);
        by apply Hfin).
  by apply (Hfin s1).
Qed.

Lemma game_lost_frame R `{!Transitive R} button s s' :
  respects R (config_state disabled) →
  respects R (config_text text_mine) →
  game_lost button s = Some s' →
  evolves R (buttons s) (buttons s')
  ∧ height s' = height s ∧ width s' = width s ∧ mines s' = mines s
  ∧ flags_left s' = flags_left s
  ∧ is_first_click s' = is_first_click s
  ∧ leaderboards s' = leaderboards s ∧ files s' = files s
  ∧ events s' = events s ++ [ev_message "Game Over"]
  ∧ game_over s' = true.
Proof.
  intros Hd Hm. unfold game_lost. simpl.
  destruct (for_interior _ _ _ _) as [b|] eqn:Hloop; simpl; [|done].
  intros [= <-]. simpl. split; [|done].
  eapply evolves_assign; [exact Hm|].
  eapply for_interior_evolves; [|done].
  intros btn. destruct (is_mine btn); [|apply Hd].
  by etrans; [apply Hm|apply Hd].
Qed.

Lemma for_return_value {A R} (P : R → Prop) (xs : list A)
    (body : A → option (option R)) v :
  (∀ x v, body x = Some (Some v) → P v) →
  for_return xs body = Some (Some v) → P v.
Proof.
  intros Hbody. induction xs as [|x xs IH]; simpl; [done|].
  destruct (body x) as [[v'|]|] eqn:Hb; simpl; [|done|done].
  intros [= <-]. by eapply Hbody.
Qed.

(** The scan of [check_win] returns nothing but [False]. *)
Lemma check_win_scan_false height width buttons v :
  check_win_scan height width buttons = Some (Some v) → v = false.
Proof.
  unfold check_win_scan. apply (for_return_value (λ v, v = false)).
  intros i v'. apply (for_return_value (λ v, v = false)).
  intros j v''. destruct (cell buttons i j) as [btn|]; simpl; [|done].
  by destruct (blocks_win btn); intros [= <-].
Qed.

Lemma check_win_frame R py_int elapsed typed s s' won :
  respects R (config_state disabled) →
  check_win py_int elapsed typed s = Some (s', won) →
  evolves R (buttons s) (buttons s')
  ∧ height s' = height s ∧ width s' = width s ∧ mines s' = mines s
  ∧ flags_left s' = flags_left s
  ∧ is_first_click s' = is_first_click s
  ∧ (won = true → game_over s' = true)
  ∧ (won = false → s' = s).
Proof.
  intros Hf. unfold check_win.
  destruct (check_win_scan _ _ _) as [[v|]|] eqn:Hscan; simpl; [| |done].
  - apply check_win_scan_false in Hscan as ->.
    intros [= <- <-]. split; [apply evolves_refl|]. by repeat split.
  - destruct (game_won py_int elapsed typed s) as [s1|] eqn:Hwon;
      simpl; [|done].
    intros [= <- <-].
    destruct (game_won_frame R _ _ _ _ _ Hf Hwon)
      as (? & ? & ? & ? & ? & ? & ?).
    by repeat split.
Qed.

(** A left click changes the grid by the assignments [click_closed]
    lists and leaves the dimensions, the number of mines and the flag
    counter alone. *)
Lemma handle_click_frame R `{!PreOrder R} py_int fuel shuffle elapsed typed
    button s s' :
  click_closed R (is_first_click s) →
  handle_click py_int fuel shuffle elapsed typed button s = Some s' →
  evolves R (buttons s) (buttons s')
  ∧ height s' = height s ∧ width s' = width s ∧ mines s' = mines s
  ∧ flags_left s' = flags_left s
  ∧ (game_over s = false → is_first_click s' = false).
Proof.
  intros Hcc. unfold handle_click.
  destruct (game_over s) eqn:Hover.
  { intros [= <-]. split; [apply evolves_refl|]. by repeat split. }
  destruct (if is_first_click s then _ else Some s) as [s1|] eqn:Hfirst;
    simpl; [|done].
  assert (H1 : evolves R (buttons s) (buttons s1)
               ∧ height s1 = height s ∧ width s1 = width s
               ∧ mines s1 = mines s ∧ flags_left s1 = flags_left s
               ∧ is_first_click s1 = false).
  { destruct (is_first_click s) eqn:Hfc.
    - destruct (deref (buttons s) button) as [btn0|]; simpl in Hfirst;
        [|done].
      destruct (place_mines _ _ _ _ _ _) as [b1|] eqn:Hplace;
        simpl in Hfirst; [|done].
      destruct (calculate_adjacent_mines _ _ _) as [b2|] eqn:Hcalc;
        simpl in Hfirst; [|done].
      injection Hfirst as <-. simpl. split; [|done].
      eapply evolves_trans.
      + eapply place_mines_evolves; [|done]. by apply (cc_mine R true).
      + eapply calculate_adjacent_mines_evolves; [|done].
        by apply (cc_count R true).
    - injection Hfirst as <-. split; [apply evolves_refl|]. by repeat split. }
  destruct H1 as (Hev1 & Hh1 & Hw1 & Hm1 & Hfl1 & Hfc1).
  destruct (deref (buttons s1) button) as [btn|]; simpl; [|done].
  destruct (is_mine btn).
  - intros Hlost.
    destruct (game_lost_frame R _ _ _ (cc_state _ _ Hcc) (cc_mark _ _ Hcc)
                Hlost) as (Hev & -> & -> & -> & -> & -> & _).
    split; [by eapply evolves_trans|]. by repeat split.
  - destruct (if bool_decide (adjacent_mines btn ≠ 0) then _ else _)
      as [b2|] eqn:Hrev; simpl; [|done].
    destruct (check_win _ _ _ _) as [[s2 won]|] eqn:Hcheck; simpl; [|done].
    intros [= <-].
    destruct (check_win_frame R _ _ _ _ _ _ (cc_state _ _ Hcc) Hcheck)
      as (Hev2 & -> & -> & -> & -> & -> & _). simpl in *.
    split; [|by repeat split].
    eapply evolves_trans; [exact Hev1|].
    eapply evolves_trans; [|exact Hev2].
    eapply evolves_trans; [|apply evolves_step, (cc_state _ _ Hcc)].
    case_bool_decide.
    + injection Hrev as <-.
      eapply evolves_trans; apply evolves_step;
        [apply (cc_number _ _ Hcc)|apply (cc_is_open _ _ Hcc)].
    + eapply reveal_empty_region_evolves; [|done]. apply (cc_open _ _ Hcc).
Qed.
(** ** The cascade *)

Lemma elem_of_around i j r :
  r ∈ around i j ↔
  ∃ dx dy, -1 ≤ dx ≤ 1 ∧ -1 ≤ dy ≤ 1 ∧ r = at_pos (i + dx) (j + dy).
Proof.
  unfold around. rewrite list_elem_of_fmap. split.
  - intros ([dx dy] & -> & Hd). apply list_elem_of_cprod in Hd as [H1 H2].
    apply elem_of_offsets in H1, H2. simpl in *. by exists dx, dy.
  - intros (dx & dy & Hdx & Hdy & ->). exists (dx, dy). split; [done|].
    apply list_elem_of_cprod. simpl. unfold offsets.
    rewrite !elem_of_cons. lia.
Qed.

(** The neighbour scan in full: besides what [scan_neighbours_spec]
    says, the appended cells lie around the popped one, and every cell
    around it is open, outside the playing field, or in the work list
    afterwards. *)
Lemma scan_neighbours_full height width buttons cur_btn queue pushed :
  grid_ok height width buttons →
  1 ≤ row cur_btn ≤ height → 1 ≤ col cur_btn ≤ width →
  ∃ new,
    scan_neighbours height width buttons cur_btn (queue, pushed)
    = Some (queue ++ new, pushed ++ new)
    ∧ (∀ r, r ∈ new →
         r ∈ around (row cur_btn) (col cur_btn)
         ∧ ∃ btn, deref buttons r = Some btn ∧ is_open btn = false)
    ∧ ∀ n, n ∈ around (row cur_btn) (col cur_btn) →
        ∃ btn, deref buttons n = Some btn
          ∧ (is_open btn = true ∨ ¬ is_interior height width n
             ∨ n ∈ queue ++ new).
Proof.
  intros Hok Hrow Hcol. unfold scan_neighbours.
  rewrite (for_each_nested offsets offsets
             (λ dx dy '(queue, pushed),
                next ← button_ref buttons (row cur_btn + dx)
                         (col cur_btn + dy);
                next_btn ← deref buttons next;
                if negb (is_open next_btn)
                   && bool_decide (1 ≤ row next_btn ≤ height)
                   && bool_decide (1 ≤ col next_btn ≤ width)
                   && bool_decide (next ∉ queue)
                then Some (queue ++ [next], pushed ++ [next])
                else Some (queue, pushed))).
  set (ref_of := λ d : Z * Z, at_pos (row cur_btn + d.1) (col cur_btn + d.2)).
  destruct (for_each_invariant
    (λ (visited : list (Z * Z)) (st : list Ref * list Ref),
       ∃ new, st = (queue ++ new, pushed ++ new)
         ∧ (∀ r, r ∈ new →
              r ∈ ref_of <$> visited
              ∧ ∃ btn, deref buttons r = Some btn ∧ is_open btn = false)
         ∧ ∀ d, d ∈ visited →
             ∃ btn, deref buttons (ref_of d) = Some btn
               ∧ (is_open btn = true
                  ∨ ¬ is_interior height width (ref_of d)
                  ∨ ref_of d ∈ queue ++ new))
    (cprod offsets offsets)
    (λ p '(queue, pushed),
       next ← button_ref buttons (row cur_btn + p.1) (col cur_btn + p.2);
       next_btn ← deref buttons next;
       if negb (is_open next_btn)
          && bool_decide (1 ≤ row next_btn ≤ height)
          && bool_decide (1 ≤ col next_btn ≤ width)
          && bool_decide (next ∉ queue)
       then Some (queue ++ [next], pushed ++ [next])
       else Some (queue, pushed))
    (queue, pushed)) as (st & Hst & new & -> & Hnear & Hcover).
  - exists []. rewrite !app_nil_r. split; [done|].
    split; [by intros r ?%elem_of_nil|by intros d ?%elem_of_nil].
  - intros visited [dx dy] rest st Hsplit (new & -> & Hnear & Hcover).
    assert (Hd : (dx, dy) ∈ cprod offsets offsets).
    { rewrite Hsplit. apply elem_of_app. right. by left. }
    apply list_elem_of_cprod in Hd as [Hdx%elem_of_offsets Hdy%elem_of_offsets].
    simpl in *.
    destruct (button_ref_ok _ _ _ (row cur_btn + dx) (col cur_btn + dy) Hok)
      as (-> & next_btn & Hnb & Hnr & Hnc); [lia|lia|].
    simpl. rewrite Hnb. simpl.
    change (at_pos (row cur_btn + dx) (col cur_btn + dy))
      with (ref_of (dx, dy)) in *.
    set (next := ref_of (dx, dy)) in *.
    assert (Hint : is_interior height width next
                   ↔ 1 ≤ row next_btn ≤ height ∧ 1 ≤ col next_btn ≤ width).
    { unfold is_interior, next, ref_of, at_pos. simpl. lia. }
    destruct (negb (is_open next_btn)
              && bool_decide (1 ≤ row next_btn ≤ height)
              && bool_decide (1 ≤ col next_btn ≤ width)
              && bool_decide (next ∉ queue ++ new)) eqn:Hcond.
    + eexists. split; [done|]. exists (new ++ [next]).
      rewrite !app_assoc. split; [done|]. split.
      * intros r [Hr|Hr]%elem_of_app; rewrite fmap_app, elem_of_app.
        -- destruct (Hnear r Hr) as [? ?]. split; [by left|done].
        -- apply list_elem_of_singleton in Hr as ->. split.
           ++ right. simpl. by left.
           ++ exists next_btn. split; [done|].
              destruct (is_open next_btn); [done|done].
      * intros d [Hdv|Hdv]%elem_of_app.
        -- destruct (Hcover d Hdv) as (btn & Hb & Hc). exists btn.
           split; [done|]. destruct Hc as [?|[?|Hin]]; [by left|by right; left|].
           right. right. rewrite <- app_assoc, elem_of_app.
           rewrite elem_of_app in Hin. rewrite (elem_of_app new).
           tauto.
        -- apply list_elem_of_singleton in Hdv as ->. exists next_btn.
           split; [done|]. right. right.
           rewrite !elem_of_app, list_elem_of_singleton. tauto.
    + eexists. split; [done|]. exists new. split; [done|]. split.
      * intros r Hr. rewrite fmap_app, elem_of_app.
        destruct (Hnear r Hr) as [? ?]. split; [by left|done].
      * intros d [Hdv|Hdv]%elem_of_app; [by apply Hcover|].
        apply list_elem_of_singleton in Hdv as ->. exists next_btn.
        split; [done|].
        apply andb_false_iff in Hcond as [Hcond|Hq].
        2: { apply bool_decide_eq_false_1 in Hq. right. right.
             by destruct (decide (next ∈ queue ++ new)). }
        apply andb_false_iff in Hcond as [Hcond|Hc].
        2: { apply bool_decide_eq_false_1 in Hc. right. left.
             intros Hi. apply Hint in Hi. tauto. }
        apply andb_false_iff in Hcond as [Hop|Hr].
        { left. by destruct (is_open next_btn). }
        apply bool_decide_eq_false_1 in Hr. right. left.
        intros Hi. apply Hint in Hi. tauto.
  - exists new. split; [done|]. split; [done|].
    intros n (d & -> & Hd)%list_elem_of_fmap. by apply Hcover.
Qed.

Lemma fill_inv_init height width buttons start :
  grid_ok height width buttons → is_interior height width start →
  fill_inv height width buttons start buttons [start] [start].
Proof.
  intros Hok Hstart. split.
  - by apply reveal_inv_init.
  - intros q. case_decide as Hq; [tauto|]. by rewrite option_fmap_id.
  - intros r ->%list_elem_of_singleton Hne. done.
  - tauto.
Qed.

Lemma fill_inv_step height width start_grid start buttons queue cur pushed :
  fill_inv height width start_grid start buttons (queue ++ [cur]) pushed →
  ∃ cur_btn new,
    deref buttons cur = Some cur_btn
    ∧ (if bool_decide (adjacent_mines cur_btn = 0)
       then scan_neighbours height width (assign open_button cur buttons)
              cur_btn (queue, pushed)
       else Some (queue, pushed))
      = Some (queue ++ new, pushed ++ new)
    ∧ fill_inv height width start_grid start
        (assign open_button cur buttons) (queue ++ new) (pushed ++ new).
Proof.
  intros [Hbase Hframe Horigin Hclosed].
  destruct (reveal_inv_step _ _ _ _ _ _ Hbase)
    as (cur_btn & new & Hcur & Hscan & Hbase').
  exists cur_btn, new. split; [done|]. split; [done|].
  assert (Hcp : cur ∈ pushed).
  { apply (inv_pending _ _ _ _ _ Hbase), elem_of_app. right. by left. }
  assert (Hcq : cur ∉ queue).
  { pose proof (inv_queue _ _ _ _ _ Hbase) as Hnd.
    apply NoDup_app in Hnd as (_ & Hnd & _). intros Hin.
    apply (Hnd _ Hin). by left. }
  assert (Hnp : ∀ r, r ∈ new → r ∉ pushed).
  { pose proof (inv_pushed _ _ _ _ _ Hbase') as Hnd.
    apply NoDup_app in Hnd as (_ & Hnd & _). intros r Hr Hin.
    by apply (Hnd _ Hin). }
  assert (Hcur0 : deref start_grid cur = Some cur_btn).
  { pose proof (Hframe cur) as Hf. rewrite Hcur in Hf.
    destruct (decide (cur ∈ pushed ∧ cur ∉ queue ++ [cur])) as [Hd|Hd].
    - destruct Hd as [_ Hd]. exfalso. apply Hd, elem_of_app. right. by left.
    - by rewrite option_fmap_id in Hf. }
  assert (Hpop : ∀ q, (q ∈ pushed ++ new ∧ q ∉ queue ++ new)
                      ↔ (q ∈ pushed ∧ q ∉ queue ++ [cur]) ∨ q = cur).
  { intros q. rewrite !elem_of_app, list_elem_of_singleton.
    destruct (decide (q = cur)) as [->|Hne].
    - split; [by right|]. intros _. split; [by left|].
      intros [?|Hin]; [done|]. by apply (Hnp _ Hin).
    - split.
      + intros [[Hin|Hin] Hout]; [|tauto]. left. split; [done|]. tauto.
      + intros [[Hin Hout]|?]; [|done]. split; [by left|].
        intros [?|Hn]; [tauto|]. by apply (Hnp _ Hn). }
  assert (Hrc : 1 ≤ row cur_btn ≤ height ∧ 1 ≤ col cur_btn ≤ width).
  { pose proof (inv_interior _ _ _ _ _ Hbase _ Hcp) as Hi.
    destruct (deref_interior _ _ _ _ (inv_grid _ _ _ _ _ Hbase) Hi)
      as (btn & Hb & Hr & Hc).
    rewrite Hcur in Hb. injection Hb as <-. unfold is_interior in Hi. lia. }
  assert (Hnew : (adjacent_mines cur_btn = 0
                  ∧ (∀ r, r ∈ new →
                       r ∈ around (row cur_btn) (col cur_btn)
                       ∧ ∃ btn, deref (assign open_button cur buttons) r
                                = Some btn ∧ is_open btn = false)
                  ∧ ∀ n, n ∈ around (row cur_btn) (col cur_btn) →
                      ∃ btn, deref (assign open_button cur buttons) n
                             = Some btn
                        ∧ (is_open btn = true ∨ ¬ is_interior height width n
                           ∨ n ∈ queue ++ new))
                 ∨ (adjacent_mines cur_btn ≠ 0 ∧ new = [])).
  { case_bool_decide as Hz.
    - left. split; [done|].
      destruct (scan_neighbours_full height width
                  (assign open_button cur buttons) cur_btn queue pushed)
        as (new' & Hscan' & Hnear & Hcover);
        [apply (inv_grid _ _ _ _ _ Hbase')|tauto|tauto|].
      rewrite Hscan in Hscan'. injection Hscan' as Hq _.
      apply app_inv_head in Hq as <-. done.
    - right. split; [done|]. injection Hscan as Hq _.
      rewrite <- (app_nil_r queue) in Hq at 1.
      by apply app_inv_head in Hq. }
  split.
  - done.
  - intros q. rewrite deref_assign.
    destruct (decide (cur = q)) as [<-|Hne].
    + rewrite Hcur, Hcur0. rewrite decide_True; [done|].
      apply Hpop. by right.
    + rewrite Hframe.
      destruct (decide (q ∈ pushed ∧ q ∉ queue ++ [cur])) as [Hd|Hd].
      * rewrite decide_True; [done|]. apply Hpop. by left.
      * rewrite decide_False; [done|]. rewrite Hpop. intros [?|?]; [done|].
        by apply Hne.
  - intros r [Hr|Hr]%elem_of_app Hne.
    + destruct (Horigin r Hr Hne) as (Hcl & r0 & btn0 & H1 & H2 & H3 & H4 & H5).
      split; [done|]. exists r0, btn0. split_and!; [|..|done|done|done].
      * apply elem_of_app. by left.
      * by destruct (proj2 (Hpop r0)) as [_ ?]; [left|].
    + destruct Hnew as [(Hz & Hnear & _)|[_ ->]]; [|by apply elem_of_nil in Hr].
      split.
      * pose proof (Hframe r) as Hf. rewrite decide_False in Hf.
        2: { intros [Hin _]. by apply (Hnp _ Hr). }
        rewrite option_fmap_id in Hf. rewrite <- Hf.
        assert (Hrn : cur ≠ r) by (intros <-; by apply (Hnp _ Hr)).
        destruct (Hnear r Hr) as (_ & btn & Hb & Hop).
        rewrite deref_assign_ne in Hb by done. by exists btn.
      * exists cur, cur_btn. split_and!; [| |done|done|by apply Hnear].
        -- apply elem_of_app. by left.
        -- by destruct (proj2 (Hpop cur)) as [_ ?]; [right|].
  - intros r0 btn0 n Hr0 Hr0q Hd0 Hz Hn Hint.
    assert (Hp : (r0 ∈ pushed ∧ r0 ∉ queue ++ [cur]) ∨ r0 = cur).
    { by apply (proj1 (Hpop r0)). }
    destruct Hp as [[Hin Hout]|Heq].
    + destruct (Hclosed r0 btn0 n Hin Hout Hd0 Hz Hn Hint) as [?|?];
        [left; apply elem_of_app; by left|by right].
    + subst r0. rewrite Hcur0 in Hd0. injection Hd0 as <-.
      destruct Hnew as [(_ & _ & Hcover)|[? _]]; [|done].
      destruct (Hcover n Hn) as (btn & Hb & [Hop|[?|Hin]]); [|done|].
      * rewrite deref_assign in Hb.
        destruct (decide (cur = n)) as [<-|Hne].
        { left. apply elem_of_app. by left. }
        rewrite Hframe in Hb.
        destruct (decide (n ∈ pushed ∧ n ∉ queue ++ [cur])) as [Hd|Hd].
        -- left. apply elem_of_app. left. tauto.
        -- rewrite option_fmap_id in Hb. right. by exists btn.
      * left. rewrite elem_of_app in Hin. rewrite elem_of_app.
        destruct Hin as [Hin|Hin]; [|by right]. left.
        apply (inv_pending _ _ _ _ _ Hbase), elem_of_app. by left.
Qed.

(** The loop keeps [fill_inv], and with it every property [P] of the
    record of appended cells that survives one round. *)
Lemma fill_loop_invariant height width start_grid start
    (P : list Ref → Prop) :
  (∀ buttons queue pushed new,
     fill_inv height width start_grid start buttons
       (queue ++ new) (pushed ++ new) →
     P pushed → P (pushed ++ new)) →
  ∀ fuel buttons queue pushed buttons' pushed',
    fill_inv height width start_grid start buttons queue pushed →
    P pushed →
    reveal_loop fuel height width buttons queue pushed
    = Some (buttons', pushed') →
    fill_inv height width start_grid start buttons' [] pushed' ∧ P pushed'.
Proof.
  intros Hstep. induction fuel as [|fuel IH];
    intros buttons queue pushed buttons' pushed' Hinv HP Hrun; [done|].
  simpl in Hrun.
  destruct (list_pop queue) as [[q0 cur]|] eqn:Hpop.
  - apply list_pop_Some in Hpop as Hq. subst queue.
    destruct (fill_inv_step _ _ _ _ _ _ _ _ Hinv)
      as (cur_btn & new & Hd & Hscan & Hinv1).
    rewrite Hd in Hrun. simpl in Hrun. rewrite Hscan in Hrun.
    simpl in Hrun. eapply IH; [done| |done]. by eapply Hstep.
  - apply list_pop_None in Hpop as ->. by injection Hrun as <- <-.
Qed.

Lemma reveal_trace_fill fuel height width buttons start buttons' pushed :
  grid_ok height width buttons → is_interior height width start →
  reveal_trace fuel height width buttons start = Some (buttons', pushed) →
  fill_inv height width buttons start buttons' [] pushed ∧ start ∈ pushed.
Proof.
  intros Hok Hstart Hrun. unfold reveal_trace in Hrun.
  pose proof (fill_inv_init _ _ _ _ Hok Hstart) as Hinit.
  destruct (fill_loop_invariant height width buttons start (λ _, True)
              ltac:(done) _ _ _ _ _ _ Hinit I Hrun) as [Hfin _].
  split; [done|].
  destruct (reveal_loop_result _ _ _ _ _ _ _ _
              (fill_base _ _ _ _ _ _ _ Hinit) Hrun) as (_ & Hpre & _).
  destruct Hpre as [rest ->]. by left.
Qed.

(** What the flood fill leaves behind, read off the invariant at the
    end of the loop. *)
Lemma reveal_trace_frame fuel height width buttons start buttons' pushed :
  grid_ok height width buttons → is_interior height width start →
  reveal_trace fuel height width buttons start = Some (buttons', pushed) →
  ∀ q, deref buttons' q
       = (if decide (q ∈ pushed) then open_button else id)
           <$> deref buttons q.
Proof.
  intros Hok Hstart Hrun q.
  destruct (reveal_trace_fill _ _ _ _ _ _ _ Hok Hstart Hrun) as [Hfin _].
  rewrite (fill_frame _ _ _ _ _ _ _ Hfin).
  destruct (decide (q ∈ pushed)) as [Hq|Hq].
  - rewrite decide_True; [done|]. split; [done|]. by intros ?%elem_of_nil.
  - rewrite decide_False; [done|]. tauto.
Qed.

(** When counts of 0 are truthful and the start holds no mine, no cell
    with a mine enters the work list. *)
Lemma reveal_trace_safe fuel height width buttons start start_btn
    buttons' pushed :
  grid_ok height width buttons → is_interior height width start →
  zero_safe height width buttons →
  deref buttons start = Some start_btn → is_mine start_btn = false →
  reveal_trace fuel height width buttons start = Some (buttons', pushed) →
  ∀ r, r ∈ pushed →
    ∃ btn, deref buttons r = Some btn ∧ is_mine btn = false.
Proof.
  intros Hok Hstart Hsafe Hsb Hsm Hrun. unfold reveal_trace in Hrun.
  pose proof (fill_inv_init _ _ _ _ Hok Hstart) as Hinit.
  refine (proj2 (fill_loop_invariant height width buttons start
            (λ pushed, ∀ r, r ∈ pushed →
               ∃ btn, deref buttons r = Some btn ∧ is_mine btn = false)
            _ _ _ _ _ _ _ Hinit _ Hrun)).
  - intros b queue pushed0 new Hinv HP r [Hr|Hr]%elem_of_app; [by apply HP|].
    destruct (decide (r = start)) as [->|Hne]; [by exists start_btn|].
    destruct (fill_origin _ _ _ _ _ _ _ Hinv r) as
      ((btn & Hb & _) & r0 & btn0 & Hr0 & Hr0q & Hb0 & Hz & Haround);
      [apply elem_of_app; by right|done|].
    assert (Hr0p : r0 ∈ pushed0).
    { apply elem_of_app in Hr0 as [?|Hn]; [done|]. exfalso.
      apply Hr0q, elem_of_app. by right. }
    destruct (HP r0 Hr0p) as (btn0' & Hb0' & Hm0).
    rewrite Hb0 in Hb0'. injection Hb0' as <-.
    exists btn. split; [done|].
    eapply (Hsafe r0 btn0 r btn); try done.
    apply (inv_interior _ _ _ _ _ (fill_base _ _ _ _ _ _ _ Hinv)).
    apply elem_of_app. by left.
  - intros r ->%list_elem_of_singleton. by exists start_btn.
Qed.

Lemma elem_of_neighbours8_2 i j dx dy :
  -1 ≤ dx ≤ 1 → -1 ≤ dy ≤ 1 → (dx, dy) ≠ (0, 0) →
  (i + dx, j + dy) ∈ neighbours8 i j.
Proof.
  intros Hdx Hdy Hne. unfold neighbours8. apply list_elem_of_fmap.
  exists (dx, dy). split; [done|]. rewrite !elem_of_cons.
  assert (Hx : dx = -1 ∨ dx = 0 ∨ dx = 1) by lia.
  assert (Hy : dy = -1 ∨ dy = 0 ∨ dy = 1) by lia.
  destruct Hx as [-> | [-> | ->]], Hy as [-> | [-> | ->]]; tauto.
Qed.

Lemma count_mines_zero buttons ps p :
  count_mines buttons ps = 0 → p ∈ ps → mine_at buttons p = false.
Proof.
  unfold count_mines. intros Hz Hp.
  destruct (mine_at buttons p) eqn:Hm; [|done].
  assert (Hin : p ∈ filter (λ p, mine_at buttons p = true) ps).
  { by apply list_elem_of_filter. }
  destruct (filter _ ps); [by apply elem_of_nil in Hin|]. simpl in Hz. lia.
Qed.

(** The counts [calculate_adjacent_mines] stores are truthful where
    they are 0. *)
Lemma calculate_adjacent_mines_zero_safe height width start buttons :
  0 ≤ height → 0 ≤ width → grid_ok height width start →
  calculate_adjacent_mines height width start = Some buttons →
  zero_safe height width buttons.
Proof.
  intros Hh Hw Hok Hcalc.
  destruct (calculate_adjacent_mines_spec _ _ _ Hh Hw Hok)
    as (b & Hb & Hok' & Hd).
  rewrite Hcalc in Hb. injection Hb as <-.
  intros r btn n btn' Hint Hr Hmine Hz Hn Hnb.
  rewrite Hd, decide_True in Hr by done.
  destruct (deref start r) as [btn0|] eqn:Hr0; [|done].
  injection Hr as <-. unfold adjacency_of in *. simpl in *.
  rewrite Hmine in Hz.
  apply elem_of_around in Hn as (dx & dy & Hdx & Hdy & ->).
  destruct (deref_interior _ _ _ _ Hok Hint) as (btn1 & Hb1 & Hrow & Hcol).
  rewrite Hr0 in Hb1. injection Hb1 as <-.
  unfold is_interior in Hint.
  destruct (mine_at_deref height width start (row btn0 + dx) (col btn0 + dy)
              Hok) as (nb & Hnb0 & _ & Hma); [lia|lia|].
  rewrite Hd, Hnb0 in Hnb.
  assert (Hnm : is_mine btn' = is_mine nb).
  { case_decide; simpl in Hnb; injection Hnb as <-; done. }
  rewrite Hnm.
  destruct (decide ((dx, dy) = (0, 0))) as [Heq|Hne].
  - injection Heq as -> ->. rewrite !Z.add_0_r in Hnb0.
    rewrite Hrow, Hcol in Hnb0.
    unfold at_pos in Hnb0. rewrite !Nat2Z.id in Hnb0.
    replace (r.1, r.2) with r in Hnb0 by by destruct r.
    rewrite Hr0 in Hnb0. by injection Hnb0 as <-.
  - rewrite <- Hma. rewrite <- Hrow, <- Hcol in Hz.
    eapply count_mines_zero; [exact Hz|]. by apply elem_of_neighbours8_2.
Qed.

(** ** What an action leaves alone *)

#[global] Instance same_open_preorder : PreOrder same_open.
Proof.
  split.
  - intros a. split; [reflexivity|done].
  - intros a b c [? ?] [? ?]. split; [by etrans|congruence].
Qed.

#[global] Instance stays_disabled_preorder : PreOrder stays_disabled.
Proof.
  split.
  - intros a. unfold stays_disabled. auto.
  - intros a b c Hab Hbc. unfold stays_disabled in *. auto.
Qed.

Lemma click_closed_stays_disabled placing :
  click_closed stays_disabled placing.
Proof.
  split; try (intros; intros btn; unfold stays_disabled; simpl; by auto).
  intros btn. unfold open_button, stays_disabled.
  case_bool_decide; simpl; auto.
Qed.

Lemma toggle_flag_evolves R button s s' :
  respects R (λ b, config_text text_flag (config_state disabled b)) →
  respects R (λ b, config_text text_empty (config_state normal b)) →
  toggle_flag button s = Some s' →
  evolves R (buttons s) (buttons s')
  ∧ height s' = height s ∧ width s' = width s ∧ mines s' = mines s
  ∧ is_first_click s' = is_first_click s ∧ game_over s' = game_over s
  ∧ leaderboards s' = leaderboards s ∧ files s' = files s
  ∧ events s' = events s.
Proof.
  intros Hflag Hunflag. unfold toggle_flag.
  destruct (game_over s) eqn:Hover.
  { intros [= <-]. split; [apply evolves_refl|done]. }
  destruct (deref (buttons s) button) as [btn|]; simpl; [|done].
  destruct (_ && _).
  { intros [= <-]. simpl. split; [by apply evolves_step|done]. }
  case_bool_decide.
  - intros [= <-]. simpl. split; [by apply evolves_step|done].
  - intros [= <-]. split; [apply evolves_refl|done].
Qed.

Lemma toggle_respects_same_open :
  respects same_open (λ b, config_text text_flag (config_state disabled b))
  ∧ respects same_open (λ b, config_text text_empty (config_state normal b)).
Proof.
  split; intros btn; unfold same_open, same_mine, same_cell; simpl; auto 10.
Qed.

Lemma same_open_same_mine a b : same_open a b → same_mine a b.
Proof. by intros [? _]. Qed.

Lemma same_mine_same_cell a b : same_mine a b → same_cell a b.
Proof. by intros [? _]. Qed.

Lemma evolves_weaken (R R' : FieldButton → FieldButton → Prop) b b' :
  (∀ f, respects R f → respects R' f) →
  evolves R b b' → evolves R' b b'.
Proof.
  intros Himp. induction 1 as [|b f p b' Hf _ IH]; [apply evolves_refl|].
  eapply evolves_assign; [by apply Himp|done].
Qed.

(** The cells across one action. *)
Lemma perform_evolves py_int fuel a s s' :
  perform py_int fuel a s = Some s' →
  evolves same_cell (buttons s) (buttons s')
  ∧ height s' = height s ∧ width s' = width s ∧ mines s' = mines s
  ∧ (is_first_click s = false →
       is_first_click s' = false
       ∧ evolves same_mine (buttons s) (buttons s')).
Proof.
  destruct a as [button shuffle elapsed typed|button]; simpl.
  - destruct (deref (buttons s) button) as [btn|]; simpl; [|done].
    case_bool_decide.
    2: { intros [= <-]. split; [apply evolves_refl|].
         split_and!; try done. intros ?. split; [done|apply evolves_refl]. }
    intros Hclick.
    destruct (handle_click_frame same_cell _ _ _ _ _ _ _ _
                (click_closed_same_cell _) Hclick)
      as (Hev & Hh & Hw & Hm & _ & Hfc).
    split; [done|]. split_and!; try done. intros Hfirst.
    assert (Hcc : click_closed same_mine (is_first_click s)).
    { rewrite Hfirst. apply click_closed_same_mine. }
    destruct (handle_click_frame same_mine _ _ _ _ _ _ _ _ Hcc Hclick)
      as (Hev' & _ & _ & _ & _ & Hfc').
    split; [|done]. unfold handle_click in Hclick.
    destruct (game_over s) eqn:Hover; [|by apply Hfc'].
    by injection Hclick as <-.
  - intros Htoggle.
    destruct toggle_respects_same_open as [Hf Hu].
    destruct (toggle_flag_evolves same_open _ _ _ Hf Hu Htoggle)
      as (Hev & Hh & Hw & Hm & Hfc & _).
    assert (Hev' : evolves same_mine (buttons s) (buttons s')).
    { eapply evolves_weaken; [|exact Hev].
      intros f Hresp btn. apply same_open_same_mine, Hresp. }
    split.
    { eapply evolves_weaken; [|exact Hev'].
      intros f Hresp btn. apply same_mine_same_cell, Hresp. }
    split_and!; try done. intros Hfirst. split; [congruence|done].
Qed.

Lemma play_evolves py_int fuel acts :
  ∀ s s', for_each acts (perform py_int fuel) s = Some s' →
    evolves same_cell (buttons s) (buttons s')
    ∧ height s' = height s ∧ width s' = width s ∧ mines s' = mines s
    ∧ (is_first_click s = false →
         is_first_click s' = false
         ∧ evolves same_mine (buttons s) (buttons s')).
Proof.
  induction acts as [|a acts IH]; intros s s'; simpl.
  - intros [= <-]. split; [apply evolves_refl|]. split_and!; try done.
    intros ?. split; [done|apply evolves_refl].
  - destruct (perform py_int fuel a s) as [s1|] eqn:Hact; simpl; [|done].
    intros Hrest.
    destruct (perform_evolves _ _ _ _ _ Hact) as (Hev1 & Hh1 & Hw1 & Hm1 & Hf1).
    destruct (IH _ _ Hrest) as (Hev2 & Hh2 & Hw2 & Hm2 & Hf2).
    split; [by eapply evolves_trans|].
    split_and!; try congruence. intros Hfirst.
    destruct (Hf1 Hfirst) as [Hfc1 Hevm1].
    destruct (Hf2 Hfc1) as [Hfc2 Hevm2].
    split; [done|by eapply evolves_trans].
Qed.

(** ** Flags across an action *)

Lemma evolves_count_flags buttons buttons' :
  evolves no_new_flag buttons buttons' →
  count_flags buttons' ≤ count_flags buttons.
Proof.
  induction 1 as [|b f p b' Hf _ IH]; [done|].
  etrans; [exact IH|].
  destruct (deref b p) as [btn|] eqn:Hd.
  - rewrite (count_flags_assign _ _ _ _ Hd).
    pose proof (Hf btn) as Hb. unfold no_new_flag, is_flagged in *.
    repeat case_bool_decide; try lia. tauto.
  - by rewrite assign_None.
Qed.

Lemma perform_flags_within py_int fuel a s s' :
  perform py_int fuel a s = Some s' →
  flags_within s → flags_within s' ∧ mines s' = mines s.
Proof.
  intros Hact [Hneg Hsum].
  destruct a as [button shuffle elapsed typed|button]; simpl in Hact.
  - destruct (deref (buttons s) button) as [btn|]; simpl in Hact; [|done].
    case_bool_decide.
    2: { by injection Hact as <-. }
    destruct (handle_click_frame no_new_flag _ _ _ _ _ _ _ _
                (click_closed_no_new_flag _) Hact)
      as (Hev%evolves_count_flags & _ & _ & Hm & Hfl & _).
    unfold flags_within. rewrite Hm, Hfl. split; [|done]. lia.
  - unfold toggle_flag in Hact.
    destruct (game_over s); [by injection Hact as <-|].
    destruct (deref (buttons s) button) as [btn|] eqn:Hd; simpl in Hact;
      [|done].
    destruct (bool_decide (state btn = normal)
              && bool_decide (flags_left s > 0)) eqn:Hcond.
    { apply andb_true_iff in Hcond as [_ Hpos%bool_decide_eq_true_1].
      injection Hact as <-. unfold flags_within. simpl.
      rewrite (count_flags_assign _ _ _ _ Hd). simpl.
      unfold is_flagged at 2. simpl.
      pose proof (is_flagged_bounds btn). split; [|done]. lia. }
    case_bool_decide as Hflag.
    + injection Hact as <-. unfold flags_within. simpl.
      rewrite (count_flags_assign _ _ _ _ Hd). simpl.
      unfold is_flagged. simpl. rewrite bool_decide_eq_true_2 by done.
      split; [|done]. lia.
    + by injection Hact as <-.
Qed.

(** ** The invariant of play *)

Lemma evolves_grid_ok height width buttons buttons' :
  evolves same_cell buttons buttons' →
  grid_ok height width buttons → grid_ok height width buttons'.
Proof.
  induction 1 as [|b f p b' Hf _ IH]; [done|]. intros Hok.
  apply IH, grid_ok_assign; [|done]. intros btn.
  by destruct (Hf btn) as (? & ? & _).
Qed.

Lemma evolves_back R `{!PreOrder R} buttons buttons' q btn' :
  evolves R buttons buttons' → deref buttons' q = Some btn' →
  ∃ btn, deref buttons q = Some btn ∧ R btn btn'.
Proof.
  intros Hev Hd. pose proof (evolves_deref R _ _ q Hev) as Hq.
  destruct (deref buttons q) as [btn|].
  - destruct Hq as (btn2 & Hd2 & HR). rewrite Hd in Hd2.
    injection Hd2 as <-. by exists btn.
  - by rewrite Hq in Hd.
Qed.

Lemma zero_safe_evolves height width buttons buttons' :
  evolves same_mine buttons buttons' →
  zero_safe height width buttons → zero_safe height width buttons'.
Proof.
  intros Hev Hsafe r btn n btn' Hint Hr Hmine Hz Hn Hnb.
  destruct (evolves_back same_mine _ _ _ _ Hev Hr)
    as (btn0 & Hr0 & (Hrow & Hcol & _) & Hm & Ha).
  destruct (evolves_back same_mine _ _ _ _ Hev Hnb)
    as (nb0 & Hn0 & _ & Hnm & _).
  rewrite Hnm. rewrite Hrow, Hcol in Hn.
  eapply (Hsafe r btn0 n nb0); try done; congruence.
Qed.

Lemma opened_safe_evolves buttons buttons' :
  evolves same_open buttons buttons' →
  opened_safe buttons → opened_safe buttons'.
Proof.
  intros Hev Hsafe q btn' Hq Hopen.
  destruct (evolves_back same_open _ _ _ _ Hev Hq)
    as (btn & Hq0 & (_ & Hm & _) & Ho).
  rewrite Hm. apply (Hsafe q btn Hq0). congruence.
Qed.

Lemma evolves_same_open_mine buttons buttons' :
  evolves same_open buttons buttons' → evolves same_mine buttons buttons'.
Proof.
  apply evolves_weaken. intros f Hf btn. apply same_open_same_mine, Hf.
Qed.

Lemma evolves_same_mine_cell buttons buttons' :
  evolves same_mine buttons buttons' → evolves same_cell buttons buttons'.
Proof.
  apply evolves_weaken. intros f Hf btn. apply same_mine_same_cell, Hf.
Qed.

Lemma respects_same_open_state st : respects same_open (config_state st).
Proof. intros btn. unfold same_open, same_mine, same_cell. simpl. auto 10. Qed.

Lemma respects_same_open_text t : respects same_open (config_text t).
Proof. intros btn. unfold same_open, same_mine, same_cell. simpl. auto 10. Qed.

Lemma sequential_index_bounds height width q :
  is_interior height width q →
  1 ≤ sequential_index width q ≤ width * height.
Proof. unfold is_interior, sequential_index. nia. Qed.

Lemma get_mines_places_is_Some shuffle height width mines exclude :
  1 ≤ exclude ≤ width * height →
  is_Some (get_mines_places shuffle height width mines exclude).
Proof.
  intros Hex. unfold get_mines_places.
  destruct (list_remove_is_Some exclude (range 1 (width * height + 1)))
    as [l ->]; [apply elem_of_range; lia|]. by eexists.
Qed.

Lemma open_button_fields btn :
  is_open (open_button btn) = true
  ∧ is_mine (open_button btn) = is_mine btn.
Proof. unfold open_button. by case_bool_decide. Qed.

(** The leaderboards [update_leaderboard] found it leaves in place. *)
Lemma update_leaderboard_keys py_int typed d t s s' d' :
  update_leaderboard py_int typed d t s = Some s' →
  is_Some (leaderboards s !! d') → is_Some (leaderboards s' !! d').
Proof.
  unfold update_leaderboard. intros Hupd [l' Hl'].
  assert (Hload : is_Some (leaderboards (load_leaderboards py_int s) !! d')).
  { rewrite lookup_load_leaderboards, Hl'. by eexists. }
  destruct (leaderboards (load_leaderboards py_int s) !! d) as [l|];
    simpl in Hupd; [|done].
  destruct (qualifies l t); injection Hupd as <-; [|done].
  unfold show_leaderboards, emit. cbn [leaderboards].
  rewrite lookup_load_leaderboards.
  apply fmap_is_Some. simpl. apply lookup_insert_is_Some'.
  right. unfold prompt_player_name. by destruct typed.
Qed.

Lemma game_won_keys py_int elapsed typed s s' d :
  game_won py_int elapsed typed s = Some s' →
  is_Some (leaderboards s !! d) → is_Some (leaderboards s' !! d).
Proof.
  unfold game_won. intros Hwon Hd.
  set (s1 := emit _ (set_game_over true s)) in *.
  assert (Hfin : ∀ s2,
            is_Some (leaderboards s2 !! d) →
            (buttons ← for_interior (height s2) (width s2)
                          (config_state disabled) (buttons s2);
             Some (set_buttons buttons s2)) = Some s' →
            is_Some (leaderboards s' !! d)).
  { intros s2 Hs2. destruct (for_interior _ _ _ _); simpl; [|done].
    by intros [= <-]. }
  repeat case_bool_decide.
  1-3: (destruct (update_leaderboard _ _ _ _ _) as [s2|] eqn:Hs2;
        simpl in Hwon; [|done];
        apply (Hfin s2); [|done];
        by eapply update_leaderboard_keys).
  by apply (Hfin s1).
Qed.

(** [check_win] completes on a well-formed game and leaves one. *)
Lemma check_win_total py_int elapsed typed s :
  well_formed s →
  ∃ s' won,
    check_win py_int elapsed typed s = Some (s', won)
    ∧ well_formed s'
    ∧ evolves same_open (buttons s) (buttons s')
    ∧ is_first_click s' = is_first_click s.
Proof.
  intros Hwf. pose proof Hwf as (Hh & Hw & Hok & Hlb). unfold check_win.
  rewrite (check_win_scan_spec _ _ _ Hok).
  destruct (forallb _ _); simpl.
  - destruct (game_won_is_Some py_int elapsed typed s Hwf) as [s' Hwon].
    rewrite Hwon. simpl. exists s', true. split; [done|].
    destruct (game_won_frame same_open _ _ _ _ _
                (respects_same_open_state _) Hwon)
      as (Hev & Hh' & Hw' & _ & _ & Hfc & _).
    split; [|done]. unfold well_formed. rewrite Hh', Hw'.
    split_and!; try done.
    + eapply evolves_grid_ok; [|done].
      by apply evolves_same_mine_cell, evolves_same_open_mine.
    + intros d Hd. eapply game_won_keys; [done|]. by apply Hlb.
  - exists s, false. split; [done|]. split; [done|].
    split; [apply evolves_refl|done].
Qed.

(** The flood fill started on a cell without a mine, on a grid whose
    counts of 0 are truthful, completes and opens no mine. *)
Lemma reveal_empty_region_safe fuel height width buttons start start_btn :
  grid_ok height width buttons → is_interior height width start →
  zero_safe height width buttons → opened_safe buttons →
  deref buttons start = Some start_btn → is_mine start_btn = false →
  (Z.to_nat (height * width) < fuel)%nat →
  ∃ buttons',
    reveal_empty_region fuel height width buttons start = Some buttons'
    ∧ grid_ok height width buttons'
    ∧ opened_safe buttons'
    ∧ ∃ btn', deref buttons' start = Some btn' ∧ is_open btn' = true.
Proof.
  intros Hok Hstart Hzero Hsafe Hsb Hsm Hfuel.
  destruct (reveal_empty_region_ok _ _ _ _ _ Hok Hstart Hfuel)
    as (b' & Hrun & Hok').
  exists b'. split; [done|]. split; [done|].
  unfold reveal_empty_region in Hrun.
  destruct (reveal_trace _ _ _ _ _) as [[b2 pushed]|] eqn:Htrace;
    simpl in Hrun; [|done].
  injection Hrun as ->.
  pose proof (reveal_trace_frame _ _ _ _ _ _ _ Hok Hstart Htrace) as Hframe.
  pose proof (reveal_trace_safe _ _ _ _ _ _ _ _ Hok Hstart Hzero Hsb Hsm
                Htrace) as Hpushed.
  destruct (reveal_trace_fill _ _ _ _ _ _ _ Hok Hstart Htrace) as [_ Hin].
  split.
  - intros q btn' Hq Hopen. rewrite Hframe in Hq.
    destruct (deref buttons q) as [btn|] eqn:Hq0; [|done].
    destruct (decide (q ∈ pushed)) as [Hp|Hp]; simpl in Hq;
      injection Hq as <-.
    + destruct (Hpushed q Hp) as (btn0 & Hb0 & Hm0).
      rewrite Hq0 in Hb0. injection Hb0 as <-.
      by rewrite (proj2 (open_button_fields btn)).
    + by apply (Hsafe q).
  - exists (open_button start_btn). rewrite Hframe, Hsb, decide_True by done.
    split; [done|]. apply open_button_fields.
Qed.

Lemma opened_safe_assign f p buttons :
  opened_safe buttons →
  (∀ btn, deref buttons p = Some btn →
     is_open (f btn) = true → is_mine (f btn) = false) →
  opened_safe (assign f p buttons).
Proof.
  intros Hsafe Hf q btn'. rewrite deref_assign.
  destruct (decide (p = q)) as [<-|Hne]; [|apply Hsafe].
  destruct (deref buttons p) as [btn|]; simpl; [|done].
  intros [= <-]. by apply Hf.
Qed.

(** What the first click does before it opens anything: the mines are
    placed away from the clicked cell's number and the counts are
    computed; nothing is open yet. *)
Lemma first_click_setup shuffle height width mines buttons button :
  1 ≤ height → 1 ≤ width →
  unmined height width buttons → all_closed buttons →
  is_interior height width button →
  ∃ btn0 index_mines b1 b2,
    deref buttons button = Some btn0
    ∧ number btn0 = sequential_index width button
    ∧ get_mines_places shuffle height width mines (number btn0)
      = Some index_mines
    ∧ place_mines shuffle height width mines (number btn0) buttons = Some b1
    ∧ calculate_adjacent_mines height width b1 = Some b2
    ∧ grid_ok height width b2 ∧ zero_safe height width b2
    ∧ all_closed b2
    ∧ ∀ q, deref b2 q
           = (if decide (is_interior height width q)
              then λ btn, adjacency_of b1 q (mark_mine index_mines btn)
              else id) <$> deref buttons q.
Proof.
  intros Hh Hw [Hok Hnum] Hclosed Hint.
  destruct (deref_interior _ _ _ _ Hok Hint) as (btn0 & Hb0 & _).
  destruct (Hnum _ _ Hb0) as [_ Hn]. specialize (Hn Hint).
  destruct (get_mines_places_is_Some shuffle height width mines (number btn0))
    as [M HM].
  { rewrite Hn. by apply sequential_index_bounds. }
  destruct (place_mines_spec shuffle height width mines (number btn0)
              buttons M) as (b1 & Hb1 & Hok1 & Hd1); [lia|lia|done|done|].
  destruct (calculate_adjacent_mines_spec height width b1)
    as (b2 & Hb2 & Hok2 & Hd2); [lia|lia|done|].
  exists btn0, M, b1, b2. split_and!; try done.
  - eapply calculate_adjacent_mines_zero_safe; [| |exact Hok1|done]; lia.
  - intros q btn. rewrite Hd2, Hd1.
    destruct (deref buttons q) as [c|] eqn:Hc; [|done].
    pose proof (Hclosed _ _ Hc) as Hcl.
    destruct (decide (is_interior height width q)); simpl;
      intros [= <-]; [|done].
    unfold mark_mine. by case_bool_decide.
  - intros q. rewrite Hd2, Hd1.
    destruct (deref buttons q); [|done]. simpl.
    by destruct (decide (is_interior height width q)).
Qed.

(** The branch of [handle_click] that opens the clicked cell. *)
Lemma open_branch fuel height width buttons button btn :
  grid_ok height width buttons → is_interior height width button →
  zero_safe height width buttons → opened_safe buttons →
  deref buttons button = Some btn → is_mine btn = false →
  (Z.to_nat (height * width) < fuel)%nat →
  ∃ b2,
    (if bool_decide (adjacent_mines btn ≠ 0) then
       Some (assign (set_is_open true) button
               (assign (config_text (text_number (adjacent_mines btn)))
                  button buttons))
     else reveal_empty_region fuel height width buttons button) = Some b2
    ∧ grid_ok height width b2
    ∧ evolves same_mine buttons b2
    ∧ opened_safe b2
    ∧ ∃ btn', deref b2 button = Some btn' ∧ is_open btn' = true.
Proof.
  intros Hok Hint Hz Hs Hb Hmine Hfuel. case_bool_decide as Hadj.
  - eexists. split; [done|]. split_and!.
    + apply grid_ok_assign; [apply keeps_pos_set_is_open|].
      apply grid_ok_assign; [apply keeps_pos_config_text|done].
    + eapply evolves_assign; [apply (cc_number _ _ click_closed_same_mine)|].
      apply evolves_step, (cc_is_open _ _ click_closed_same_mine).
    + apply opened_safe_assign.
      * apply opened_safe_assign; [done|]. intros c Hc. simpl.
        by apply Hs with button.
      * intros c. rewrite deref_assign_eq, Hb. simpl. by intros [= <-].
    + rewrite !deref_assign_eq, Hb. simpl. by eexists.
  - destruct (reveal_empty_region_safe fuel height width buttons button btn
                Hok Hint Hz Hs Hb Hmine Hfuel)
      as (b2 & Hrun & Hok2 & Hs2 & Hopen).
    exists b2. split; [done|]. split_and!; try done.
    eapply reveal_empty_region_evolves; [|done].
    apply (cc_open _ _ click_closed_same_mine).
Qed.

Lemma keeps_pos_lost_mark :
  keeps_pos (λ btn, if is_mine btn
                    then config_state disabled (config_text text_mine btn)
                    else config_state disabled btn).
Proof. intros btn. by destruct (is_mine btn). Qed.

(** A left click on an interior button of a playable game completes
    and leaves a playable game. *)
Lemma handle_click_playable py_int fuel shuffle elapsed typed button s :
  playable s → is_interior (height s) (width s) button →
  (Z.to_nat (height s * width s) < fuel)%nat →
  ∃ s', handle_click py_int fuel shuffle elapsed typed button s = Some s'
        ∧ playable s'.
Proof.
  intros Hplay Hint Hfuel.
  pose proof Hplay as ((Hh0 & Hw0 & Hok & Hlb) & Hh & Hw & Hphase).
  unfold handle_click. destruct (game_over s) eqn:Hover; [by exists s|].
  assert (Hfirst : ∃ s1,
            (if is_first_click s then
               btn ← deref (buttons s) button;
               buttons ← place_mines shuffle (height s) (width s) (mines s)
                           (number btn) (buttons s);
               buttons ← calculate_adjacent_mines (height s) (width s)
                           buttons;
               Some (set_is_first_click false (set_buttons buttons s))
             else Some s) = Some s1
            ∧ height s1 = height s ∧ width s1 = width s
            ∧ leaderboards s1 = leaderboards s
            ∧ is_first_click s1 = false
            ∧ grid_ok (height s) (width s) (buttons s1)
            ∧ zero_safe (height s) (width s) (buttons s1)
            ∧ opened_safe (buttons s1)).
  { destruct (is_first_click s) eqn:Hfc.
    - destruct Hphase as [Hun Hcl].
      destruct (first_click_setup shuffle (height s) (width s) (mines s)
                  (buttons s) button Hh Hw Hun Hcl Hint)
        as (btn0 & M & b1 & b2 & -> & _ & _ & Hb1 & Hb2 & Hok2 & Hz2 & Hc2
            & _).
      simpl. rewrite Hb1. simpl. rewrite Hb2. simpl.
      eexists. split; [done|]. simpl. split_and!; try done.
      intros q btn Hq Hopen. by rewrite (Hc2 _ _ Hq) in Hopen.
    - destruct Hphase as [Hz Hs]. exists s. by split_and!. }
  destruct Hfirst as (s1 & -> & Hh1 & Hw1 & Hlb1 & Hfc1 & Hok1 & Hz1 & Hs1).
  simpl.
  destruct (deref_interior _ _ _ _ Hok1 Hint) as (btn & Hb & _).
  rewrite Hb. simpl. rewrite Hh1, Hw1.
  destruct (is_mine btn) eqn:Hmine.
  - unfold game_lost. simpl. rewrite Hh1, Hw1.
    destruct (for_interior_spec (height s) (width s)
                (λ btn, if is_mine btn
                        then config_state disabled (config_text text_mine btn)
                        else config_state disabled btn)
                (assign (config_text text_mine) button (buttons s1)))
      as (b' & Hloop & Hok' & _);
      [lia|lia| |apply keeps_pos_lost_mark|].
    { apply grid_ok_assign; [apply keeps_pos_config_text|done]. }
    rewrite Hloop. simpl. eexists. split; [done|].
    assert (Hev : evolves same_open (buttons s1) b').
    { eapply evolves_assign; [apply respects_same_open_text|].
      eapply for_interior_evolves; [|exact Hloop].
      intros c. destruct (is_mine c); [|apply respects_same_open_state].
      etrans; [apply (respects_same_open_text text_mine)|].
      apply respects_same_open_state. }
    unfold playable, well_formed. simpl. rewrite Hh1, Hw1, Hlb1, Hfc1.
    split_and!; try done.
    + eapply zero_safe_evolves; [|done]. by apply evolves_same_open_mine.
    + by eapply opened_safe_evolves.
  - destruct (open_branch fuel (height s) (width s) (buttons s1) button btn
                Hok1 Hint Hz1 Hs1 Hb Hmine Hfuel)
      as (b2 & -> & Hok2 & Hev2 & Hs2 & _).
    simpl.
    set (s2 := set_buttons (assign (config_state disabled) button b2) s1).
    assert (Hwf2 : well_formed s2).
    { unfold well_formed, s2. simpl. rewrite Hh1, Hw1, Hlb1.
      split_and!; try done.
      apply grid_ok_assign; [apply keeps_pos_config_state|done]. }
    destruct (check_win_total py_int elapsed typed s2 Hwf2)
      as (s' & won & Hcheck & Hwf' & Hev' & Hfc').
    rewrite Hcheck. simpl. exists s'. split; [done|].
    destruct (check_win_frame same_open _ _ _ _ _ _
                (respects_same_open_state _) Hcheck)
      as (_ & Hh' & Hw' & _).
    unfold playable. rewrite Hfc'. unfold s2 at 1. simpl. rewrite Hfc1.
    rewrite Hh', Hw'. unfold s2 at 1 2 3 4. simpl. rewrite Hh1, Hw1.
    split_and!; try done.
    + eapply zero_safe_evolves; [apply evolves_same_open_mine, Hev'|].
      unfold s2. simpl.
      eapply zero_safe_evolves; [|eapply zero_safe_evolves; [exact Hev2|done]].
      apply evolves_same_open_mine, evolves_step, respects_same_open_state.
    + eapply opened_safe_evolves; [exact Hev'|]. unfold s2. simpl.
      eapply opened_safe_evolves; [|exact Hs2].
      apply evolves_step, respects_same_open_state.
Qed.

Lemma toggle_flag_playable button s :
  playable s → is_interior (height s) (width s) button →
  ∃ s', toggle_flag button s = Some s' ∧ playable s'.
Proof.
  intros Hplay Hint.
  pose proof Hplay as ((Hh0 & Hw0 & Hok & Hlb) & Hh & Hw & Hphase).
  destruct (deref_interior _ _ _ _ Hok Hint) as (btn & Hb & _).
  assert (Hrun : is_Some (toggle_flag button s)).
  { unfold toggle_flag. rewrite Hb. simpl.
    destruct (game_over s); [by eexists|].
    destruct (_ && _); [by eexists|]. case_bool_decide; by eexists. }
  destruct Hrun as [s' Hrun]. exists s'. split; [done|].
  destruct toggle_respects_same_open as [Hf Hu].
  destruct (toggle_flag_evolves same_open _ _ _ Hf Hu Hrun)
    as (Hev & Hh' & Hw' & _ & Hfc & _ & Hlb' & _).
  unfold playable, well_formed. rewrite Hh', Hw', Hfc, Hlb'.
  split_and!; try done.
  - eapply evolves_grid_ok; [|done].
    by apply evolves_same_mine_cell, evolves_same_open_mine.
  - destruct (is_first_click s).
    + destruct Hphase as [[_ Hnum] Hcl]. split; [split|].
      * eapply evolves_grid_ok; [|done].
        by apply evolves_same_mine_cell, evolves_same_open_mine.
      * intros q c' Hq.
        destruct (evolves_back same_open _ _ _ _ Hev Hq)
          as (c & Hc & ((_ & _ & Hn & _) & Hm & _) & _).
        destruct (Hnum _ _ Hc) as [? ?]. rewrite Hm, Hn. by split.
      * intros q c' Hq.
        destruct (evolves_back same_open _ _ _ _ Hev Hq)
          as (c & Hc & _ & Ho).
        rewrite Ho. by apply (Hcl q).
    + destruct Hphase as [Hz Hs]. split.
      * eapply zero_safe_evolves; [|done]. by apply evolves_same_open_mine.
      * by eapply opened_safe_evolves.
Qed.

Lemma perform_playable py_int fuel a s :
  playable s → is_interior (height s) (width s) (target a) →
  (Z.to_nat (height s * width s) < fuel)%nat →
  ∃ s', perform py_int fuel a s = Some s' ∧ playable s'.
Proof.
  intros Hplay Hint Hfuel.
  destruct a as [button shuffle elapsed typed|button]; simpl in *.
  - pose proof Hplay as ((_ & _ & Hok & _) & _).
    destruct (deref_interior _ _ _ _ Hok Hint) as (btn & -> & _). simpl.
    case_bool_decide; [|by exists s]. by apply handle_click_playable.
  - by apply toggle_flag_playable.
Qed.

Lemma play_playable py_int fuel acts :
  ∀ s, playable s →
    (∀ a, a ∈ acts → is_interior (height s) (width s) (target a)) →
    (Z.to_nat (height s * width s) < fuel)%nat →
    ∃ s', for_each acts (perform py_int fuel) s = Some s' ∧ playable s'.
Proof.
  induction acts as [|a acts IH]; intros s Hplay Hint Hfuel; simpl.
  - by exists s.
  - destruct (perform_playable py_int fuel a s Hplay) as (s1 & Hact & Hplay1);
      [apply Hint; by left|done|].
    rewrite Hact. simpl.
    destruct (perform_evolves _ _ _ _ _ Hact) as (_ & Hh & Hw & _).
    apply IH; [done| |by rewrite Hh, Hw].
    intros b Hb. rewrite Hh, Hw. apply Hint. by right.
Qed.

(** A fresh board is playable. *)
Lemma set_difficulty_playable h w m s :
  1 ≤ h → 1 ≤ w → (∀ d, d ∈ difficulties → is_Some (leaderboards s !! d)) →
  ∃ s', set_difficulty (h, w, m) s = Some s'
        ∧ playable s'
        ∧ height s' = h ∧ width s' = w ∧ mines s' = m
        ∧ flags_left s' = m
        ∧ game_over s' = false ∧ is_first_click s' = true
        ∧ count_flags (buttons s') = 0
        ∧ player_name s' = player_name s
        ∧ leaderboards s' = leaderboards s ∧ files s' = files s
        ∧ events s' = events s.
Proof.
  intros Hh Hw Hlb. unfold set_difficulty.
  destruct (setup_grid_spec h w) as (b & Hb & Hok & Hq); [lia|lia|].
  destruct (setup_grid_unmined h w) as (b' & Hb' & Hun); [lia|lia|].
  rewrite Hb in Hb'. injection Hb' as <-. rewrite Hb. simpl.
  eexists. split; [done|]. simpl.
  assert (Hfresh : ∀ q btn, deref b q = Some btn →
            is_open btn = false ∧ text btn = text_empty).
  { intros q btn Hd. rewrite (Hq q btn Hd). by case_decide. }
  split_and!; try done.
  - unfold playable, well_formed. simpl. split_and!; try done; try lia.
    intros q btn Hd. by destruct (Hfresh q btn Hd).
  - apply count_flags_none. intros q btn Hd.
    destruct (Hfresh q btn Hd) as [_ ->]. done.
Qed.

(** ** The choice of the mines *)

Lemma slice_prefix_take {A} (l : list A) n :
  ∃ k, slice_prefix l n = take k l
       ∧ Z.of_nat (length (take k l))
         = Z.max 0 (if bool_decide (0 ≤ n)
                    then Z.min n (Z.of_nat (length l))
                    else Z.of_nat (length l) + n).
Proof.
  unfold slice_prefix. case_bool_decide; eexists; (split; [done|]);
    rewrite length_take; lia.
Qed.

(** The list [get_mines_places] returns, for every [mines]: when the
    excluded number is on the board, a prefix of the shuffled other
    numbers. *)
Lemma get_mines_places_prefix shuffle height width mines exclude
    index_mines :
  (∀ l, shuffle l ≡ₚ l) →
  get_mines_places shuffle height width mines exclude = Some index_mines →
  NoDup index_mines
  ∧ (exclude ∉ index_mines)
  ∧ (∀ n, n ∈ index_mines → 1 ≤ n ≤ width * height)
  ∧ Z.of_nat (length index_mines)
    = Z.max 0 (if bool_decide (0 ≤ mines)
               then Z.min mines (width * height - 1)
               else width * height - 1 + mines).
Proof.
  intros Hperm. unfold get_mines_places.
  destruct (list_remove exclude (range 1 (width * height + 1)))
    as [indexes|] eqn:Hrem; simpl; [|done].
  intros [= <-]. apply list_remove_spec in Hrem.
  assert (Hnd : NoDup (exclude :: shuffle indexes)).
  { rewrite Hperm, <- Hrem. apply NoDup_range. }
  apply NoDup_cons in Hnd as [Hex Hnd].
  assert (Hlen : Z.of_nat (length (shuffle indexes))
                 = Z.max 0 (width * height) - 1).
  { rewrite Hperm.
    assert (Hl : length (range 1 (width * height + 1))
                 = S (length indexes)) by (by rewrite Hrem).
    unfold range in Hl. rewrite length_seqZ in Hl. lia. }
  destruct (slice_prefix_take (shuffle indexes) mines) as (k & -> & Hk).
  split_and!.
  - eapply sublist_NoDup; [exact Hnd|apply sublist_take].
  - intros Hin. apply Hex. eapply subseteq_take, Hin.
  - intros n Hin%subseteq_take. rewrite Hperm in Hin.
    assert (Hr : n ∈ range 1 (width * height + 1)).
    { rewrite Hrem. by right. }
    apply elem_of_range in Hr. lia.
  - rewrite Hk, Hlen. case_bool_decide; lia.
Qed.

Lemma get_mines_places_None shuffle height width mines exclude :
  get_mines_places shuffle height width mines exclude = None →
  ¬ (1 ≤ exclude ≤ width * height).
Proof.
  intros Hnone Hex.
  destruct (get_mines_places_is_Some shuffle height width mines exclude Hex)
    as [M HM].
  by rewrite HM in Hnone.
Qed.

(** ** The events of a win *)

Lemma update_leaderboard_events py_int typed d t s s' e :
  update_leaderboard py_int typed d t s = Some s' →
  e ∈ events s' →
  e ∈ events s ∨ e ∈ [ev_prompt_name d; ev_save; ev_leaderboard_window].
Proof.
  unfold update_leaderboard.
  destruct (leaderboards (load_leaderboards py_int s) !! d) as [l|];
    simpl; [|done].
  destruct (qualifies l t); intros [= <-]; [|by left].
  unfold show_leaderboards, save_leaderboards, prompt_player_name.
  destruct typed; simpl; rewrite !elem_of_app, !elem_of_cons; tauto.
Qed.

Lemma game_won_events py_int elapsed typed s s' :
  game_won py_int elapsed typed s = Some s' →
  ev_message "Game Over" ∈ events s' → ev_message "Game Over" ∈ events s.
Proof.
  unfold game_won. intros Hwon.
  set (s1 := emit _ (set_game_over true s)) in *.
  assert (H1 : ev_message "Game Over" ∈ events s1 →
               ev_message "Game Over" ∈ events s).
  { unfold s1. simpl. rewrite elem_of_app, list_elem_of_singleton.
    by intros [?|?]. }
  assert (Hfin : ∀ s2,
            (ev_message "Game Over" ∈ events s2 →
             ev_message "Game Over" ∈ events s) →
            (buttons ← for_interior (height s2) (width s2)
                          (config_state disabled) (buttons s2);
             Some (set_buttons buttons s2)) = Some s' →
            ev_message "Game Over" ∈ events s' →
            ev_message "Game Over" ∈ events s).
  { intros s2 Hs2. destruct (for_interior _ _ _ _); simpl; [|done].
    by intros [= <-]. }
  assert (Hupd : ∀ d s2,
            update_leaderboard py_int typed d elapsed s1 = Some s2 →
            ev_message "Game Over" ∈ events s2 →
            ev_message "Game Over" ∈ events s).
  { intros d s2 Hs2 Hin.
    destruct (update_leaderboard_events _ _ _ _ _ _ _ Hs2 Hin) as [?|Hnew];
      [by apply H1|].
    rewrite !elem_of_cons in Hnew. destruct Hnew as [?|[?|[?|?%elem_of_nil]]];
      done. }
  repeat case_bool_decide.
  1-3: (destruct (update_leaderboard _ _ _ _ _) as [s2|] eqn:Hs2;
        simpl in Hwon; [|done];
        apply (Hfin s2); [|done]; by eapply Hupd).
  by apply (Hfin s1).
Qed.

Lemma check_win_events py_int elapsed typed s s' won :
  check_win py_int elapsed typed s = Some (s', won) →
  ev_message "Game Over" ∈ events s' → ev_message "Game Over" ∈ events s.
Proof.
  unfold check_win.
  destruct (check_win_scan _ _ _) as [[v|]|]; simpl; [| |done].
  - by intros [= <- <-].
  - destruct (game_won py_int elapsed typed s) as [s1|] eqn:Hwon;
      simpl; [|done].
    intros [= <- <-]. by eapply game_won_events.
Qed.

Lemma new_game_playable (fs : gmap string File)
    (writes : string → list (list string) → WriteOutcome) :
  ∃ s, new_game fs writes = Some s
       ∧ playable s
       ∧ height s = 9 ∧ width s = 9 ∧ mines s = 15
       ∧ flags_left s = 15
       ∧ game_over s = false ∧ is_first_click s = true
       ∧ count_flags (buttons s) = 0
       ∧ files s = fs ∧ events s = [].
Proof.
  destruct (new_game_spec fs writes) as (s0 & Hs0 & Hwf0 & _).
  destruct Hwf0 as (_ & _ & _ & Hlb).
  destruct (set_difficulty_playable 9 9 15 s0 ltac:(lia) ltac:(lia) Hlb)
    as (s1 & Hs1 & Hplay & Hh & Hw & Hm & Hfl & Hgo & Hfc & Hcf & _).
  unfold new_game, set_difficulty in *.
  destruct (setup_grid 9 9) as [b|]; simpl in *; [|done].
  injection Hs0 as <-. injection Hs1 as <-.
  eexists. split; [done|].
  destruct Hplay as (Hwf & ? & ? & Hph). simpl in *.
  split_and!; done.
Qed.

(** The first click spares the clicked cell. *)
Lemma first_click_spares shuffle height width mines buttons button b2 :
  1 ≤ height → 1 ≤ width →
  unmined height width buttons → all_closed buttons →
  is_interior height width button →
  (∀ l, shuffle l ≡ₚ l) →
  (btn ← deref buttons button;
   b1 ← place_mines shuffle height width mines (number btn) buttons;
   calculate_adjacent_mines height width b1) = Some b2 →
  grid_ok height width b2 ∧ zero_safe height width b2 ∧ all_closed b2
  ∧ ∃ btn, deref b2 button = Some btn ∧ is_mine btn = false.
Proof.
  intros Hh Hw Hun Hcl Hint Hperm.
  destruct (first_click_setup shuffle height width mines buttons button
              Hh Hw Hun Hcl Hint)
    as (btn0 & M & b1 & b2' & Hb0 & _ & HM & Hb1 & Hb2 & Hok2 & Hz2 & Hc2
        & Hd2).
  rewrite Hb0. simpl. rewrite Hb1. simpl. rewrite Hb2. intros [= <-].
  split_and!; try done.
  rewrite Hd2, Hb0, decide_True by done. simpl. eexists. split; [done|].
  simpl. unfold mark_mine.
  destruct (get_mines_places_prefix _ _ _ _ _ _ Hperm HM) as (_ & Hex & _).
  rewrite bool_decide_eq_false_2 by done.
  destruct Hun as [_ Hnum]. by destruct (Hnum _ _ Hb0).
Qed.

Lemma all_closed_opened_safe buttons : all_closed buttons → opened_safe buttons.
Proof. intros Hcl q btn Hq Hopen. by rewrite (Hcl _ _ Hq) in Hopen. Qed.

Lemma playable_opened_safe s : playable s → opened_safe (buttons s).
Proof.
  intros (_ & _ & _ & Hphase). destruct (is_first_click s).
  - destruct Hphase as [_ Hcl]. by apply all_closed_opened_safe.
  - by destruct Hphase.
Qed.

Lemma sample_play_targets a :
  a ∈ sample_play → is_interior 9 9 (target a).
Proof.
  unfold sample_play. rewrite !elem_of_cons.
  intros [->|[->|[->|[->|[->|?%elem_of_nil]]]]]; try done;
    unfold is_interior; simpl; lia.
Qed.

(** ** Persistence *)

Lemma read_row_entry_row py_int e :
  py_int (py_str (time e)) = Some (time e) →
  read_row py_int (entry_row e)
  = if bool_decide (0 < time e) then Some (reloaded e) else None.
Proof.
  intros Hint. unfold read_row, entry_row. rewrite Hint. simpl.
  unfold reloaded.
  destruct (decide (0 < time e)) as [Hpos|Hpos].
  - rewrite (bool_decide_eq_true_2 (time e > 0)) by lia.
    rewrite (bool_decide_eq_true_2 (0 < time e)) by done.
    f_equal. f_equal.
    + by destruct (name e) as [n|].
    + case_bool_decide; lia.
  - rewrite (bool_decide_eq_false_2 (time e > 0)) by lia.
    by rewrite (bool_decide_eq_false_2 (0 < time e)).
Qed.

Lemma omap_read_entry_rows py_int (l : list LeaderboardEntry) :
  (∀ e, e ∈ l → py_int (py_str (time e)) = Some (time e)) →
  omap (read_row py_int) (entry_row <$> l)
  = reloaded <$> filter (λ e, 0 < time e) l.
Proof.
  induction l as [|e l IH]; intros Hint; [done|].
  rewrite fmap_cons. change (omap ?f (?x :: ?l))
    with (match f x with Some y => y :: omap f l | None => omap f l end).
  rewrite read_row_entry_row by (apply Hint; by left).
  rewrite filter_cons, IH by (intros x ?; apply Hint; by right).
  destruct (decide (0 < time e)).
  - by rewrite bool_decide_eq_true_2.
  - by rewrite bool_decide_eq_false_2.
Qed.

Lemma sort_by_time_sorted l : sorted_by_time l → sort_by_time l = l.
Proof.
  intros Hs. apply (stable_sort_unique l); [apply sort_by_time_spec|].
  by split.
Qed.

Lemma reloaded_canonical l :
  canonical l → reloaded <$> filter (λ e, 0 < time e) l = l.
Proof.
  intros (_ & _ & Hall).
  induction l as [|e l IH]; [done|].
  destruct (Hall e) as (Ht & n & Hn & Hne); [by left|].
  rewrite filter_cons, decide_True by lia. rewrite fmap_cons.
  rewrite IH by (intros x ?; apply Hall; by right). f_equal.
  unfold reloaded. destruct e as [en et]. simpl in *. subst en.
  rewrite bool_decide_eq_false_2 by done. f_equal. lia.
Qed.

(** The file of a difficulty after [save_leaderboards], whatever the
    outcome of the write, and the list [load_leaderboards] then finds. *)
Lemma save_load_lookup py_int s d l :
  leaderboards s !! d = Some l →
  files (save_leaderboards s) !! filename d
  = after_write (write_outcome s (filename d) (entry_row <$> l))
      (entry_row <$> l) (files s !! filename d)
  ∧ leaderboards (load_leaderboards py_int (save_leaderboards s)) !! d
    = Some (load_one py_int (files (save_leaderboards s)) d l).
Proof.
  intros Hl. split.
  - unfold save_leaderboards, emit, set_files. cbn [files].
    by rewrite lookup_saved_files, Hl.
  - rewrite lookup_load_leaderboards.
    change (leaderboards (save_leaderboards s)) with (leaderboards s).
    by rewrite Hl.
Qed.

(** Rows written without a failure, read back. *)
Lemma load_one_written py_int (fs : gmap string File) d l kept :
  fs !! filename d = Some (content (entry_row <$> l)) →
  (∀ e, e ∈ l → py_int (py_str (time e)) = Some (time e)) →
  load_one py_int fs d kept
  = take 5 (sort_by_time (reloaded <$> filter (λ e, 0 < time e) l)).
Proof.
  intros Hfile Hint. unfold load_one. rewrite Hfile.
  unfold read_entries. rewrite read_rows_omap. simpl.
  by rewrite omap_read_entry_rows.
Qed.

Lemma new_game_writes fs writes s :
  new_game fs writes = Some s → write_outcome s = writes.
Proof.
  unfold new_game. destruct (setup_grid 9 9); simpl; [|done].
  by intros [= <-].
Qed.

Lemma canonical_sample_entries : canonical sample_entries.
Proof.
  unfold canonical, sample_entries. split_and!.
  - unfold sorted_by_time.
    repeat first [apply SSorted_cons | apply SSorted_nil];
      repeat (constructor; [simpl; lia|]); constructor.
  - simpl. lia.
  - intros e He. rewrite !elem_of_cons in He.
    destruct He as [->|[->|[->|?%elem_of_nil]]]; [| | |done];
      (split; [simpl; lia|]); eexists; (split; [reflexivity|done]).
Qed.

(** ** Reset of the scores *)

Lemma lookup_reset_files (removed : string → bool) (fs : gmap string File)
    (ds : list string) x :
  foldl (λ fs difficulty,
           if removed (filename difficulty)
           then delete (filename difficulty) fs else fs) fs ds !! x
  = if bool_decide (x ∈ filename <$> ds) && removed x then None
    else fs !! x.
Proof.
  revert fs. induction ds as [|d ds IH]; intros fs; [done|].
  cbn [foldl]. rewrite IH, fmap_cons.
  destruct (decide (x = filename d)) as [->|Hne].
  - rewrite (bool_decide_eq_true_2 (filename d ∈ filename d :: _))
      by (by left).
    simpl. destruct (removed (filename d)) eqn:Hrem.
    + rewrite lookup_delete_eq. by destruct (bool_decide _).
    + by destruct (bool_decide _).
  - assert (Hiff : bool_decide (x ∈ filename d :: (filename <$> ds))
                   = bool_decide (x ∈ filename <$> ds)).
    { apply bool_decide_ext. rewrite elem_of_cons. tauto. }
    rewrite Hiff. destruct (removed (filename d)); [|done].
    by rewrite lookup_delete_ne.
Qed.

(** Two well-formed grids with the same buttons are the same grid. *)
Lemma grid_ext height width (b1 b2 : Grid) :
  0 ≤ width → grid_ok height width b1 → grid_ok height width b2 →
  (∀ q, deref b1 q = deref b2 q) → b1 = b2.
Proof.
  intros Hw [Hr1 Hc1 _] [Hr2 Hc2 _] Hq. apply list_eq. intros r.
  destruct (b1 !! r) as [rw1|] eqn:H1, (b2 !! r) as [rw2|] eqn:H2.
  - f_equal. apply list_eq. intros c.
    specialize (Hq (r, c)). unfold deref in Hq. simpl in Hq.
    by rewrite H1, H2 in Hq.
  - apply lookup_lt_Some in H1. apply lookup_ge_None in H2. lia.
  - apply lookup_lt_Some in H2. apply lookup_ge_None in H1. lia.
  - done.
Qed.

Lemma load_one_idempotent py_int fs d old :
  load_one py_int fs d (load_one py_int fs d old) = load_one py_int fs d old.
Proof. unfold load_one. by destruct (fs !! filename d) as [[|rows]|]. Qed.

(** * Further properties of the engine *)

(** ** The flood fill *)

(** X1.  [reveal_empty_region] changes the grid at the cells that
    entered its work list and nowhere else, each of them by the one
    update [open_button]; the start is among them, all of them are
    interior, and every one but the start was closed before.  Mines,
    counts, numbers and the border are as they were. *)
Theorem reveal_changes_only_opened (fuel : nat) (height width : Z)
    (buttons : Grid) (start : Ref) :
  grid_ok height width buttons → is_interior height width start →
  (Z.to_nat (height * width) < fuel)%nat →
  ∃ buttons' opened,
    reveal_trace fuel height width buttons start = Some (buttons', opened)
    ∧ reveal_empty_region fuel height width buttons start = Some buttons'
    ∧ start ∈ opened
    ∧ (∀ r, r ∈ opened → is_interior height width r)
    ∧ (∀ r, r ∈ opened → r ≠ start →
         ∃ btn, deref buttons r = Some btn ∧ is_open btn = false)
    ∧ ∀ q, deref buttons' q
           = (if decide (q ∈ opened) then open_button else id)
               <$> deref buttons q.
Proof.
  intros Hok Hstart Hfuel.
  destruct (reveal_empty_region_ok _ _ _ _ _ Hok Hstart Hfuel)
    as (b' & Hrun & _).
  unfold reveal_empty_region in *.
  destruct (reveal_trace _ _ _ _ _) as [[b2 opened]|] eqn:Htrace;
    simpl in Hrun; [|done].
  injection Hrun as ->. exists b', opened.
  destruct (reveal_trace_fill _ _ _ _ _ _ _ Hok Hstart Htrace)
    as [Hfin Hin].
  split_and!; try done.
  - apply (inv_interior _ _ _ _ _ (fill_base _ _ _ _ _ _ _ Hfin)).
  - intros r Hr Hne.
    by destruct (fill_origin _ _ _ _ _ _ _ Hfin r Hr Hne) as [? _].
  - by eapply reveal_trace_frame.
Qed.

Lemma reveal_changes_only_opened_witness :
  ∃ buttons,
    setup_grid 3 3 = Some buttons
    ∧ grid_ok 3 3 buttons
    ∧ is_interior 3 3 (2, 2)%nat
    ∧ (Z.to_nat (3 * 3) < 10)%nat
    ∧ ∃ buttons' opened,
        reveal_trace 10 3 3 buttons (2, 2)%nat = Some (buttons', opened)
        ∧ reveal_empty_region 10 3 3 buttons (2, 2)%nat = Some buttons'
        ∧ (2, 2)%nat ∈ opened
        ∧ (∀ r, r ∈ opened → is_interior 3 3 r)
        ∧ (∀ r, r ∈ opened → r ≠ (2, 2)%nat →
             ∃ btn, deref buttons r = Some btn ∧ is_open btn = false)
        ∧ ∀ q, deref buttons' q
               = (if decide (q ∈ opened) then open_button else id)
                   <$> deref buttons q.
Proof.
  destruct (setup_grid_spec 3 3) as (b & Hb & Hok & _); [lia|lia|].
  assert (Hin : is_interior 3 3 (2, 2)%nat) by (unfold is_interior; simpl; lia).
  assert (Hfuel : (Z.to_nat (3 * 3) < 10)%nat) by (simpl; lia).
  exists b. split; [exact Hb|]. split; [exact Hok|]. split; [exact Hin|].
  split; [exact Hfuel|].
  exact (reveal_changes_only_opened 10 3 3 b (2, 2)%nat Hok Hin Hfuel).
Defined.

(** X2.  The cascade is complete and connected: around every cell with
    count 0 that entered the work list, every interior cell is marked
    open at the end; and every cell that entered the work list, but for
    the start, lies around such a cell. *)
Theorem reveal_cascade_complete (fuel : nat) (height width : Z)
    (buttons : Grid) (start : Ref) :
  grid_ok height width buttons → is_interior height width start →
  (Z.to_nat (height * width) < fuel)%nat →
  ∃ buttons' opened,
    reveal_trace fuel height width buttons start = Some (buttons', opened)
    ∧ (∀ r btn n,
         r ∈ opened → deref buttons r = Some btn → adjacent_mines btn = 0 →
         n ∈ around (row btn) (col btn) → is_interior height width n →
         ∃ btn', deref buttons' n = Some btn' ∧ is_open btn' = true)
    ∧ ∀ r, r ∈ opened → r ≠ start →
        ∃ r0 btn0,
          r0 ∈ opened ∧ deref buttons r0 = Some btn0
          ∧ adjacent_mines btn0 = 0 ∧ r ∈ around (row btn0) (col btn0).
Proof.
  intros Hok Hstart Hfuel.
  destruct (reveal_empty_region_ok _ _ _ _ _ Hok Hstart Hfuel)
    as (b' & Hrun & _).
  unfold reveal_empty_region in *.
  destruct (reveal_trace _ _ _ _ _) as [[b2 opened]|] eqn:Htrace;
    simpl in Hrun; [|done].
  injection Hrun as ->. exists b', opened.
  destruct (reveal_trace_fill _ _ _ _ _ _ _ Hok Hstart Htrace)
    as [Hfin Hin].
  pose proof (reveal_trace_frame _ _ _ _ _ _ _ Hok Hstart Htrace) as Hframe.
  split_and!; try done.
  - intros r btn n Hr Hb Hz Hn Hint. rewrite Hframe.
    destruct (fill_closed _ _ _ _ _ _ _ Hfin r btn n Hr) as [Hp|Hopen];
      try done.
    { by intros ?%elem_of_nil. }
    + destruct (deref_interior _ _ _ _ Hok Hint) as (c & Hc & _).
      rewrite Hc, decide_True by done. simpl. eexists. split; [done|].
      apply open_button_fields.
    + destruct Hopen as (c & Hc & Hopen). rewrite Hc. simpl.
      eexists. split; [done|]. case_decide; [|done].
      apply open_button_fields.
  - intros r Hr Hne.
    destruct (fill_origin _ _ _ _ _ _ _ Hfin r Hr Hne)
      as (_ & r0 & btn0 & ? & _ & ? & ? & ?).
    by exists r0, btn0.
Qed.

Lemma reveal_cascade_complete_witness :
  ∃ buttons,
    setup_grid 3 3 = Some buttons
    ∧ grid_ok 3 3 buttons
    ∧ is_interior 3 3 (1, 3)%nat
    ∧ (Z.to_nat (3 * 3) < 10)%nat
    ∧ ∃ buttons' opened,
        reveal_trace 10 3 3 buttons (1, 3)%nat = Some (buttons', opened)
        ∧ (∀ r btn n,
             r ∈ opened → deref buttons r = Some btn →
             adjacent_mines btn = 0 →
             n ∈ around (row btn) (col btn) → is_interior 3 3 n →
             ∃ btn', deref buttons' n = Some btn' ∧ is_open btn' = true)
        ∧ ∀ r, r ∈ opened → r ≠ (1, 3)%nat →
            ∃ r0 btn0,
              r0 ∈ opened ∧ deref buttons r0 = Some btn0
              ∧ adjacent_mines btn0 = 0 ∧ r ∈ around (row btn0) (col btn0).
Proof.
  destruct (setup_grid_spec 3 3) as (b & Hb & Hok & _); [lia|lia|].
  assert (Hin : is_interior 3 3 (1, 3)%nat) by (unfold is_interior; simpl; lia).
  assert (Hfuel : (Z.to_nat (3 * 3) < 10)%nat) by (simpl; lia).
  exists b. split; [exact Hb|]. split; [exact Hok|]. split; [exact Hin|].
  split; [exact Hfuel|].
  exact (reveal_cascade_complete 10 3 3 b (1, 3)%nat Hok Hin Hfuel).
Defined.

(** X3.  On a grid whose counts of 0 are truthful, as
    [calculate_adjacent_mines] leaves them, the flood fill started on a
    cell without a mine lets no mine into its work list: every cell
    with a mine is after the fill exactly what it was before. *)
Theorem reveal_opens_no_mine (fuel : nat) (height width : Z)
    (buttons : Grid) (start : Ref) (start_btn : FieldButton) :
  grid_ok height width buttons → is_interior height width start →
  zero_safe height width buttons →
  deref buttons start = Some start_btn → is_mine start_btn = false →
  (Z.to_nat (height * width) < fuel)%nat →
  ∃ buttons' opened,
    reveal_trace fuel height width buttons start = Some (buttons', opened)
    ∧ (∀ r, r ∈ opened →
         ∃ btn, deref buttons r = Some btn ∧ is_mine btn = false)
    ∧ ∀ q btn, deref buttons q = Some btn → is_mine btn = true →
        deref buttons' q = Some btn.
Proof.
  intros Hok Hstart Hzero Hsb Hsm Hfuel.
  destruct (reveal_empty_region_ok _ _ _ _ _ Hok Hstart Hfuel)
    as (b' & Hrun & _).
  unfold reveal_empty_region in *.
  destruct (reveal_trace _ _ _ _ _) as [[b2 opened]|] eqn:Htrace;
    simpl in Hrun; [|done].
  injection Hrun as ->. exists b', opened.
  pose proof (reveal_trace_frame _ _ _ _ _ _ _ Hok Hstart Htrace) as Hframe.
  pose proof (reveal_trace_safe _ _ _ _ _ _ _ _ Hok Hstart Hzero Hsb Hsm
                Htrace) as Hsafe.
  split_and!; try done.
  intros q btn Hq Hmine. rewrite Hframe, Hq. simpl.
  case_decide as Hin; [|done].
  destruct (Hsafe q Hin) as (c & Hc & Hcm). congruence.
Qed.

Lemma reveal_opens_no_mine_witness :
  ∃ start buttons,
    setup_grid 2 3 = Some start
    ∧ (btn ← deref start (2, 1)%nat;
       b1 ← place_mines reverse 2 3 2 (number btn) start;
       calculate_adjacent_mines 2 3 b1) = Some buttons
    ∧ grid_ok 2 3 buttons
    ∧ is_interior 2 3 (2, 1)%nat
    ∧ zero_safe 2 3 buttons
    ∧ (Z.to_nat (2 * 3) < 7)%nat
    ∧ ∃ start_btn,
        deref buttons (2, 1)%nat = Some start_btn
        ∧ is_mine start_btn = false
        ∧ ∃ buttons' opened,
            reveal_trace 7 2 3 buttons (2, 1)%nat = Some (buttons', opened)
            ∧ (∀ r, r ∈ opened →
                 ∃ btn, deref buttons r = Some btn ∧ is_mine btn = false)
            ∧ ∀ q btn, deref buttons q = Some btn → is_mine btn = true →
                deref buttons' q = Some btn.
Proof.
  destruct (setup_grid_spec 2 3) as (b0 & Hb0 & Hok0 & Hq0); [lia|lia|].
  destruct (setup_grid_unmined 2 3) as (b0' & Hb0' & Hun); [lia|lia|].
  rewrite Hb0 in Hb0'. injection Hb0' as <-.
  assert (Hcl : all_closed b0).
  { intros q btn Hd. rewrite (Hq0 q btn Hd). by case_decide. }
  assert (Hin : is_interior 2 3 (2, 1)%nat) by (unfold is_interior; simpl; lia).
  destruct (first_click_setup reverse 2 3 2 b0 (2, 1)%nat)
    as (btn0 & M & b1 & b2 & Hd0 & _ & _ & Hb1 & Hb2 & _);
    [lia|lia|exact Hun|exact Hcl|exact Hin|].
  assert (Hrun : (btn ← deref b0 (2, 1)%nat;
                  b1 ← place_mines reverse 2 3 2 (number btn) b0;
                  calculate_adjacent_mines 2 3 b1) = Some b2).
  { rewrite Hd0. simpl. rewrite Hb1. simpl. exact Hb2. }
  destruct (first_click_spares reverse 2 3 2 b0 (2, 1)%nat b2)
    as (Hok & Hz & _ & btn & Hbtn & Hm);
    [lia|lia|exact Hun|exact Hcl|exact Hin|
     intros l; apply reverse_Permutation|exact Hrun|].
  assert (Hfuel : (Z.to_nat (2 * 3) < 7)%nat) by (simpl; lia).
  exists b0, b2. split; [exact Hb0|]. split; [exact Hrun|].
  split; [exact Hok|]. split; [exact Hin|]. split; [exact Hz|].
  split; [exact Hfuel|]. exists btn. split; [exact Hbtn|].
  split; [exact Hm|].
  exact (reveal_opens_no_mine 7 2 3 b2 (2, 1)%nat btn Hok Hin Hz Hbtn Hm
           Hfuel).
Defined.

(** ** Play *)

(** X4.  Play never raises: from a playable game, any sequence of left
    and right clicks on interior buttons, with fuel beyond the number of
    cells, runs to the end and leaves a playable game; in particular no
    cell marked open holds a mine, whatever was clicked. *)
Theorem play_never_raises (py_int : string → option Z) (fuel : nat)
    (acts : list Action) (s : Minesweeper) :
  playable s →
  (∀ a, a ∈ acts → is_interior (height s) (width s) (target a)) →
  (Z.to_nat (height s * width s) < fuel)%nat →
  ∃ s',
    for_each acts (perform py_int fuel) s = Some s'
    ∧ playable s'
    ∧ ∀ q btn, deref (buttons s') q = Some btn →
        is_open btn = true → is_mine btn = false.
Proof.
  intros Hplay Hint Hfuel.
  destruct (play_playable py_int fuel acts s Hplay Hint Hfuel)
    as (s' & Hrun & Hplay').
  exists s'. split; [done|]. split; [done|].
  by apply playable_opened_safe.
Qed.

Lemma play_never_raises_witness :
  ∃ s,
    new_game ∅ writes_succeed = Some s
    ∧ playable s
    ∧ (∀ a, a ∈ sample_play → is_interior (height s) (width s) (target a))
    ∧ (Z.to_nat (height s * width s) < 100)%nat
    ∧ ∃ s',
        for_each sample_play (perform decimal_int 100) s = Some s'
        ∧ playable s'
        ∧ ∀ q btn, deref (buttons s') q = Some btn →
            is_open btn = true → is_mine btn = false.
Proof.
  destruct (new_game_playable ∅ writes_succeed)
    as (s & Hs & Hplay & Hh & Hw & _).
  assert (Hint : ∀ a, a ∈ sample_play →
                   is_interior (height s) (width s) (target a)).
  { intros a Ha. rewrite Hh, Hw. exact (sample_play_targets a Ha). }
  assert (Hfuel : (Z.to_nat (height s * width s) < 100)%nat).
  { rewrite Hh, Hw. simpl. lia. }
  exists s. split; [exact Hs|]. split; [exact Hplay|].
  split; [exact Hint|]. split; [exact Hfuel|].
  exact (play_never_raises decimal_int 100 sample_play s Hplay Hint Hfuel).
Defined.

(** X5.  What play leaves alone: across any sequence of clicks the
    dimensions and the number of mines stay, and every button keeps its
    [row], [col] and [number]; a cell marked open stays marked open;
    and once the first click is over, no button changes [is_mine] or
    [adjacent_mines]. *)
Theorem play_keeps_cells (py_int : string → option Z) (fuel : nat)
    (acts : list Action) (s : Minesweeper) :
  playable s →
  (∀ a, a ∈ acts → is_interior (height s) (width s) (target a)) →
  (Z.to_nat (height s * width s) < fuel)%nat →
  ∃ s',
    for_each acts (perform py_int fuel) s = Some s'
    ∧ height s' = height s ∧ width s' = width s ∧ mines s' = mines s
    ∧ ∀ q btn, deref (buttons s) q = Some btn →
        ∃ btn',
          deref (buttons s') q = Some btn'
          ∧ row btn' = row btn ∧ col btn' = col btn
          ∧ number btn' = number btn
          ∧ (is_open btn = true → is_open btn' = true)
          ∧ (is_first_click s = false →
               is_mine btn' = is_mine btn
               ∧ adjacent_mines btn' = adjacent_mines btn).
Proof.
  intros Hplay Hint Hfuel.
  destruct (play_playable py_int fuel acts s Hplay Hint Hfuel)
    as (s' & Hrun & _).
  exists s'. split; [done|].
  destruct (play_evolves _ _ _ _ _ Hrun) as (Hev & Hh & Hw & Hm & Hlate).
  split_and!; try done. intros q btn Hq.
  pose proof (evolves_deref same_cell _ _ q Hev) as Hcell.
  rewrite Hq in Hcell. destruct Hcell as (btn' & Hq' & Hr & Hc & Hn & Ho).
  exists btn'. split_and!; try done. intros Hfirst.
  destruct (Hlate Hfirst) as [_ Hev'].
  pose proof (evolves_deref same_mine _ _ q Hev') as Hmine.
  rewrite Hq in Hmine. destruct Hmine as (btn2 & Hq2 & _ & ? & ?).
  rewrite Hq' in Hq2. by injection Hq2 as <-.
Qed.

Lemma play_keeps_cells_witness :
  ∃ s,
    new_game ∅ writes_succeed = Some s
    ∧ playable s
    ∧ (∀ a, a ∈ sample_play → is_interior (height s) (width s) (target a))
    ∧ (Z.to_nat (height s * width s) < 100)%nat
    ∧ ∃ s',
        for_each sample_play (perform decimal_int 100) s = Some s'
        ∧ height s' = height s ∧ width s' = width s ∧ mines s' = mines s
        ∧ ∀ q btn, deref (buttons s) q = Some btn →
            ∃ btn',
              deref (buttons s') q = Some btn'
              ∧ row btn' = row btn ∧ col btn' = col btn
              ∧ number btn' = number btn
              ∧ (is_open btn = true → is_open btn' = true)
              ∧ (is_first_click s = false →
                   is_mine btn' = is_mine btn
                   ∧ adjacent_mines btn' = adjacent_mines btn).
Proof.
  destruct (new_game_playable ∅ writes_succeed)
    as (s & Hs & Hplay & Hh & Hw & _).
  assert (Hint : ∀ a, a ∈ sample_play →
                   is_interior (height s) (width s) (target a)).
  { intros a Ha. rewrite Hh, Hw. exact (sample_play_targets a Ha). }
  assert (Hfuel : (Z.to_nat (height s * width s) < 100)%nat).
  { rewrite Hh, Hw. simpl. lia. }
  exists s. split; [exact Hs|]. split; [exact Hplay|].
  split; [exact Hint|]. split; [exact Hfuel|].
  exact (play_keeps_cells decimal_int 100 sample_play s Hplay Hint Hfuel).
Defined.

(** X6.  The flag budget: when the flag counter is not negative and
    counter and flags on the grid together do not exceed the number of
    mines, this stays so across any sequence of left and right clicks;
    so the counter stays between 0 and the number of mines and never
    more flags stand on the grid than there are mines. *)
Theorem play_keeps_flag_budget (py_int : string → option Z) (fuel : nat)
    (acts : list Action) (s : Minesweeper) :
  playable s → flags_within s →
  (∀ a, a ∈ acts → is_interior (height s) (width s) (target a)) →
  (Z.to_nat (height s * width s) < fuel)%nat →
  ∃ s',
    for_each acts (perform py_int fuel) s = Some s'
    ∧ flags_within s'
    ∧ mines s' = mines s
    ∧ 0 ≤ flags_left s' ≤ mines s
    ∧ 0 ≤ count_flags (buttons s') ≤ mines s.
Proof.
  intros Hplay Hflags Hint Hfuel.
  destruct (play_playable py_int fuel acts s Hplay Hint Hfuel)
    as (s' & Hrun & _).
  exists s'. split; [done|].
  assert (Hall : ∀ acts s s',
            for_each acts (perform py_int fuel) s = Some s' →
            flags_within s → flags_within s' ∧ mines s' = mines s).
  { clear. induction acts as [|a acts IH]; intros s s'; simpl.
    - by intros [= <-].
    - destruct (perform py_int fuel a s) as [s1|] eqn:Hact; simpl; [|done].
      intros Hrest Hfl.
      destruct (perform_flags_within _ _ _ _ _ Hact Hfl) as [Hfl1 Hm1].
      destruct (IH _ _ Hrest Hfl1) as [Hfl2 Hm2].
      split; [done|congruence]. }
  destruct (Hall _ _ _ Hrun Hflags) as [[Hneg Hsum] Hm].
  pose proof (count_flags_nonneg (buttons s')).
  split; [done|]. split; [done|]. lia.
Qed.

Lemma play_keeps_flag_budget_witness :
  ∃ s,
    new_game ∅ writes_succeed = Some s
    ∧ playable s
    ∧ flags_within s
    ∧ (∀ a, a ∈ sample_play → is_interior (height s) (width s) (target a))
    ∧ (Z.to_nat (height s * width s) < 100)%nat
    ∧ ∃ s',
        for_each sample_play (perform decimal_int 100) s = Some s'
        ∧ flags_within s'
        ∧ mines s' = mines s
        ∧ 0 ≤ flags_left s' ≤ mines s
        ∧ 0 ≤ count_flags (buttons s') ≤ mines s.
Proof.
  destruct (new_game_playable ∅ writes_succeed)
    as (s & Hs & Hplay & Hh & Hw & Hm & Hfl & _ & _ & Hcf & _).
  assert (Hflags : flags_within s).
  { unfold flags_within. rewrite Hfl, Hcf, Hm. lia. }
  assert (Hint : ∀ a, a ∈ sample_play →
                   is_interior (height s) (width s) (target a)).
  { intros a Ha. rewrite Hh, Hw. exact (sample_play_targets a Ha). }
  assert (Hfuel : (Z.to_nat (height s * width s) < 100)%nat).
  { rewrite Hh, Hw. simpl. lia. }
  exists s. split; [exact Hs|]. split; [exact Hplay|].
  split; [exact Hflags|]. split; [exact Hint|]. split; [exact Hfuel|].
  exact (play_keeps_flag_budget decimal_int 100 sample_play s Hplay Hflags
           Hint Hfuel).
Defined.

(** X7.  The first click is safe: on a playable game not yet started,
    for every outcome of the shuffle that is a permutation and every
    number of mines, a left click on an interior button completes,
    leaves the clicked cell without a mine, marked open and disabled,
    and shows no "Game Over". *)
Theorem first_click_is_safe (py_int : string → option Z) (fuel : nat)
    (shuffle : list Z → list Z) (elapsed : Z) (typed : option string)
    (button : Ref) (s : Minesweeper) :
  playable s → game_over s = false → is_first_click s = true →
  is_interior (height s) (width s) button →
  (∀ l, shuffle l ≡ₚ l) →
  (Z.to_nat (height s * width s) < fuel)%nat →
  ∃ s' btn',
    handle_click py_int fuel shuffle elapsed typed button s = Some s'
    ∧ is_first_click s' = false
    ∧ deref (buttons s') button = Some btn'
    ∧ is_mine btn' = false ∧ is_open btn' = true ∧ state btn' = disabled
    ∧ (ev_message "Game Over" ∈ events s' →
       ev_message "Game Over" ∈ events s).
Proof.
  intros Hplay Hover Hfc Hint Hperm Hfuel.
  pose proof Hplay as ((Hh0 & Hw0 & Hok & Hlb) & Hh & Hw & Hphase).
  rewrite Hfc in Hphase. destruct Hphase as [Hun Hcl].
  unfold handle_click. rewrite Hover, Hfc.
  destruct (first_click_setup shuffle (height s) (width s) (mines s)
              (buttons s) button Hh Hw Hun Hcl Hint)
    as (btn0 & M & b1 & b2 & Hb0 & _ & _ & Hb1 & Hb2 & _).
  destruct (first_click_spares shuffle (height s) (width s) (mines s)
              (buttons s) button b2 Hh Hw Hun Hcl Hint Hperm)
    as (Hok2 & Hz2 & Hc2 & btn & Hb & Hmine).
  { rewrite Hb0. simpl. rewrite Hb1. simpl. exact Hb2. }
  rewrite Hb0. simpl. rewrite Hb1. simpl. rewrite Hb2. simpl.
  rewrite Hb. simpl. rewrite Hmine.
  destruct (open_branch fuel (height s) (width s) b2 button btn Hok2 Hint
              Hz2 (all_closed_opened_safe _ Hc2) Hb Hmine Hfuel)
    as (b3 & -> & Hok3 & Hev3 & _ & btn3 & Hb3 & Hopen3).
  simpl.
  set (s2 := set_buttons (assign (config_state disabled) button b3)
               (set_is_first_click false (set_buttons b2 s))).
  assert (Hwf2 : well_formed s2).
  { unfold well_formed, s2. simpl. split_and!; try done.
    apply grid_ok_assign; [apply keeps_pos_config_state|done]. }
  destruct (check_win_total py_int elapsed typed s2 Hwf2)
    as (s' & won & Hcheck & _ & Hev' & Hfc').
  rewrite Hcheck. simpl.
  assert (Hs2 : deref (buttons s2) button
                = Some (config_state disabled btn3)).
  { unfold s2. simpl. by rewrite deref_assign_eq, Hb3. }
  pose proof (evolves_deref same_open _ _ button Hev') as Hcell.
  rewrite Hs2 in Hcell.
  destruct Hcell as (btn' & Hb' & (_ & Hm' & _) & Ho').
  destruct (check_win_frame stays_disabled _ _ _ _ _ _
              (cc_state _ _ (click_closed_stays_disabled false)) Hcheck)
    as (Hevd & _).
  pose proof (evolves_deref stays_disabled _ _ button Hevd) as Hdis.
  rewrite Hs2 in Hdis. destruct Hdis as (btn2 & Hb2' & Hst).
  rewrite Hb' in Hb2'. injection Hb2' as <-.
  destruct (evolves_back same_mine _ _ _ _ Hev3 Hb3)
    as (c & Hc & _ & Hm3 & _).
  rewrite Hb in Hc. injection Hc as <-.
  exists s', btn'. split_and!; try done.
  - simpl in *. congruence.
  - simpl in *. congruence.
  - by apply Hst.
  - intros Hin. by apply (check_win_events _ _ _ _ _ _ Hcheck) in Hin.
Qed.

Lemma first_click_is_safe_witness :
  ∃ s,
    new_game ∅ writes_succeed = Some s
    ∧ playable s ∧ game_over s = false ∧ is_first_click s = true
    ∧ is_interior (height s) (width s) (4, 7)%nat
    ∧ (∀ l : list Z, reverse l ≡ₚ l)
    ∧ (Z.to_nat (height s * width s) < 100)%nat
    ∧ ∃ s' btn',
        handle_click decimal_int 100 reverse 0 None (4, 7)%nat s = Some s'
        ∧ is_first_click s' = false
        ∧ deref (buttons s') (4, 7)%nat = Some btn'
        ∧ is_mine btn' = false ∧ is_open btn' = true
        ∧ state btn' = disabled
        ∧ (ev_message "Game Over" ∈ events s' →
           ev_message "Game Over" ∈ events s).
Proof.
  destruct (new_game_playable ∅ writes_succeed)
    as (s & Hs & Hplay & Hh & Hw & _ & _ & Hgo & Hfc & _).
  assert (Hint : is_interior (height s) (width s) (4, 7)%nat).
  { rewrite Hh, Hw. unfold is_interior. simpl. lia. }
  assert (Hperm : ∀ l : list Z, reverse l ≡ₚ l).
  { intros l. apply reverse_Permutation. }
  assert (Hfuel : (Z.to_nat (height s * width s) < 100)%nat).
  { rewrite Hh, Hw. simpl. lia. }
  exists s. split; [exact Hs|]. split; [exact Hplay|]. split; [exact Hgo|].
  split; [exact Hfc|]. split; [exact Hint|]. split; [exact Hperm|].
  split; [exact Hfuel|].
  exact (first_click_is_safe decimal_int 100 reverse 0 None (4, 7)%nat s
           Hplay Hgo Hfc Hint Hperm Hfuel).
Defined.

(** X8.  A click on a mine after the first click ends the game: the
    call completes whatever the fuel, the game is over, "Game Over" is
    the one message shown, the leaderboards, the files and the flag
    counter are untouched, every interior button is disabled, the ones
    with a mine show the mine marker, flagged or not, and the others
    keep their text, a wrong flag included. *)
Theorem click_on_mine_loses (py_int : string → option Z) (fuel : nat)
    (shuffle : list Z → list Z) (elapsed : Z) (typed : option string)
    (button : Ref) (s : Minesweeper) (btn : FieldButton) :
  well_formed s → game_over s = false → is_first_click s = false →
  is_interior (height s) (width s) button →
  deref (buttons s) button = Some btn → is_mine btn = true →
  ∃ s',
    handle_click py_int fuel shuffle elapsed typed button s = Some s'
    ∧ game_over s' = true
    ∧ events s' = events s ++ [ev_message "Game Over"]
    ∧ leaderboards s' = leaderboards s ∧ files s' = files s
    ∧ flags_left s' = flags_left s
    ∧ ∀ q, deref (buttons s') q
           = (if decide (is_interior (height s) (width s) q)
              then show_mine else id) <$> deref (buttons s) q.
Proof.
  intros (Hh & Hw & Hok & _) Hover Hfc Hint Hb Hmine.
  unfold handle_click. rewrite Hover, Hfc. simpl. rewrite Hb. simpl.
  rewrite Hmine. unfold game_lost. simpl.
  destruct (for_interior_spec (height s) (width s) show_mine
              (assign (config_text text_mine) button (buttons s)))
    as (b' & Hloop & _ & Hd); [done|done| |apply keeps_pos_lost_mark|].
  { apply grid_ok_assign; [apply keeps_pos_config_text|done]. }
  unfold show_mine in Hloop at 1. rewrite Hloop. simpl.
  eexists. split; [done|]. simpl. split_and!; try done.
  intros q. rewrite Hd, deref_assign.
  destruct (decide (button = q)) as [<-|Hne]; [|done].
  rewrite Hb. simpl. rewrite decide_True by done.
  unfold show_mine. simpl. by rewrite Hmine.
Qed.

Lemma click_on_mine_loses_witness :
  ∃ s0 s btn,
    new_game ∅ writes_succeed = Some s0
    ∧ handle_click decimal_int 100 (shuffled_first corner_mines) 0 None
        (9, 9)%nat s0 = Some s
    ∧ well_formed s ∧ game_over s = false ∧ is_first_click s = false
    ∧ is_interior (height s) (width s) (1, 2)%nat
    ∧ deref (buttons s) (1, 2)%nat = Some btn ∧ is_mine btn = true
    ∧ ∃ s',
        handle_click decimal_int 100 reverse 5 None (1, 2)%nat s = Some s'
        ∧ game_over s' = true
        ∧ events s' = events s ++ [ev_message "Game Over"]
        ∧ leaderboards s' = leaderboards s ∧ files s' = files s
        ∧ flags_left s' = flags_left s
        ∧ ∀ q, deref (buttons s') q
               = (if decide (is_interior (height s) (width s) q)
                  then show_mine else id) <$> deref (buttons s) q.
Proof.
  destruct (new_game_playable ∅ writes_succeed)
    as (s0 & Hs0 & Hplay0 & Hh0 & Hw0 & _).
  assert (Hint0 : is_interior (height s0) (width s0) (9, 9)%nat).
  { rewrite Hh0, Hw0. unfold is_interior. simpl. lia. }
  assert (Hfuel0 : (Z.to_nat (height s0 * width s0) < 100)%nat).
  { rewrite Hh0, Hw0. simpl. lia. }
  destruct (handle_click_playable decimal_int 100
              (shuffled_first corner_mines) 0 None (9, 9)%nat s0
              Hplay0 Hint0 Hfuel0) as (s & Hs & Hplay).
  assert (Hrun : (new_game ∅ writes_succeed ≫= handle_click decimal_int 100
                    (shuffled_first corner_mines) 0 None (9, 9)%nat)
                 = Some s).
  { rewrite Hs0. exact Hs. }
  assert (Hfacts : game_over s = false ∧ is_first_click s = false
                   ∧ height s = 9 ∧ width s = 9
                   ∧ (is_mine <$> deref (buttons s) (1, 2)%nat) = Some true).
  { revert Hrun. generalize s. vm_compute. intros s1 H.
    injection H as <-. repeat split. }
  destruct Hfacts as (Hgo & Hfc & Hh & Hw & Hm).
  destruct (deref (buttons s) (1, 2)%nat) as [btn|] eqn:Hb;
    [|discriminate Hm].
  injection Hm as Hm.
  assert (Hint : is_interior (height s) (width s) (1, 2)%nat).
  { rewrite Hh, Hw. unfold is_interior. simpl. lia. }
  exists s0, s, btn. split; [exact Hs0|]. split; [exact Hs|].
  split; [exact (proj1 Hplay)|]. split; [exact Hgo|]. split; [exact Hfc|].
  split; [exact Hint|]. split; [exact Hb|]. split; [exact Hm|].
  exact (click_on_mine_loses decimal_int 100 reverse 5 None (1, 2)%nat s btn
           (proj1 Hplay) Hgo Hfc Hint Hb Hm).
Defined.

(** X9.  A finished game ignores the mouse: once [game_over] is set,
    every sequence of left and right clicks on interior buttons leaves
    the whole game object as it is. *)
Theorem finished_game_ignores_actions (py_int : string → option Z)
    (fuel : nat) (acts : list Action) (s : Minesweeper) :
  game_over s = true →
  grid_ok (height s) (width s) (buttons s) →
  (∀ a, a ∈ acts → is_interior (height s) (width s) (target a)) →
  for_each acts (perform py_int fuel) s = Some s.
Proof.
  intros Hover Hok. induction acts as [|a acts IH]; intros Hint; [done|].
  simpl.
  assert (Hact : perform py_int fuel a s = Some s).
  { destruct (deref_interior _ _ _ _ Hok (Hint a ltac:(by left)))
      as (btn & Hb & _).
    destruct a as [button shuffle elapsed typed|button]; simpl in *.
    - rewrite Hb. simpl. case_bool_decide; [|done].
      unfold handle_click. by rewrite Hover.
    - unfold toggle_flag. by rewrite Hover. }
  rewrite Hact. simpl. apply IH. intros b Hb. apply Hint. by right.
Qed.

Lemma finished_game_ignores_actions_witness :
  ∃ s,
    (s0 ← new_game ∅ writes_succeed;
     s1 ← handle_click decimal_int 100 (shuffled_first corner_mines) 0 None
            (9, 9)%nat s0;
     handle_click decimal_int 100 reverse 5 None (1, 2)%nat s1) = Some s
    ∧ game_over s = true
    ∧ grid_ok (height s) (width s) (buttons s)
    ∧ (∀ a, a ∈ sample_play → is_interior (height s) (width s) (target a))
    ∧ for_each sample_play (perform decimal_int 100) s = Some s.
Proof.
  destruct (new_game_playable ∅ writes_succeed)
    as (s0 & Hs0 & Hplay0 & Hh0 & Hw0 & _).
  assert (Hfuel0 : (Z.to_nat (height s0 * width s0) < 100)%nat).
  { rewrite Hh0, Hw0. simpl. lia. }
  destruct (handle_click_playable decimal_int 100
              (shuffled_first corner_mines) 0 None (9, 9)%nat s0 Hplay0)
    as (s1 & Hs1 & Hplay1); [|exact Hfuel0|].
  { rewrite Hh0, Hw0. unfold is_interior. simpl. lia. }
  destruct (handle_click_frame same_cell decimal_int _ _ _ _ _ _ _
              (click_closed_same_cell _) Hs1) as (_ & Hh1 & Hw1 & _).
  destruct (handle_click_playable decimal_int 100 reverse 5 None (1, 2)%nat
              s1 Hplay1) as (s & Hs & Hplay).
  { rewrite Hh1, Hw1, Hh0, Hw0. unfold is_interior. simpl. lia. }
  { rewrite Hh1, Hw1. exact Hfuel0. }
  assert (Hrun : (s0 ← new_game ∅ writes_succeed;
                  s1 ← handle_click decimal_int 100
                         (shuffled_first corner_mines) 0 None (9, 9)%nat s0;
                  handle_click decimal_int 100 reverse 5 None (1, 2)%nat s1)
                 = Some s).
  { rewrite Hs0. simpl. rewrite Hs1. exact Hs. }
  assert (Hfacts : game_over s = true ∧ height s = 9 ∧ width s = 9).
  { revert Hrun. generalize s. vm_compute. intros s2 H.
    injection H as <-. repeat split. }
  destruct Hfacts as (Hgo & Hh & Hw).
  assert (Hok : grid_ok (height s) (width s) (buttons s)).
  { destruct Hplay as ((_ & _ & Hok & _) & _). exact Hok. }
  assert (Hint : ∀ a, a ∈ sample_play →
                   is_interior (height s) (width s) (target a)).
  { intros a Ha. rewrite Hh, Hw. exact (sample_play_targets a Ha). }
  exists s. split; [exact Hrun|]. split; [exact Hgo|]. split; [exact Hok|].
  split; [exact Hint|].
  exact (finished_game_ignores_actions decimal_int 100 sample_play s
           Hgo Hok Hint).
Defined.

(** X10.  [set_difficulty] and the [reset_game] it ends with start a
    fresh game: for dimensions of at least one cell the call completes
    and leaves a playable game not over and not started, with the given
    settings, the flag counter at the number of mines, no flag on the
    grid and every cell closed; the player name, the leaderboards, the
    files and the messages shown are kept; and [reset_game] on the
    result changes nothing. *)
Theorem set_difficulty_fresh (h w m : Z) (s : Minesweeper) :
  1 ≤ h → 1 ≤ w →
  (∀ d, d ∈ difficulties → is_Some (leaderboards s !! d)) →
  ∃ s',
    set_difficulty (h, w, m) s = Some s'
    ∧ playable s'
    ∧ height s' = h ∧ width s' = w ∧ mines s' = m
    ∧ flags_left s' = m
    ∧ game_over s' = false ∧ is_first_click s' = true
    ∧ count_flags (buttons s') = 0
    ∧ all_closed (buttons s')
    ∧ player_name s' = player_name s
    ∧ leaderboards s' = leaderboards s ∧ files s' = files s
    ∧ events s' = events s
    ∧ reset_game s' = Some s'.
Proof.
  intros Hh Hw Hlb.
  destruct (set_difficulty_playable h w m s Hh Hw Hlb)
    as (s' & Hs' & Hplay & Hh' & Hw' & Hm' & Hfl & Hgo & Hfc & Hcf & Hpn
        & Hlb' & Hf & He).
  exists s'. split_and!; try done.
  - destruct Hplay as (_ & _ & _ & Hphase). rewrite Hfc in Hphase.
    by destruct Hphase.
  - unfold reset_game. rewrite Hh', Hw', Hm'.
    unfold set_difficulty in *.
    destruct (setup_grid h w) as [b|]; simpl in *; [|done].
    by injection Hs' as <-.
Qed.

Lemma set_difficulty_fresh_witness :
  ∃ s,
    new_game sample_files writes_succeed = Some s
    ∧ (1 ≤ 16 ∧ 1 ≤ 30)
    ∧ (∀ d, d ∈ difficulties → is_Some (leaderboards s !! d))
    ∧ ∃ s',
        set_difficulty (16, 30, 99) s = Some s'
        ∧ playable s'
        ∧ height s' = 16 ∧ width s' = 30 ∧ mines s' = 99
        ∧ flags_left s' = 99
        ∧ game_over s' = false ∧ is_first_click s' = true
        ∧ count_flags (buttons s') = 0
        ∧ all_closed (buttons s')
        ∧ player_name s' = player_name s
        ∧ leaderboards s' = leaderboards s ∧ files s' = files s
        ∧ events s' = events s
        ∧ reset_game s' = Some s'.
Proof.
  destruct (new_game_spec sample_files writes_succeed) as (s & Hs & Hwf & _).
  assert (Hlb : ∀ d, d ∈ difficulties → is_Some (leaderboards s !! d)).
  { destruct Hwf as (_ & _ & _ & Hlb). exact Hlb. }
  exists s. split; [exact Hs|]. split; [lia|]. split; [exact Hlb|].
  apply (set_difficulty_fresh 16 30 99 s); [lia|lia|exact Hlb].
Defined.

(** ** The board before the first click *)

(** X11.  [create_game_grid] followed by the numbering of [create_menu]
    gives a grid of [height + 2] rows of [width + 2] buttons, each at
    its position, without a mine, closed, with count 0, [normal] and
    with an empty text; the interior buttons carry the numbers 1 to
    [height * width] row by row, the border buttons the number 0. *)
Theorem setup_grid_fresh (height width : Z) :
  0 ≤ height → 0 ≤ width →
  ∃ buttons,
    setup_grid height width = Some buttons
    ∧ grid_ok height width buttons
    ∧ (∀ q btn, deref buttons q = Some btn →
         is_mine btn = false ∧ is_open btn = false
         ∧ adjacent_mines btn = 0 ∧ state btn = normal
         ∧ text btn = text_empty
         ∧ number btn = if decide (is_interior height width q)
                        then sequential_index width q else 0)
    ∧ number <$> interior_cells height width buttons
      = range 1 (height * width + 1)
    ∧ length (interior_cells height width buttons)
      = Z.to_nat (height * width).
Proof.
  intros Hh Hw.
  destruct (setup_grid_spec height width Hh Hw) as (b & Hb & Hok & Hq).
  destruct (setup_grid_unmined height width Hh Hw) as (b' & Hb' & Hun).
  rewrite Hb in Hb'. injection Hb' as <-.
  exists b. split_and!; try done.
  - intros q btn Hd. rewrite (Hq q btn Hd). by case_decide.
  - by apply unmined_numbers.
  - by apply length_interior_cells.
Qed.

Lemma setup_grid_fresh_witness :
  (0 ≤ 16 ∧ 0 ≤ 30)
  ∧ ∃ buttons,
      setup_grid 16 30 = Some buttons
      ∧ grid_ok 16 30 buttons
      ∧ (∀ q btn, deref buttons q = Some btn →
           is_mine btn = false ∧ is_open btn = false
           ∧ adjacent_mines btn = 0 ∧ state btn = normal
           ∧ text btn = text_empty
           ∧ number btn = if decide (is_interior 16 30 q)
                          then sequential_index 30 q else 0)
      ∧ number <$> interior_cells 16 30 buttons = range 1 (16 * 30 + 1)
      ∧ length (interior_cells 16 30 buttons) = Z.to_nat (16 * 30).
Proof.
  split; [lia|]. apply (setup_grid_fresh 16 30); lia.
Defined.

(** ** The choice of the mines, whatever the number asked for *)

(** X12.  [get_mines_places] raises exactly when the excluded number is
    not on the board.  Otherwise, for every outcome of the shuffle that
    is a permutation, it returns distinct numbers of the board without
    the excluded one; as many as asked for when there are that many,
    all the other cells when more are asked for, and for a negative
    number what the slice leaves: all the others but that many. *)
Theorem get_mines_places_any_mines (shuffle : list Z → list Z)
    (height width mines exclude : Z) :
  (∀ l, shuffle l ≡ₚ l) →
  (get_mines_places shuffle height width mines exclude = None
   ↔ ¬ (1 ≤ exclude ≤ width * height))
  ∧ ∀ index_mines,
      get_mines_places shuffle height width mines exclude
      = Some index_mines →
      NoDup index_mines
      ∧ (exclude ∉ index_mines)
      ∧ (∀ n, n ∈ index_mines → 1 ≤ n ≤ width * height)
      ∧ Z.of_nat (length index_mines)
        = Z.max 0 (if bool_decide (0 ≤ mines)
                   then Z.min mines (width * height - 1)
                   else width * height - 1 + mines).
Proof.
  intros Hperm. split.
  - split; [apply get_mines_places_None|].
    intros Hout.
    destruct (get_mines_places shuffle height width mines exclude)
      as [M|] eqn:HM; [|done].
    destruct (get_mines_places_prefix _ _ _ _ _ _ Hperm HM)
      as (_ & Hex & Hin & _).
    exfalso. apply Hout. unfold get_mines_places in HM.
    destruct (list_remove exclude (range 1 (width * height + 1)))
      as [l|] eqn:Hrem; [|done].
    apply list_remove_spec in Hrem.
    assert (Hr : exclude ∈ range 1 (width * height + 1)).
    { rewrite Hrem. by left. }
    apply elem_of_range in Hr. lia.
  - intros M HM. by apply (get_mines_places_prefix shuffle height width mines
                             exclude).
Qed.

Lemma get_mines_places_any_mines_witness :
  (∀ l : list Z, reverse l ≡ₚ l)
  ∧ (get_mines_places reverse 2 3 10 4 = None ↔ ¬ (1 ≤ 4 ≤ 3 * 2))
  ∧ ∀ index_mines,
      get_mines_places reverse 2 3 10 4 = Some index_mines →
      NoDup index_mines
      ∧ (4 ∉ index_mines)
      ∧ (∀ n, n ∈ index_mines → 1 ≤ n ≤ 3 * 2)
      ∧ Z.of_nat (length index_mines)
        = Z.max 0 (if bool_decide (0 ≤ 10)
                   then Z.min 10 (3 * 2 - 1)
                   else 3 * 2 - 1 + 10).
Proof.
  assert (Hperm : ∀ l : list Z, reverse l ≡ₚ l).
  { intros l. apply reverse_Permutation. }
  split; [exact Hperm|].
  exact (get_mines_places_any_mines reverse 2 3 10 4 Hperm).
Defined.

(** ** The counts, computed twice *)

(** X13.  [calculate_adjacent_mines] changes nothing but the field
    [adjacent_mines] of interior cells, stores 0 in the cells that hold
    a mine, and is idempotent: run on its own result it returns that
    result. *)
Theorem calculate_adjacent_mines_idempotent (height width : Z)
    (start : Grid) :
  0 ≤ height → 0 ≤ width → grid_ok height width start →
  ∃ buttons,
    calculate_adjacent_mines height width start = Some buttons
    ∧ calculate_adjacent_mines height width buttons = Some buttons
    ∧ ∀ q btn, deref start q = Some btn →
        ∃ btn',
          deref buttons q = Some btn'
          ∧ btn' = set_adjacent_mines (adjacent_mines btn') btn
          ∧ (is_interior height width q → is_mine btn = true →
               adjacent_mines btn' = 0)
          ∧ (¬ is_interior height width q → btn' = btn).
Proof.
  intros Hh Hw Hok.
  destruct (calculate_adjacent_mines_spec _ _ _ Hh Hw Hok)
    as (b & Hb & Hokb & Hd).
  destruct (calculate_adjacent_mines_spec _ _ _ Hh Hw Hokb)
    as (b2 & Hb2 & Hokb2 & Hd2).
  exists b. split; [done|]. split.
  - rewrite Hb2. f_equal. apply (grid_ext height width); try done.
    intros q. rewrite Hd2, Hd.
    destruct (deref start q) as [btn|]; [|done]. simpl.
    case_decide as Hint; [|done]. simpl. f_equal.
    unfold adjacency_of. simpl.
    rewrite (mines_around_preserved height width
               (λ q, if decide (is_interior height width q)
                     then adjacency_of start q else id) start b);
      try done.
    + intros q' c. by case_decide.
    + unfold is_interior in Hint. lia.
    + unfold is_interior in Hint. lia.
  - intros q btn Hq. rewrite Hd, Hq. simpl. eexists. split; [done|].
    case_decide as Hint; simpl.
    + split; [by destruct btn|]. split; [|done].
      intros _ Hm. unfold adjacency_of. simpl. by rewrite Hm.
    + split; [by destruct btn|]. split; [done|done].
Qed.

Lemma calculate_adjacent_mines_idempotent_witness :
  ∃ start,
    (setup_grid 2 3 ≫= place_mines reverse 2 3 2 4) = Some start
    ∧ (0 ≤ 2 ∧ 0 ≤ 3)
    ∧ grid_ok 2 3 start
    ∧ ∃ buttons,
        calculate_adjacent_mines 2 3 start = Some buttons
        ∧ calculate_adjacent_mines 2 3 buttons = Some buttons
        ∧ ∀ q btn, deref start q = Some btn →
            ∃ btn',
              deref buttons q = Some btn'
              ∧ btn' = set_adjacent_mines (adjacent_mines btn') btn
              ∧ (is_interior 2 3 q → is_mine btn = true →
                   adjacent_mines btn' = 0)
              ∧ (¬ is_interior 2 3 q → btn' = btn).
Proof.
  destruct (setup_grid_unmined 2 3) as (b0 & Hb0 & Hun); [lia|lia|].
  destruct (get_mines_places_is_Some reverse 2 3 2 4) as [M HM]; [lia|].
  destruct (place_mines_spec reverse 2 3 2 4 b0 M)
    as (b & Hb & Hok & _); [lia|lia|exact (proj1 Hun)|exact HM|].
  exists b. split; [rewrite Hb0; exact Hb|]. split; [lia|].
  split; [exact Hok|].
  apply (calculate_adjacent_mines_idempotent 2 3 b); [lia|lia|exact Hok].
Defined.

(** ** Persistence *)

(** X14.  What survives the files.  After [save_leaderboards] the
    file of a difficulty is what the attempt to write one row (name,
    time) per entry left: those rows, the file as it was when the write
    was refused, or what a failed write left; and [load_leaderboards]
    then finds what that file gives.  When the rows were written, this
    is the list of the entries with a positive time, each with a missing
    or empty name replaced by "Anonymous" and a time above 999 by 999,
    sorted again and cut to five; so a leaderboard as loading leaves it
    comes back unchanged. *)
Theorem save_then_load (py_int : string → option Z) (s : Minesweeper)
    (d : string) (l : list LeaderboardEntry) :
  leaderboards s !! d = Some l →
  ∃ rows,
    rows = (λ e, [default "" (name e); py_str (time e)]) <$> l
    ∧ files (save_leaderboards s) !! filename d
      = after_write (write_outcome s (filename d) rows) rows
          (files s !! filename d)
    ∧ leaderboards (load_leaderboards py_int (save_leaderboards s)) !! d
      = Some (load_one py_int (files (save_leaderboards s)) d l)
    ∧ (write_outcome s (filename d) rows = write_done →
       (∀ e, e ∈ l → py_int (py_str (time e)) = Some (time e)) →
       files (save_leaderboards s) !! filename d = Some (content rows)
       ∧ leaderboards (load_leaderboards py_int (save_leaderboards s)) !! d
         = Some (take 5 (sort_by_time
                           (reloaded <$> filter (λ e, 0 < time e) l)))
       ∧ (canonical l →
          leaderboards (load_leaderboards py_int (save_leaderboards s)) !! d
          = Some l)).
Proof.
  intros Hl. exists (entry_row <$> l). split; [done|].
  destruct (save_load_lookup py_int s d l Hl) as [Hfile Hload].
  split; [done|]. split; [done|]. intros Hdone Hint.
  rewrite Hdone in Hfile. cbn [after_write] in Hfile.
  rewrite Hload,
    (load_one_written py_int (files (save_leaderboards s)) d l l Hfile Hint).
  split; [done|]. split; [done|]. intros Hcan.
  rewrite (reloaded_canonical l Hcan).
  destruct Hcan as (Hsorted & Hlen & _).
  rewrite (sort_by_time_sorted l Hsorted). f_equal.
  by apply take_ge.
Qed.

Lemma save_then_load_witness :
  ∃ s0 s,
    new_game ∅ writes_succeed = Some s0
    ∧ s = set_leaderboards (<["expert" := sample_entries]> (leaderboards s0))
            s0
    ∧ leaderboards s !! "expert" = Some sample_entries
    ∧ write_outcome s (filename "expert")
        ((λ e, [default "" (name e); py_str (time e)]) <$> sample_entries)
      = write_done
    ∧ (∀ e, e ∈ sample_entries →
         decimal_int (py_str (time e)) = Some (time e))
    ∧ canonical sample_entries
    ∧ files (save_leaderboards s) !! filename "expert"
      = Some (content [["amy"; "40"]; ["Anonymous"; "40"]; ["cat"; "999"]])
    ∧ leaderboards (load_leaderboards decimal_int (save_leaderboards s))
        !! "expert"
      = Some sample_entries.
Proof.
  destruct (new_game_spec ∅ writes_succeed) as (s0 & Hs0 & _).
  set (s := set_leaderboards
              (<["expert" := sample_entries]> (leaderboards s0)) s0).
  assert (Hl : leaderboards s !! "expert" = Some sample_entries).
  { unfold s. simpl. apply lookup_insert_eq. }
  assert (Hdone : write_outcome s (filename "expert")
                    ((λ e, [default "" (name e); py_str (time e)])
                       <$> sample_entries)
                  = write_done).
  { unfold s. simpl. by rewrite (new_game_writes _ _ _ Hs0). }
  assert (Hint : ∀ e, e ∈ sample_entries →
                   decimal_int (py_str (time e)) = Some (time e)).
  { intros e He. unfold sample_entries in He.
    apply elem_of_cons in He as [->|He]; [vm_compute; reflexivity|].
    apply elem_of_cons in He as [->|He]; [vm_compute; reflexivity|].
    apply elem_of_cons in He as [->|He]; [vm_compute; reflexivity|].
    by apply elem_of_nil in He. }
  destruct (save_then_load decimal_int s "expert" sample_entries Hl)
    as (rows & -> & _ & _ & Hwritten).
  destruct (Hwritten Hdone Hint) as (Hfile & _ & Hsame).
  exists s0, s. split; [exact Hs0|]. split; [reflexivity|].
  split; [exact Hl|]. split; [exact Hdone|]. split; [exact Hint|].
  split; [exact canonical_sample_entries|].
  split; [exact Hfile|]. exact (Hsame canonical_sample_entries).
Defined.

(** X15.  The edges of [load_leaderboards]: it keeps the set of
    difficulties; a difficulty without a file keeps the list held in
    memory; one whose file cannot be read gets the empty list; nothing
    but the leaderboards changes; and loading twice is loading once. *)
Theorem load_leaderboards_edges (py_int : string → option Z)
    (s : Minesweeper) :
  (∀ d, is_Some (leaderboards (load_leaderboards py_int s) !! d)
        ↔ is_Some (leaderboards s !! d))
  ∧ (∀ d, files s !! filename d = None →
       leaderboards (load_leaderboards py_int s) !! d
       = leaderboards s !! d)
  ∧ (∀ d, is_Some (leaderboards s !! d) →
       files s !! filename d = Some unreadable →
       leaderboards (load_leaderboards py_int s) !! d = Some [])
  ∧ files (load_leaderboards py_int s) = files s
  ∧ events (load_leaderboards py_int s) = events s
  ∧ buttons (load_leaderboards py_int s) = buttons s
  ∧ load_leaderboards py_int (load_leaderboards py_int s)
    = load_leaderboards py_int s.
Proof.
  split_and!; try done.
  - intros d. rewrite lookup_load_leaderboards. apply fmap_is_Some.
  - intros d Hnone. rewrite lookup_load_leaderboards.
    destruct (leaderboards s !! d) as [l|]; [|done]. simpl.
    unfold load_one. by rewrite Hnone.
  - intros d [l Hl] Hbad. rewrite lookup_load_leaderboards, Hl. simpl.
    unfold load_one. by rewrite Hbad.
  - assert (Heq : leaderboards
                    (load_leaderboards py_int (load_leaderboards py_int s))
                  = leaderboards (load_leaderboards py_int s)).
    { apply map_eq. intros d. rewrite !lookup_load_leaderboards.
      change (files (load_leaderboards py_int s)) with (files s).
      destruct (leaderboards s !! d) as [l|]; [|done]. simpl.
      by rewrite load_one_idempotent. }
    unfold load_leaderboards at 1. unfold set_leaderboards.
    change (map_imap _ (leaderboards (load_leaderboards py_int s)))
      with (leaderboards
              (load_leaderboards py_int (load_leaderboards py_int s))).
    rewrite Heq. by destruct (load_leaderboards py_int s).
Qed.

(** ** Reset of the scores *)

(** X16.  [reset_leaderboards] does nothing when the question is
    answered with no.  Answered with yes it empties the three
    leaderboards in memory, removes those of the three files whose
    removal succeeds, touches no other file and nothing of the game,
    and reports the reset.  The reset lasts only where the file is gone:
    at the next [load_leaderboards] a difficulty whose file could not
    be removed has its stored scores back. *)
Theorem reset_leaderboards_spec (py_int : string → option Z)
    (removed : string → bool) (s : Minesweeper) :
  reset_leaderboards false removed s = s
  ∧ (∀ d, d ∈ difficulties →
       leaderboards (reset_leaderboards true removed s) !! d = Some [])
  ∧ (∀ d, d ∈ difficulties →
       files (reset_leaderboards true removed s) !! filename d
       = if removed (filename d) then None else files s !! filename d)
  ∧ (∀ x, x ∉ filename <$> difficulties →
       files (reset_leaderboards true removed s) !! x = files s !! x)
  ∧ buttons (reset_leaderboards true removed s) = buttons s
  ∧ game_over (reset_leaderboards true removed s) = game_over s
  ∧ flags_left (reset_leaderboards true removed s) = flags_left s
  ∧ player_name (reset_leaderboards true removed s) = player_name s
  ∧ events (reset_leaderboards true removed s)
    = events s ++ [ev_message "Reset Scores"]
  ∧ ∀ d, d ∈ difficulties →
      leaderboards
        (load_leaderboards py_int (reset_leaderboards true removed s)) !! d
      = Some (if removed (filename d) then []
              else load_one py_int (files s) d []).
Proof.
  assert (Hfiles : ∀ x,
            files (reset_leaderboards true removed s) !! x
            = if bool_decide (x ∈ filename <$> difficulties) && removed x
              then None else files s !! x).
  { intros x. unfold reset_leaderboards, emit, set_files, set_leaderboards.
    cbn [negb files].
    apply (lookup_reset_files removed (files s) difficulties). }
  assert (Hboards : ∀ d, d ∈ difficulties →
            leaderboards (reset_leaderboards true removed s) !! d = Some []).
  { intros d Hd. unfold reset_leaderboards. simpl.
    unfold difficulties in Hd. rewrite !elem_of_cons in Hd.
    destruct Hd as [->|[->|[->|?%elem_of_nil]]]; [done..|done]. }
  assert (Hin : ∀ d, d ∈ difficulties →
            bool_decide (filename d ∈ filename <$> difficulties) = true).
  { intros d Hd. apply bool_decide_eq_true_2.
    by apply list_elem_of_fmap_2. }
  split_and!; try done.
  - intros d Hd. rewrite Hfiles, (Hin d Hd). done.
  - intros x Hx. rewrite Hfiles. by rewrite bool_decide_eq_false_2.
  - intros d Hd. rewrite lookup_load_leaderboards, (Hboards d Hd). simpl.
    f_equal. unfold load_one. rewrite Hfiles, (Hin d Hd). simpl.
    by destruct (removed (filename d)).
Qed.

(** ** The custom field dialog *)

(** X17.  [apply_settings] with the width and height fields holding
    integers of at least 1, as their validators allow: a mines field
    that is no integer, a negative number of mines and one that leaves
    no cell free are refused, each with its status text; every other
    number of mines starts a playable game of that size with fewer
    mines than cells, the flag counter at the number of mines and the
    leaderboards kept. *)
Theorem apply_settings_spec (py_int : string → option Z)
    (width_text height_text mines_text : string) (w h : Z)
    (s : Minesweeper) :
  py_int width_text = Some w → py_int height_text = Some h →
  1 ≤ w → 1 ≤ h →
  (∀ d, d ∈ difficulties → is_Some (leaderboards s !! d)) →
  (py_int mines_text = None →
   apply_settings py_int width_text height_text mines_text s
   = Some (settings_refused "Please enter valid numbers!"))
  ∧ (∀ m, py_int mines_text = Some m → m < 0 →
       apply_settings py_int width_text height_text mines_text s
       = Some (settings_refused "Please enter valid value"))
  ∧ (∀ m, py_int mines_text = Some m → w * h ≤ m →
       apply_settings py_int width_text height_text mines_text s
       = Some (settings_refused "Too many mines for this grid size!"))
  ∧ ∀ m, py_int mines_text = Some m → 0 ≤ m < w * h →
      ∃ s',
        apply_settings py_int width_text height_text mines_text s
        = Some (settings_applied s')
        ∧ playable s' ∧ flags_within s'
        ∧ height s' = h ∧ width s' = w ∧ mines s' = m
        ∧ flags_left s' = m
        ∧ 0 ≤ mines s' < height s' * width s'
        ∧ game_over s' = false ∧ is_first_click s' = true
        ∧ leaderboards s' = leaderboards s ∧ files s' = files s.
Proof.
  intros Hwt Hht Hw Hh Hlb. unfold apply_settings. rewrite Hwt, Hht.
  split_and!.
  - by intros ->.
  - intros m -> Hm. by rewrite bool_decide_eq_true_2.
  - intros m -> Hm. rewrite bool_decide_eq_false_2 by nia.
    by rewrite bool_decide_eq_true_2 by lia.
  - intros m -> Hm. rewrite bool_decide_eq_false_2 by lia.
    rewrite bool_decide_eq_false_2 by lia.
    destruct (set_difficulty_playable h w m s Hh Hw Hlb)
      as (s' & -> & Hplay & Hh' & Hw' & Hm' & Hfl & Hgo & Hfc & Hcf & _
          & Hlb' & Hf & _).
    exists s'. split; [done|]. split_and!; try done.
    + unfold flags_within. rewrite Hfl, Hcf, Hm'. lia.
    + lia.
    + rewrite Hm', Hh', Hw'. lia.
Qed.

Lemma apply_settings_spec_witness :
  ∃ s,
    new_game ∅ writes_succeed = Some s
    ∧ decimal_int "30" = Some 30 ∧ decimal_int "16" = Some 16
    ∧ (1 ≤ 30 ∧ 1 ≤ 16)
    ∧ (∀ d, d ∈ difficulties → is_Some (leaderboards s !! d))
    ∧ (decimal_int "480" = None →
       apply_settings decimal_int "30" "16" "480" s
       = Some (settings_refused "Please enter valid numbers!"))
    ∧ (∀ m, decimal_int "480" = Some m → m < 0 →
         apply_settings decimal_int "30" "16" "480" s
         = Some (settings_refused "Please enter valid value"))
    ∧ (∀ m, decimal_int "480" = Some m → 30 * 16 ≤ m →
         apply_settings decimal_int "30" "16" "480" s
         = Some (settings_refused "Too many mines for this grid size!"))
    ∧ ∀ m, decimal_int "480" = Some m → 0 ≤ m < 30 * 16 →
        ∃ s',
          apply_settings decimal_int "30" "16" "480" s
          = Some (settings_applied s')
          ∧ playable s' ∧ flags_within s'
          ∧ height s' = 16 ∧ width s' = 30 ∧ mines s' = m
          ∧ flags_left s' = m
          ∧ 0 ≤ mines s' < height s' * width s'
          ∧ game_over s' = false ∧ is_first_click s' = true
          ∧ leaderboards s' = leaderboards s ∧ files s' = files s.
Proof.
  destruct (new_game_spec ∅ writes_succeed) as (s & Hs & Hwf & _).
  assert (Hlb : ∀ d, d ∈ difficulties → is_Some (leaderboards s !! d)).
  { destruct Hwf as (_ & _ & _ & Hlb). exact Hlb. }
  assert (Hw : decimal_int "30" = Some 30) by (vm_compute; reflexivity).
  assert (Hh : decimal_int "16" = Some 16) by (vm_compute; reflexivity).
  exists s. split; [exact Hs|]. split; [exact Hw|]. split; [exact Hh|].
  split; [lia|]. split; [exact Hlb|].
  apply (apply_settings_spec decimal_int "30" "16" "480" 30 16 s);
    [exact Hw|exact Hh|lia|lia|exact Hlb].
Defined.

(** ** A flag put down and taken back *)

Lemma assign_assign f g p (buttons : Grid) :
  assign g p (assign f p buttons) = assign (λ btn, g (f btn)) p buttons.
Proof.
  unfold assign. rewrite list_alter_alter_eq.
  apply list_alter_ext; [|done].
  intros rw _. simpl. by rewrite list_alter_alter_eq.
Qed.

(** X18.  A right click on a closed button without a flag, while flags
    are left and the game runs, followed by a second right click on the
    same button, gives back the very game it started from: grid and
    flag counter included. *)
Theorem toggle_flag_twice (button : Ref) (s : Minesweeper)
    (btn : FieldButton) :
  game_over s = false → 0 < flags_left s →
  deref (buttons s) button = Some btn →
  state btn = normal → text btn = text_empty →
  ∃ s1,
    toggle_flag button s = Some s1
    ∧ flags_left s1 = flags_left s - 1
    ∧ deref (buttons s1) button
      = Some (config_text text_flag (config_state disabled btn))
    ∧ toggle_flag button s1 = Some s.
Proof.
  intros Hover Hleft Hb Hstate Htext. unfold toggle_flag at 1.
  rewrite Hover, Hb. simpl.
  rewrite Hstate, bool_decide_eq_true_2 by done.
  rewrite bool_decide_eq_true_2 by lia. simpl.
  eexists. split; [done|]. simpl. split; [done|].
  split; [by rewrite deref_assign_eq, Hb|].
  unfold toggle_flag. simpl. rewrite Hover.
  rewrite deref_assign_eq, Hb. simpl.
  rewrite assign_assign.
  rewrite (assign_id _ _ _ btn Hb).
  2: { destruct btn. simpl in *. by subst. }
  destruct s. unfold set_buttons, set_flags_left. simpl in *.
  do 2 f_equal. lia.
Qed.

Lemma toggle_flag_twice_witness :
  ∃ s btn,
    new_game ∅ writes_succeed = Some s
    ∧ game_over s = false ∧ 0 < flags_left s
    ∧ deref (buttons s) (3, 4)%nat = Some btn
    ∧ state btn = normal ∧ text btn = text_empty
    ∧ ∃ s1,
        toggle_flag (3, 4)%nat s = Some s1
        ∧ flags_left s1 = flags_left s - 1
        ∧ deref (buttons s1) (3, 4)%nat
          = Some (config_text text_flag (config_state disabled btn))
        ∧ toggle_flag (3, 4)%nat s1 = Some s.
Proof.
  destruct (new_game_playable ∅ writes_succeed)
    as (s & Hs & Hplay & Hh & Hw & _ & Hfl & Hgo & _).
  assert (Hb : ∃ btn, deref (buttons s) (3, 4)%nat = Some btn
                      ∧ state btn = normal ∧ text btn = text_empty).
  { revert Hs. generalize s. vm_compute. intros s1 H.
    injection H as <-. eexists. repeat split. }
  destruct Hb as (btn & Hb & Hst & Htx).
  assert (Hleft : 0 < flags_left s) by (rewrite Hfl; lia).
  exists s, btn. split; [exact Hs|]. split; [exact Hgo|].
  split; [exact Hleft|]. split; [exact Hb|]. split; [exact Hst|].
  split; [exact Htx|].
  exact (toggle_flag_twice (3, 4)%nat s btn Hgo Hleft Hb Hst Htx).
Defined.

(** ** A win that qualifies *)

Lemma update_leaderboard_qualifies py_int typed d t s entries :
  leaderboards (load_leaderboards py_int s) !! d = Some entries →
  qualifies entries t = true →
  update_leaderboard py_int typed d t s
  = Some (show_leaderboards py_int
            (save_leaderboards
               (set_leaderboards
                  (<[d := take 5
                            (sort_by_time
                               (entries
                                ++ [{| name := name_after_prompt typed s;
                                       time := t |}]))]>
                     (leaderboards (load_leaderboards py_int s)))
                  (prompt_player_name typed d
                     (load_leaderboards py_int s))))).
Proof.
  intros Hent Hq. unfold update_leaderboard. rewrite Hent.
  cbn [mbind option_bind]. rewrite Hq.
  unfold prompt_player_name, name_after_prompt. by destruct typed.
Qed.

Lemma length_sort_by_time l : length (sort_by_time l) = length l.
Proof.
  destruct (sort_by_time_spec l) as (_ & Hperm & _). by rewrite Hperm.
Qed.

(** X19.  What [update_leaderboard] does with a winning time.  With
    [entries] the list reloaded at submission, a time that does not
    qualify leaves the reloaded state: no dialog, no write.  A time that
    qualifies is asked a name for, sorted in and kept among the first
    five; the file of the difficulty is what the attempt to write the
    rows of those five left, and the list in memory at the end is what
    the reload finds in that file.  When the rows were written, that
    list is the stable sort of the kept entries with a positive time,
    names and times as the load reads them: a time of at least 1 is in
    the leaderboard (capped at 999), a time of 0 or less is not. *)
Theorem update_leaderboard_enters (py_int : string → option Z)
    (typed : option string) (d : string) (t : Z) (s : Minesweeper) :
  is_Some (leaderboards s !! d) →
  boards_bounded s →
  ∃ entries s',
    leaderboards (load_leaderboards py_int s) !! d = Some entries
    ∧ update_leaderboard py_int typed d t s = Some s'
    ∧ (¬ spec_qualifies entries t →
         s' = load_leaderboards py_int s
         ∧ leaderboards s' !! d = Some entries
         ∧ files s' = files s
         ∧ events s' = events s)
    ∧ (spec_qualifies entries t →
         ∃ sorted rows,
           stable_sort_of
             (entries ++ [{| name := name_after_prompt typed s; time := t |}])
             sorted
           ∧ {| name := name_after_prompt typed s; time := t |}
               ∈ take 5 sorted
           ∧ rows = (λ e, [default "" (name e); py_str (time e)])
                      <$> take 5 sorted
           ∧ events s'
             = events s ++ [ev_prompt_name d; ev_save; ev_leaderboard_window]
           ∧ files s' !! filename d
             = after_write (write_outcome s (filename d) rows) rows
                 (files s !! filename d)
           ∧ leaderboards s' !! d
             = Some (load_one py_int (files s') d (take 5 sorted))
           ∧ (write_outcome s (filename d) rows = write_done →
              (∀ e, e ∈ take 5 sorted →
                 py_int (py_str (time e)) = Some (time e)) →
              ∃ shown,
                stable_sort_of
                  (reloaded <$> filter (λ e, 0 < time e) (take 5 sorted))
                  shown
                ∧ files s' !! filename d = Some (content rows)
                ∧ leaderboards s' !! d = Some shown
                ∧ (0 < t →
                   reloaded {| name := name_after_prompt typed s; time := t |}
                     ∈ shown)
                ∧ (t ≤ 0 → ∀ e, e ∈ shown → time e ≠ t))).
Proof.
  intros [old Hold] Hb.
  destruct (leaderboards (load_leaderboards py_int s) !! d)
    as [entries|] eqn:Hent.
  2: { rewrite lookup_load_leaderboards, Hold in Hent. done. }
  pose proof (load_leaderboards_bounded _ _ _ _ Hb Hent) as Hlen.
  pose proof (qualifies_spec entries t Hlen) as Hq.
  exists entries.
  destruct (qualifies entries t) eqn:Hqual.
  2: { exists (load_leaderboards py_int s). split; [done|]. split.
       { unfold update_leaderboard. rewrite Hent. cbn [mbind option_bind].
         by rewrite Hqual. }
       split; [done|]. intros Hsq. apply Hq in Hsq. done. }
  set (new := {| name := name_after_prompt typed s; time := t |}).
  set (kept := take 5 (sort_by_time (entries ++ [new]))).
  set (s3 := set_leaderboards
               (<[d := kept]> (leaderboards (load_leaderboards py_int s)))
               (prompt_player_name typed d (load_leaderboards py_int s))).
  exists (show_leaderboards py_int (save_leaderboards s3)).
  split; [done|]. split; [by apply update_leaderboard_qualifies|].
  split; [intros Hnq; exfalso; apply Hnq, Hq; done|]. intros _.
  pose proof (sort_by_time_spec (entries ++ [new])) as Hsort.
  assert (Hin : new ∈ kept).
  { apply (qualifying_entry_kept entries); [done|by apply Hq|done]. }
  assert (Hl3 : leaderboards s3 !! d = Some kept).
  { unfold s3. cbn [leaderboards set_leaderboards]. apply lookup_insert_eq. }
  assert (Hf3 : files s3 = files s ∧ write_outcome s3 = write_outcome s
                ∧ events s3 = events s ++ [ev_prompt_name d]).
  { unfold s3, prompt_player_name. by destruct typed. }
  destruct Hf3 as (Hf3 & Hw3 & He3).
  destruct (save_load_lookup py_int s3 d kept Hl3) as [Hfile Hload].
  rewrite Hf3, Hw3 in Hfile.
  assert (Hfiles : files (show_leaderboards py_int (save_leaderboards s3))
                   = files (save_leaderboards s3)) by done.
  assert (Hboards : leaderboards
                      (show_leaderboards py_int (save_leaderboards s3))
                    = leaderboards
                        (load_leaderboards py_int (save_leaderboards s3)))
    by done.
  exists (sort_by_time (entries ++ [new])), (entry_row <$> kept).
  split; [done|]. split; [done|]. split; [done|]. split.
  { unfold show_leaderboards, save_leaderboards, emit. cbn [events].
    change (events (load_leaderboards py_int ?x)) with (events x).
    cbn [events set_files]. rewrite He3. by rewrite <- !app_assoc. }
  split; [by rewrite Hfiles|]. split; [by rewrite Hboards, Hfiles|].
  intros Hdone Hint. fold kept in Hint.
  rewrite Hdone in Hfile. cbn [after_write] in Hfile.
  rewrite (load_one_written py_int (files (save_leaderboards s3)) d kept kept
             Hfile Hint) in Hload.
  set (read := reloaded <$> filter (λ e, 0 < time e) kept) in *.
  assert (Hshort : (length (sort_by_time read) ≤ 5)%nat).
  { rewrite length_sort_by_time. unfold read. rewrite length_fmap.
    etrans; [apply length_filter|]. unfold kept. rewrite length_take. lia. }
  rewrite take_ge in Hload by done.
  exists (sort_by_time read).
  pose proof (sort_by_time_spec read) as (Hsorted & Hperm & Hstable).
  split; [done|]. split; [by rewrite Hfiles|].
  split; [by rewrite Hboards|]. split.
  - intros Hpos. rewrite Hperm. unfold read.
    apply list_elem_of_fmap_2, list_elem_of_filter. by split.
  - intros Hneg e He. rewrite Hperm in He. unfold read in He.
    apply list_elem_of_fmap in He as (e0 & -> & He0).
    apply list_elem_of_filter in He0 as [Hpos _]. unfold reloaded. simpl. lia.
Qed.

Lemma update_leaderboard_enters_witness :
  ∃ s,
    new_game sample_files writes_succeed = Some s
    ∧ is_Some (leaderboards s !! "beginner")
    ∧ boards_bounded s
    ∧ ∃ entries s',
        entries = [{| name := Some "cat"; time := 7 |};
                   {| name := Some "amy"; time := 40 |};
                   {| name := Some "dan"; time := 40 |};
                   {| name := Some "Anonymous"; time := 999 |}]
        ∧ spec_qualifies entries 1200
        ∧ files s' !! filename "beginner"
          = Some (content [["cat"; "7"]; ["amy"; "40"]; ["dan"; "40"];
                           ["Anonymous"; "999"]; [""; "1200"]])
        ∧ leaderboards s' !! "beginner"
          = Some [{| name := Some "cat"; time := 7 |};
                  {| name := Some "amy"; time := 40 |};
                  {| name := Some "dan"; time := 40 |};
                  {| name := Some "Anonymous"; time := 999 |};
                  {| name := Some "Anonymous"; time := 999 |}]
        ∧ leaderboards (load_leaderboards decimal_int s) !! "beginner"
          = Some entries
        ∧ update_leaderboard decimal_int None "beginner" 1200 s = Some s'
        ∧ (¬ spec_qualifies entries 1200 →
             s' = load_leaderboards decimal_int s
             ∧ leaderboards s' !! "beginner" = Some entries
             ∧ files s' = files s
             ∧ events s' = events s)
        ∧ (spec_qualifies entries 1200 →
             ∃ sorted rows,
               stable_sort_of
                 (entries ++ [{| name := name_after_prompt None s;
                                 time := 1200 |}])
                 sorted
               ∧ {| name := name_after_prompt None s; time := 1200 |}
                   ∈ take 5 sorted
               ∧ rows = (λ e, [default "" (name e); py_str (time e)])
                          <$> take 5 sorted
               ∧ events s'
                 = events s
                   ++ [ev_prompt_name "beginner"; ev_save;
                       ev_leaderboard_window]
               ∧ files s' !! filename "beginner"
                 = after_write
                     (write_outcome s (filename "beginner") rows) rows
                     (files s !! filename "beginner")
               ∧ leaderboards s' !! "beginner"
                 = Some (load_one decimal_int (files s') "beginner"
                           (take 5 sorted))
               ∧ (write_outcome s (filename "beginner") rows = write_done →
                  (∀ e, e ∈ take 5 sorted →
                     decimal_int (py_str (time e)) = Some (time e)) →
                  ∃ shown,
                    stable_sort_of
                      (reloaded
                         <$> filter (λ e, 0 < time e) (take 5 sorted))
                      shown
                    ∧ files s' !! filename "beginner" = Some (content rows)
                    ∧ leaderboards s' !! "beginner" = Some shown
                    ∧ (0 < 1200 →
                       reloaded {| name := name_after_prompt None s;
                                   time := 1200 |}
                         ∈ shown)
                    ∧ (1200 ≤ 0 → ∀ e, e ∈ shown → time e ≠ 1200))).
Proof.
  destruct (new_game_spec sample_files writes_succeed)
    as (s & Hs & _ & Hb & _ & _ & _ & _ & _ & Hlb).
  assert (Hold : is_Some (leaderboards s !! "beginner")).
  { exists []. apply Hlb. unfold difficulties. apply list_elem_of_here. }
  exists s. split; [exact Hs|]. split; [exact Hold|]. split; [exact Hb|].
  destruct (update_leaderboard_enters decimal_int None "beginner" 1200 s
              Hold Hb) as (entries & s' & Hent & Hupd & Hno & Hyes).
  assert (Hloaded : (s ← new_game sample_files writes_succeed;
                     leaderboards (load_leaderboards decimal_int s)
                       !! "beginner") = Some entries).
  { rewrite Hs. exact Hent. }
  assert (Hentries : entries
                     = [{| name := Some "cat"; time := 7 |};
                        {| name := Some "amy"; time := 40 |};
                        {| name := Some "dan"; time := 40 |};
                        {| name := Some "Anonymous"; time := 999 |}]).
  { revert Hloaded. vm_compute. intros H. injection H as <-. reflexivity. }
  assert (Hrun : (new_game sample_files writes_succeed
                  ≫= update_leaderboard decimal_int None "beginner" 1200)
                 = Some s').
  { rewrite Hs. exact Hupd. }
  assert (Hfacts : files s' !! filename "beginner"
                   = Some (content [["cat"; "7"]; ["amy"; "40"];
                                    ["dan"; "40"]; ["Anonymous"; "999"];
                                    [""; "1200"]])
                   ∧ leaderboards s' !! "beginner"
                     = Some [{| name := Some "cat"; time := 7 |};
                             {| name := Some "amy"; time := 40 |};
                             {| name := Some "dan"; time := 40 |};
                             {| name := Some "Anonymous"; time := 999 |};
                             {| name := Some "Anonymous"; time := 999 |}]).
  { revert Hrun. generalize s'. vm_compute. intros s1 H.
    injection H as <-. split; reflexivity. }
  destruct Hfacts as [Hfile Hboard].
  assert (Hq : spec_qualifies entries 1200).
  { left. rewrite Hentries. simpl. lia. }
  exists entries, s'. split; [exact Hentries|]. split; [exact Hq|].
  split; [exact Hfile|]. split; [exact Hboard|]. split; [exact Hent|].
  split; [exact Hupd|]. split; [exact Hno|]. exact Hyes.
Defined.
